(** * Weir QoS: a shallow embedding of the enforcer and the aggregator

    The development follows the layout of the repository:

    - [CInt]         fixed-width C integers, with their wrap-around written out;
    - [CFloat]       the floating-point operations of the throttle table;
    - [RateLimit]    haproxy-lua/added-files/src/rate_limit.c (throttle table);
    - [Ticks], [FreqCtr], [WindowCtr]
                     the HAProxy primitives that the filter calls;
    - [FltWeir]      haproxy-lua/added-files/src/flt_weir.c (the filter);
    - [StringSplit]  syslog_server/src/stringsplit.cpp;
    - [MsgProcessor] syslog_server/src/msg_processor.cpp, with the parts of
                     redis_utils.cpp that it calls;
    - [FltWeirHooks] the hooks of flt_weir.c that start and end a request;
    - [LogLines]     the text of the event lines that the filter writes;
    - [SyslogServer] syslog_server/src/syslog_server.cpp (the producer);
    - [RedisUtils]   syslog_server/src/redis_utils.cpp (the connection).

    They are followed by the concrete runs and by the statements the code is
    compared with ([Scenarios], [IngestRuns], [BandwidthSpec], [PayloadRun],
    [SplitterStates], [AggregatorRuns], [ConnectionCounts], [EventText],
    [Pipeline], [RequestLifeCycle], [FlushCommands], [ConnectionLife],
    [EventRuns], [ThrottleLog]), and then by the properties.

    Conventions.  Unsigned C integers are values of [Z] reduced with [u16],
    [u32], [u64] wherever the C code can wrap.  Conversions to [int] are
    written with [s32].  Signed arithmetic that would overflow is undefined
    behaviour in C and C++; the counters of the command map are reduced
    with [s32], as the build does, and the theorems about sums speak about
    executions without signed overflow.  Memory allocation is
    taken to succeed.  Hash tables are finite maps ([gmap]); the C++
    [unordered_map] with a user-defined key equality is an association list
    searched with that equality.  Locks are not modelled: every function
    below is the sequential behaviour of one call holding the lock the source
    takes.  Clock readings and random numbers are arguments. *)

From Stdlib Require Import ZArith List String Ascii Lia Bool QArith.QArith_base QArith.Qround.
From stdpp Require Import gmap strings list pretty.

Local Open Scope Z_scope.

(* ===================================================================== *)
(** * Fixed-width integers *)
(* ===================================================================== *)

Module CInt.

Definition u16 (x : Z) : Z := x mod 2 ^ 16.
Definition u32 (x : Z) : Z := x mod 2 ^ 32.
Definition u64 (x : Z) : Z := x mod 2 ^ 64.

(** Conversion of a value to [int] (two's complement). *)
Definition s32 (x : Z) : Z :=
  let r := x mod 2 ^ 32 in if r <? 2 ^ 31 then r else r - 2 ^ 32.

Definition UINT_MAX : Z := 2 ^ 32 - 1.
Definition INT_MAX : Z := 2 ^ 31 - 1.
Definition INT_MIN : Z := - 2 ^ 31.

(** The macros [MIN] and [MAX] come from HAProxy's headers, which are not
    among the repository's files: [(a) < (b) ? (a) : (b)] and
    [(a) > (b) ? (a) : (b)], here on operands already converted to their
    common type. *)
Definition MIN (a b : Z) : Z := if a <? b then a else b.
Definition MAX (a b : Z) : Z := if b <? a then a else b.

(** [div64_32] comes from HAProxy's headers as well:
    [unsigned int div64_32(unsigned long long o1, unsigned int o2)], the
    quotient [o1 / o2] returned in 32 bits. *)
Definition div64_32 (o1 o2 : Z) : Z := u32 (u64 o1 / u32 o2).

End CInt.
Import CInt.

(* ===================================================================== *)
(** * The C floating-point operations used by the throttle table *)
(* ===================================================================== *)

(** [rate_limit.c] stores the controller's ratio as a C [float] and uses it
    in four places: a division of an integer by the ratio converted back to
    [uint64_t], two comparisons and a subtraction.  These are the operations
    of the interface below; every theorem about the throttle table holds for
    any implementation of them.

    The conversion of a [double] to [uint64_t] is undefined in C when the
    value is 2^64 or more.  The last operation of the interface is what the
    platform stores in that case; its argument is the value of the
    [double]. *)
Class CFloat (float : Type) := {
  fzero : float;                      (* 0.0f, the zero-initialised field *)
  f_low_mark : float;                 (* 1.5 *)
  fltb : float -> float -> bool;      (* a < b *)
  fleb : float -> float -> bool;      (* a <= b *)
  fsub : float -> float -> float;     (* a - b *)
  (* (uint64_t)((double)e / r) *)
  div_to_u64 : Z -> float -> Z;
  (* (uint64_t)d for a double d >= 2^64 *)
  out_of_range_to_u64 : Z -> Z
}.

(** The instance used for concrete runs: ratios are rationals and the
    operations are exact; a [double] of 2^64 or more is converted to 0, as
    on x86-64. *)
#[export] Instance CFloat_Q : CFloat Q := {|
  fzero := 0%Q;
  f_low_mark := (3 # 2)%Q;
  fltb a b := match (a ?= b)%Q with Lt => true | _ => false end;
  fleb a b := match (a ?= b)%Q with Gt => false | _ => true end;
  fsub a b := (a - b)%Q;
  div_to_u64 e r := Qfloor (inject_Z e / r)%Q;
  out_of_range_to_u64 _ := 0
|}.

(** [(double)n] for a [uint64_t] [n]: [n] itself below 2^53, and above
    that the nearest number with 53 significant bits, a tie going to the
    even one (the default rounding mode). *)
Definition double_of_u64 (n : Z) : Z :=
  if n <? 2 ^ 53 then n
  else
    let ulp := 2 ^ (Z.log2 n - 52) in
    let q := n / ulp in
    let r := n mod ulp in
    let up := (ulp / 2 <? r) || ((r =? ulp / 2) && Z.odd q) in
    (if up then q + 1 else q) * ulp.

(* ===================================================================== *)
(** * rate_limit.c *)
(* ===================================================================== *)

Module RateLimit.

Inductive DataDirection := RL_UPLOAD | RL_DOWNLOAD.
Inductive ThrottleFlag := RL_THROTTLE | RL_NO_THROTTLE.

#[export] Instance DataDirection_eq_dec : EqDecision DataDirection.
Proof. solve_decision. Defined.
#[export] Instance ThrottleFlag_eq_dec : EqDecision ThrottleFlag.
Proof. solve_decision. Defined.

(** [struct sockaddr_in]; the fields hold the values that [ntohl] and
    [ntohs] return. *)
Record sockaddr_in := { sin_addr : Z; sin_port : Z }.

Definition ip_port_from_sockaddr (addr_in : option sockaddr_in) : Z :=
  match addr_in with
  | None => 0
  | Some a =>
      let port := u16 (sin_port a) in
      let ip := u32 (sin_addr a) in
      Z.lor (u64 (Z.shiftl ip 32)) port
  end.

Definition UNIT_MB : Z := 1024 * 1024.
Definition UNIT_USECS_IN_SEC : Z := 1000000.
Definition UINT_USECS_IN_MILLISEC : Z := 1000.

Record epoch_t := {
  in_seconds : Z;                       (* uint32_t *)
  now_elapsed_usec_in_the_epoch : Z     (* uint64_t *)
}.

(** [gettimeofday] is an input of the model. *)
Record timeval := { tv_sec : Z; tv_usec : Z }.

Definition get_current_epoch (current_time : timeval) : epoch_t :=
  {| in_seconds := u32 (tv_sec current_time);
     now_elapsed_usec_in_the_epoch := u64 (tv_usec current_time) |}.

Definition SPEED_TABLE_CLEANUP_PERIOD_USEC : Z := 60 * UNIT_USECS_IN_SEC.
Definition SPEED_TABLE_STALE_POLICY_AGE_SEC : Z := 120.
Definition BACKOFF_WINDOW_EPOCHS : Z := 6.
Definition MIN_RUN_TIME_USEC : Z := 50 * UINT_USECS_IN_MILLISEC.

Section WithFloat.
Context {float : Type} `{CFloat float}.

Record speed_hash_value_t := {
  throttle : Z;                   (* uint32_t; 0: no, >0: yes *)
  num_active_connections : Z;     (* khint32_t *)
  received_epoch_sec : Z;         (* uint32_t *)
  diff_ratio : float;
  elapsed_usec_in_the_epoch : Z;  (* uint64_t *)
  allowed_run_time_usec : Z;      (* uint64_t *)
  previous_diff_ratio : float
}.

(** The file-scope tables. *)
Record tables := {
  ip_port_key_hashmap : gmap Z string;
  key_ip_port_count_hashmap : gmap string Z;
  key_upload_speed_epoch_hashmap : gmap string speed_hash_value_t;
  key_download_speed_epoch_hashmap : gmap string speed_hash_value_t;
  BASE_JITTER_RANGE_MS : Z
}.

Definition init_speed_epoch_hashmaps : tables :=
  {| ip_port_key_hashmap := ∅;
     key_ip_port_count_hashmap := ∅;
     key_upload_speed_epoch_hashmap := ∅;
     key_download_speed_epoch_hashmap := ∅;
     BASE_JITTER_RANGE_MS := 2 |}.

Definition policy_age_epochs (policy : speed_hash_value_t) (curr_sec : Z) : Z :=
  u32 (curr_sec - received_epoch_sec policy).

Definition is_valid_violation_policy (policy : speed_hash_value_t) (curr_sec : Z) : bool :=
  policy_age_epochs policy curr_sec <=? BACKOFF_WINDOW_EPOCHS.

Definition get_key_speed_hash (t : tables) (data_direction : DataDirection)
  : gmap string speed_hash_value_t :=
  match data_direction with
  | RL_DOWNLOAD => key_download_speed_epoch_hashmap t
  | RL_UPLOAD => key_upload_speed_epoch_hashmap t
  end.

Definition set_key_speed_hash (t : tables) (data_direction : DataDirection)
    (h : gmap string speed_hash_value_t) : tables :=
  match data_direction with
  | RL_DOWNLOAD =>
      {| ip_port_key_hashmap := ip_port_key_hashmap t;
         key_ip_port_count_hashmap := key_ip_port_count_hashmap t;
         key_upload_speed_epoch_hashmap := key_upload_speed_epoch_hashmap t;
         key_download_speed_epoch_hashmap := h;
         BASE_JITTER_RANGE_MS := BASE_JITTER_RANGE_MS t |}
  | RL_UPLOAD =>
      {| ip_port_key_hashmap := ip_port_key_hashmap t;
         key_ip_port_count_hashmap := key_ip_port_count_hashmap t;
         key_upload_speed_epoch_hashmap := h;
         key_download_speed_epoch_hashmap := key_download_speed_epoch_hashmap t;
         BASE_JITTER_RANGE_MS := BASE_JITTER_RANGE_MS t |}
  end.

Definition incr_num_connections_of_a_key (key : string) (counts : gmap string Z)
  : gmap string Z :=
  match counts !! key with
  | None => <[key := 1]> counts
  | Some v => <[key := u32 (v + 1)]> counts
  end.

Definition decr_num_connections_of_a_key (key : string) (counts : gmap string Z)
  : gmap string Z :=
  match counts !! key with
  | None => counts
  | Some v =>
      if v =? 0 then counts
      else if v =? 1 then delete key counts
      else <[key := v - 1]> counts
  end.

Definition get_ip_port_count_from_key (t : tables) (access_key : string) : Z :=
  match key_ip_port_count_hashmap t !! access_key with
  | Some count => count
  | None => 0
  end.

(** The result is [None] for the C null pointer. *)
Definition get_key_from_ip_port (t : tables) (ip_port : Z) : option string :=
  ip_port_key_hashmap t !! ip_port.

(** [allowed * pow(2, exponent)] assigned to a [uint64_t]: [allowed] is
    converted to [double], the product with the power of two is exact, and
    the product is converted back.  A product of 2^64 or more does not fit
    the [uint64_t]. *)
Definition scale_by_pow2 (allowed : Z) (exponent : Z) : Z :=
  let product := double_of_u64 allowed * 2 ^ exponent in
  if product <? 2 ^ 64 then product else u64 (out_of_range_to_u64 product).

Definition compute_allowed_run_time (policy : speed_hash_value_t) (curr_sec : Z)
  : speed_hash_value_t :=
  let policy_age := u32 (curr_sec - received_epoch_sec policy) in
  let allowed := u64 (div_to_u64 (elapsed_usec_in_the_epoch policy) (diff_ratio policy)) in
  let allowed := MAX MIN_RUN_TIME_USEC allowed in
  let result :=
    if policy_age =? 0 then 0
    else if policy_age <=? BACKOFF_WINDOW_EPOCHS then
      let allowed := scale_by_pow2 allowed (policy_age - 1) in
      MIN allowed UNIT_USECS_IN_SEC
    else UNIT_USECS_IN_SEC in
  {| throttle := throttle policy;
     num_active_connections := num_active_connections policy;
     received_epoch_sec := received_epoch_sec policy;
     diff_ratio := diff_ratio policy;
     elapsed_usec_in_the_epoch := elapsed_usec_in_the_epoch policy;
     allowed_run_time_usec := result;
     previous_diff_ratio := previous_diff_ratio policy |}.

Definition set_throttle (policy : speed_hash_value_t) (v : Z) : speed_hash_value_t :=
  {| throttle := v;
     num_active_connections := num_active_connections policy;
     received_epoch_sec := received_epoch_sec policy;
     diff_ratio := diff_ratio policy;
     elapsed_usec_in_the_epoch := elapsed_usec_in_the_epoch policy;
     allowed_run_time_usec := allowed_run_time_usec policy;
     previous_diff_ratio := previous_diff_ratio policy |}.

Definition set_num_active_connections (policy : speed_hash_value_t) (v : Z)
  : speed_hash_value_t :=
  {| throttle := throttle policy;
     num_active_connections := v;
     received_epoch_sec := received_epoch_sec policy;
     diff_ratio := diff_ratio policy;
     elapsed_usec_in_the_epoch := elapsed_usec_in_the_epoch policy;
     allowed_run_time_usec := allowed_run_time_usec policy;
     previous_diff_ratio := previous_diff_ratio policy |}.

(** [speed_hash_value_t found = {.throttle = 0}]. *)
Definition found_nothing : speed_hash_value_t :=
  {| throttle := 0; num_active_connections := 0; received_epoch_sec := 0;
     diff_ratio := fzero; elapsed_usec_in_the_epoch := 0;
     allowed_run_time_usec := 0; previous_diff_ratio := fzero |}.

(** Returns the record [found] and the value left in [*access_key]. *)
Definition get_epoch_sec (t : tables) (ip_port : Z) (data_direction : DataDirection)
    (curr_sec : Z) : speed_hash_value_t * option string :=
  match get_key_from_ip_port t ip_port with
  | None => (found_nothing, None)
  | Some access_key =>
      if (String.length access_key =? 0)%nat then (found_nothing, Some access_key)
      else
        match get_key_speed_hash t data_direction !! access_key with
        | None => (found_nothing, Some access_key)
        | Some v =>
            let found := set_throttle v 0 in
            if is_valid_violation_policy found curr_sec then
              let found := set_throttle found 1 in
              let found :=
                set_num_active_connections found (get_ip_port_count_from_key t access_key) in
              (compute_allowed_run_time found curr_sec, Some access_key)
            else (found, Some access_key)
        end
  end.

(** The sweep of one direction done by the clean-up thread. *)
Definition remove_old_epochs_pass (t : tables) (dir : DataDirection) (current_epoch : Z)
  : tables :=
  set_key_speed_hash t dir
    (filter (fun kv : string * speed_hash_value_t =>
               ¬ (received_epoch_sec kv.2 < current_epoch
                  ∧ SPEED_TABLE_STALE_POLICY_AGE_SEC < current_epoch - received_epoch_sec kv.2))
            (get_key_speed_hash t dir)).

(** [random32] is the value returned by [ha_random32()].  The remainder
    is taken in [unsigned int]; with a range of 0 the division traps, and
    the result is [None]. *)
Definition get_jitter_usec (t : tables) (policy : speed_hash_value_t) (random32 : Z)
  : option Z :=
  let larger :=
    if fltb (diff_ratio policy) (previous_diff_ratio policy)
    then previous_diff_ratio policy else diff_ratio policy in
  let jitter :=
    fleb f_low_mark larger
    || fltb fzero (fsub (diff_ratio policy) (previous_diff_ratio policy)) in
  if jitter
  then
    if u32 (BASE_JITTER_RANGE_MS t) =? 0 then None
    else Some (u32 ((u32 random32 mod u32 (BASE_JITTER_RANGE_MS t)) * UINT_USECS_IN_MILLISEC))
  else Some 0.

(** The result is the flag and the number of microseconds slept; [None]
    is the division by zero of [get_jitter_usec], which ends the
    process. *)
Definition rl_speed_throttle (t : tables) (addr_in : option sockaddr_in)
    (data_direction : DataDirection) (current_time : timeval) (random32 : Z)
  : option (ThrottleFlag * Z) :=
  let current_epoch := get_current_epoch current_time in
  match addr_in with
  | None => Some (RL_NO_THROTTLE, 0)
  | Some _ =>
      let ip_port := ip_port_from_sockaddr addr_in in
      let found :=
        (get_epoch_sec t ip_port data_direction (in_seconds current_epoch)).1 in
      if throttle found =? 0 then Some (RL_NO_THROTTLE, 0)
      else if now_elapsed_usec_in_the_epoch current_epoch <? allowed_run_time_usec found
      then
        match get_jitter_usec t found random32 with
        | Some jitter_us => Some (RL_NO_THROTTLE, jitter_us)
        | None => None
        end
      else Some (RL_THROTTLE, 0)
  end.

(** The event line written by [rl_data_transferred]:
    [data_xfer~|~ip:port~|~key~|~dir~|~done]. *)
Record data_xfer_line := {
  xfer_addr : sockaddr_in;
  xfer_key : string;
  xfer_direction : string;
  xfer_done : Z
}.

Definition rl_data_transferred (t : tables) (addr_in : option sockaddr_in)
    (data_direction : DataDirection) (done : Z) : option data_xfer_line :=
  match addr_in with
  | None => None
  | Some a =>
      match get_key_from_ip_port t (ip_port_from_sockaddr addr_in) with
      | None => None
      | Some access_key =>
          if (String.length access_key =? 0)%nat then None
          else Some {| xfer_addr := a;
                       xfer_key := access_key;
                       xfer_direction :=
                         match data_direction with
                         | RL_DOWNLOAD => "dwn"
                         | RL_UPLOAD => "up"
                         end;
                       xfer_done := u32 done |}
      end
  end.

Definition set_throttle_epoch_us (t : tables) (key : string) (epoch_us : Z)
    (data_direction : DataDirection) (ratio : float) (current_time : timeval) : tables :=
  let current_epoch := get_current_epoch current_time in
  let value :=
    {| throttle := in_seconds current_epoch;
       num_active_connections := 0;
       received_epoch_sec := in_seconds current_epoch;
       diff_ratio := ratio;
       elapsed_usec_in_the_epoch := u64 epoch_us mod UNIT_USECS_IN_SEC;
       allowed_run_time_usec := 0;
       previous_diff_ratio := fzero |} in
  if (String.length key =? 0)%nat then t
  else
    let hash := get_key_speed_hash t data_direction in
    match hash !! key with
    | Some found =>
        let value :=
          {| throttle := throttle value;
             num_active_connections := num_active_connections value;
             received_epoch_sec := received_epoch_sec value;
             diff_ratio := diff_ratio value;
             elapsed_usec_in_the_epoch := elapsed_usec_in_the_epoch value;
             allowed_run_time_usec := allowed_run_time_usec value;
             previous_diff_ratio := diff_ratio found |} in
        set_key_speed_hash t data_direction (<[key := value]> hash)
    | None => set_key_speed_hash t data_direction (<[key := value]> hash)
    end.

Definition set_jitter_range (t : tables) (range : Z) : tables :=
  {| ip_port_key_hashmap := ip_port_key_hashmap t;
     key_ip_port_count_hashmap := key_ip_port_count_hashmap t;
     key_upload_speed_epoch_hashmap := key_upload_speed_epoch_hashmap t;
     key_download_speed_epoch_hashmap := key_download_speed_epoch_hashmap t;
     BASE_JITTER_RANGE_MS := s32 (u32 range) |}.

(** [ip_port] is the value of [get_ip_port(ip, port)]: the packed
    address, or 0 when [inet_pton] rejects [ip]. *)
Definition set_ip_port_key (t : tables) (ip_port : Z) (key : string) : tables :=
  if (String.length key =? 0)%nat then t
  else if ip_port =? 0 then t
  else
    {| ip_port_key_hashmap := <[ip_port := key]> (ip_port_key_hashmap t);
       key_ip_port_count_hashmap :=
         incr_num_connections_of_a_key key (key_ip_port_count_hashmap t);
       key_upload_speed_epoch_hashmap := key_upload_speed_epoch_hashmap t;
       key_download_speed_epoch_hashmap := key_download_speed_epoch_hashmap t;
       BASE_JITTER_RANGE_MS := BASE_JITTER_RANGE_MS t |}.

Definition remove_from_ip_port_key_hash (t : tables) (ip_port : Z) : tables :=
  match ip_port_key_hashmap t !! ip_port with
  | None => t
  | Some access_key =>
      {| ip_port_key_hashmap := delete ip_port (ip_port_key_hashmap t);
         key_ip_port_count_hashmap :=
           decr_num_connections_of_a_key access_key (key_ip_port_count_hashmap t);
         key_upload_speed_epoch_hashmap := key_upload_speed_epoch_hashmap t;
         key_download_speed_epoch_hashmap := key_download_speed_epoch_hashmap t;
         BASE_JITTER_RANGE_MS := BASE_JITTER_RANGE_MS t |}
  end.

Definition rl_request_end (t : tables) (addr_in : option sockaddr_in) : tables :=
  match addr_in with
  | None => t
  | Some _ => remove_from_ip_port_key_hash t (ip_port_from_sockaddr addr_in)
  end.

End WithFloat.

Arguments speed_hash_value_t float : clear implicits.
Arguments tables float : clear implicits.

End RateLimit.

(* ===================================================================== *)
(** * HAProxy primitives used by the filter *)
(* ===================================================================== *)

(** HAProxy's tick helpers ([haproxy/ticks.h]) are not among the
    repository's files.  A tick is a wrapping 32-bit millisecond count in
    which 0 means "unset". *)
Module Ticks.

(** Modelled from the spec: the tick value that stands for "unset"
    ("existing_or_ETERNITY"). *)
Definition TICK_ETERNITY : Z := 0.

(** Modelled from the spec: ticks count milliseconds ("now + 1 ms"). *)
Definition MS_TO_TICKS (ms : Z) : Z := ms.

(** Modelled from the spec: whether a tick is set ("unset or expired"). *)
Definition tick_isset (expire : Z) : bool := negb (expire =? 0).

(** Modelled from the spec: the tick [timeout] milliseconds after [now]
    ("now + 1 ms"); the sum that would read as "unset" is moved by one. *)
Definition tick_add (now timeout : Z) : Z :=
  let r := u32 (now + timeout) in if r =? 0 then 1 else r.

(** Modelled from the spec: a set tick has expired when it is not after
    [now] ("unset or expired"). *)
Definition tick_is_expired (timer now : Z) : bool :=
  if negb (tick_isset timer) then false
  else s32 (timer - now) <=? 0.

(** Modelled from the spec: the earlier of two ticks, an unset tick counting
    as never ("min(existing_or_ETERNITY, next_allowed_send_tick)"). *)
Definition tick_first (t1 t2 : Z) : Z :=
  if negb (tick_isset t1) then t2
  else if negb (tick_isset t2) then t1
  else if s32 (t1 - t2) <=? 0 then t1 else t2.

End Ticks.
Import Ticks.

(** The interface of HAProxy's [struct freq_ctr] as the filter uses it: the
    four functions that [apply_bandwidth_limit] calls, and the counter of a
    zero-allocated record.  The counter argument stands for the counter read
    at the current [now_ms].  Every theorem about the filter holds for any
    implementation of the interface. *)
Class FreqCtr (freq_ctr : Type) := {
  (* the zero-initialised counter of a fresh [user_limit] *)
  freq_ctr_zero : freq_ctr;
  (* int freq_ctr_overshoot_period(ctr, period, freq) *)
  freq_ctr_overshoot_period : freq_ctr -> Z -> Z -> Z;
  (* uint freq_ctr_remain_period(ctr, period, freq, pend) *)
  freq_ctr_remain_period : freq_ctr -> Z -> Z -> Z -> Z;
  (* uint update_freq_ctr_period(ctr, period, inc) *)
  update_freq_ctr_period : freq_ctr -> Z -> Z -> freq_ctr;
  (* uint next_event_delay_period(ctr, period, freq, pend) *)
  next_event_delay_period : freq_ctr -> Z -> Z -> Z -> Z
}.

Module WindowCtr.

(** Modelled from the spec: the sliding-window rate counter is HAProxy's
    frequency counter, which is not among the repository's files.  The
    record holds the bytes admitted in the current window, read at one
    instant. *)
Record window_ctr := { admitted : Z }.

(** Modelled from the spec: "if the observed rate across the sliding window
    exceeds [limit], return the positive byte overshoot; else 0". *)
Definition overshoot (c : window_ctr) (period limit : Z) : Z :=
  if limit <? admitted c then admitted c - limit else 0.

(** Modelled from the spec: "the bytes that may still be admitted in the
    current sliding window without crossing [limit]". *)
Definition remaining (c : window_ctr) (period limit pending : Z) : Z :=
  Z.max 0 (limit - (admitted c + pending)).

(** Modelled from the spec: "admit [bytes] into the current bucket". *)
Definition update (c : window_ctr) (period bytes : Z) : window_ctr :=
  {| admitted := admitted c + bytes |}.

(** Modelled from the spec: "the milliseconds until the window would next
    admit more bytes", taken as the time the excess needs to drain at
    [limit] bytes per period, and at least 1 ms once the limit is reached. *)
Definition next_event_delay (c : window_ctr) (period limit pending : Z) : Z :=
  if admitted c + pending <? limit then 0
  else Z.max 1 (((admitted c + pending - limit) * period) / Z.max 1 limit).

#[export] Instance window_ctr_ops : FreqCtr window_ctr := {|
  freq_ctr_zero := {| admitted := 0 |};
  freq_ctr_overshoot_period := overshoot;
  freq_ctr_remain_period := remaining;
  update_freq_ctr_period := update;
  next_event_delay_period := next_event_delay
|}.

End WindowCtr.

(* ===================================================================== *)
(** * flt_weir.c *)
(* ===================================================================== *)

Module FltWeir.
Import RateLimit.

Definition USERMAP_CLEANUP_INTERVAL_MS : Z := 30000.
Definition USERMAP_CLEANUP_MIN_MS_SINCE_DISCONNECT : Z := 5000.
Definition DEFAULT_REFRESH_INTERVAL_MS : Z := 10000.
Definition DEFAULT_UNKNOWN_USER_LIMIT : Z := 10 * 1024 * 1024.
Definition DEFAULT_MINIMUM_BANDWIDTH_LIMIT : Z := 16 * 1024.

Inductive http_meth_t :=
| HTTP_METH_OPTIONS | HTTP_METH_GET | HTTP_METH_HEAD | HTTP_METH_POST
| HTTP_METH_PUT | HTTP_METH_DELETE | HTTP_METH_TRACE | HTTP_METH_CONNECT
| HTTP_METH_OTHER.

Definition method_name (method : http_meth_t) : string :=
  match method with
  | HTTP_METH_OPTIONS => "OPTIONS"
  | HTTP_METH_GET => "GET"
  | HTTP_METH_HEAD => "HEAD"
  | HTTP_METH_POST => "POST"
  | HTTP_METH_PUT => "PUT"
  | HTTP_METH_DELETE => "DELETE"
  | HTTP_METH_TRACE => "TRACE"
  | HTTP_METH_CONNECT => "CONNECT"
  | HTTP_METH_OTHER => "OTHER"
  end.

Definition verb_direction (method : http_meth_t) : DataDirection :=
  match method with
  | HTTP_METH_PUT | HTTP_METH_POST => RL_UPLOAD
  | _ => RL_DOWNLOAD
  end.

Definition direction_name (direction : DataDirection) : string :=
  match direction with
  | RL_UPLOAD => "up"
  | RL_DOWNLOAD => "dwn"
  end.

Section WithCounter.
Context {freq_ctr : Type} `{FreqCtr freq_ctr}.
Context {float : Type} `{CFloat float}.

Record user_direction_limit := {
  limit_received : bool;
  limit_timestamp : Z;           (* uint64_t *)
  bytes_per_second : Z;          (* uint *)
  counter : freq_ctr;
  active_requests : Z;           (* int *)
  next_throttle_log_tick : Z     (* unsigned int *)
}.

Record user_limit := {
  upload : user_direction_limit;
  download : user_direction_limit;
  last_request_end_tick : Z
}.

Record weir_filter_config := {
  user_limit_state : gmap string user_limit;
  next_cleanup_tick : Z;
  refresh_interval_ms : Z;
  unknown_user_limit : Z;
  minimum_limit : Z;
  instance_id : string
}.

Record weir_lim_state := {
  remote_addr : option sockaddr_in;
  limit_key : option string;
  request_class : option string;
  bandwidth_limit_direction : option string;
  next_allowed_send_tick : Z;
  enabled : bool;
  headers_processed : bool
}.

(** [pool_zalloc(pool_head_weir_user_limit)]. *)
Definition zero_direction_limit : user_direction_limit :=
  {| limit_received := false; limit_timestamp := 0; bytes_per_second := 0;
     counter := freq_ctr_zero; active_requests := 0; next_throttle_log_tick := 0 |}.

Definition zero_user_limit : user_limit :=
  {| upload := zero_direction_limit; download := zero_direction_limit;
     last_request_end_tick := 0 |}.

Definition set_user_limit_state (conf : weir_filter_config) (m : gmap string user_limit)
  : weir_filter_config :=
  {| user_limit_state := m;
     next_cleanup_tick := next_cleanup_tick conf;
     refresh_interval_ms := refresh_interval_ms conf;
     unknown_user_limit := unknown_user_limit conf;
     minimum_limit := minimum_limit conf;
     instance_id := instance_id conf |}.

(** The body of one direction's branch:
    [limit_received = true; if (timestamp >= limit_timestamp) { ... }]. *)
Definition store_share (d : user_direction_limit) (timestamp new_limit_share : Z)
  : user_direction_limit :=
  if limit_timestamp d <=? timestamp then
    {| limit_received := true; limit_timestamp := timestamp;
       bytes_per_second := new_limit_share;
       counter := counter d; active_requests := active_requests d;
       next_throttle_log_tick := next_throttle_log_tick d |}
  else
    {| limit_received := true; limit_timestamp := limit_timestamp d;
       bytes_per_second := bytes_per_second d;
       counter := counter d; active_requests := active_requests d;
       next_throttle_log_tick := next_throttle_log_tick d |}.

Inductive ingest_warning :=
| WarnClamped (user_key direction : string) (received : Z)
| WarnUnrecognisedDirection (direction : string).

Record ingest_result := {
  ingest_filter : option weir_filter_config;   (* g_filter afterwards *)
  ingest_return : Z;
  ingest_warnings : list ingest_warning
}.

Definition weir_ingest_limit_share_update (g_filter : option weir_filter_config)
    (timestamp : Z) (user_key instance : string) (direction : string)
    (new_limit_share : Z) : ingest_result :=
  match g_filter with
  | None => {| ingest_filter := None; ingest_return := 0; ingest_warnings := [] |}
  | Some conf =>
      if negb (String.eqb (instance_id conf) instance) then
        {| ingest_filter := g_filter; ingest_return := 0; ingest_warnings := [] |}
      else
        let user_limit :=
          match user_limit_state conf !! user_key with
          | None => zero_user_limit
          | Some ul => ul
          end in
        let clamped := UINT_MAX <? new_limit_share in
        let warn1 :=
          if clamped then [WarnClamped user_key direction new_limit_share] else [] in
        let new_limit_share := if clamped then UINT_MAX else new_limit_share in
        let '(user_limit, warn2) :=
          if String.eqb direction "up" then
            ({| upload := store_share (upload user_limit) timestamp new_limit_share;
                download := download user_limit;
                last_request_end_tick := last_request_end_tick user_limit |}, [])
          else if String.eqb direction "dwn" then
            ({| upload := upload user_limit;
                download := store_share (download user_limit) timestamp new_limit_share;
                last_request_end_tick := last_request_end_tick user_limit |}, [])
          else (user_limit, [WarnUnrecognisedDirection direction]) in
        {| ingest_filter :=
             Some (set_user_limit_state conf (<[user_key := user_limit]> (user_limit_state conf)));
           ingest_return := 1;
           ingest_warnings := warn1 ++ warn2 |}
  end.

Record apply_limit_result := {
  wait_ms : Z;            (* int *)
  bytes_to_forward : Z    (* int *)
}.

(** Returns the counter after the call and the result. *)
Definition apply_bandwidth_limit (ctr : freq_ctr) (limit requests bytes_available : Z)
  : freq_ctr * apply_limit_result :=
  let period_ms := 1000 in
  let max_wait_ms := 2 * period_ms in
  let overshoot_bytes := s32 (freq_ctr_overshoot_period ctr period_ms limit) in
  if 0 <? overshoot_bytes then
    let wait :=
      if 0 <? limit then
        s32 (MIN max_wait_ms
               (div64_32 (u64 (u64 (u64 overshoot_bytes * period_ms) * u64 requests)) limit))
      else s32 max_wait_ms in
    (ctr, {| wait_ms := wait; bytes_to_forward := 0 |})
  else
    let quota_bytes_remaining := u32 (freq_ctr_remain_period ctr period_ms limit 0) in
    let quota_bytes_remaining :=
      div64_32 (u32 (quota_bytes_remaining + requests - 1)) requests in
    let forward := s32 (MIN (u32 (s32 bytes_available)) quota_bytes_remaining) in
    let ctr' := update_freq_ctr_period ctr period_ms (u32 forward) in
    let wait :=
      if u32 forward <? bytes_available then
        s32 (MIN max_wait_ms (next_event_delay_period ctr' period_ms limit 0))
      else 0 in
    (ctr', {| wait_ms := wait; bytes_to_forward := forward |}).

Inductive filter_line :=
| LineThrottle (timestamp_usec : Z) (direction key : option string)
| LineDataXfer (l : data_xfer_line).

Definition set_next_allowed_send_tick (st : weir_lim_state) (tick : Z) : weir_lim_state :=
  {| remote_addr := remote_addr st; limit_key := limit_key st;
     request_class := request_class st;
     bandwidth_limit_direction := bandwidth_limit_direction st;
     next_allowed_send_tick := tick;
     enabled := enabled st; headers_processed := headers_processed st |}.

Definition set_next_throttle_log_tick (d : user_direction_limit) (tick : Z)
  : user_direction_limit :=
  {| limit_received := limit_received d; limit_timestamp := limit_timestamp d;
     bytes_per_second := bytes_per_second d; counter := counter d;
     active_requests := active_requests d; next_throttle_log_tick := tick |}.

Definition direction_limit (lim : user_limit) (direction : DataDirection)
  : user_direction_limit :=
  match direction with
  | RL_DOWNLOAD => download lim
  | RL_UPLOAD => upload lim
  end.

Definition set_direction_limit (lim : user_limit) (direction : DataDirection)
    (d : user_direction_limit) : user_limit :=
  match direction with
  | RL_DOWNLOAD =>
      {| upload := upload lim; download := d;
         last_request_end_tick := last_request_end_tick lim |}
  | RL_UPLOAD =>
      {| upload := d; download := download lim;
         last_request_end_tick := last_request_end_tick lim |}
  end.

(** What one call of [weir_http_payload] reads from its environment. *)
Record payload_env := {
  env_tables : tables float;        (* the throttle table *)
  env_now_ms : Z;                   (* now_ms *)
  env_current_time : timeval;       (* gettimeofday() in rl_speed_throttle *)
  env_random32 : Z;                 (* ha_random32() *)
  env_realtime_usec : Z             (* clock_gettime(CLOCK_REALTIME) in microseconds *)
}.

Record payload_result := {
  res_state : weir_lim_state;
  res_limit : option user_limit;    (* the record [st->limit] points to *)
  res_analyse_exp : Z;              (* msg->chn->analyse_exp *)
  res_bytes_to_forward : Z;         (* the return value *)
  res_lines : list filter_line      (* LOG_INFO lines, in order *)
}.

(** [None] is a failed [WEIR_BUG_ON], or the trap of
    [rl_speed_throttle]: the process is aborted.  [is_request] is
    [msg->chn == &s->req]; [limit] is the record [st->limit] points to. *)
Definition weir_http_payload (env : payload_env) (st : weir_lim_state)
    (limit : option user_limit) (is_request : bool) (analyse_exp : Z) (len : Z)
  : option payload_result :=
  let direction := if is_request then RL_UPLOAD else RL_DOWNLOAD in
  let now_ms := env_now_ms env in
  let finish (st : weir_lim_state) (limit : option user_limit) (bytes_to_forward : Z)
        (lines : list filter_line) :=
    Some {| res_state := st; res_limit := limit;
            res_analyse_exp :=
              tick_first (if tick_is_expired analyse_exp now_ms
                          then TICK_ETERNITY else analyse_exp)
                         (next_allowed_send_tick st);
            res_bytes_to_forward := bytes_to_forward;
            res_lines := lines |} in
  if negb (enabled st) then None
  else
    match remote_addr st with
    | None => finish st limit (s32 len) []
    | Some _ =>
        if (0 <? len)
           && (negb (tick_isset (next_allowed_send_tick st))
               || tick_is_expired (next_allowed_send_tick st) now_ms)
        then
          let st := set_next_allowed_send_tick st TICK_ETERNITY in
          match limit, bandwidth_limit_direction st with
          | Some lim, Some _ =>
              match rl_speed_throttle (env_tables env) (remote_addr st) direction
                      (env_current_time env) (env_random32 env) with
              | None => None
              | Some (RL_THROTTLE, _) =>
                  let next_throttle_log_tick :=
                    next_throttle_log_tick (direction_limit lim direction) in
                  let st := set_next_allowed_send_tick st (tick_add now_ms (MS_TO_TICKS 1)) in
                  if negb (tick_isset next_throttle_log_tick)
                     || tick_is_expired next_throttle_log_tick now_ms
                  then
                    let new_log_tick := tick_add now_ms (MS_TO_TICKS 1000) in
                    let lim :=
                      set_direction_limit lim direction
                        (set_next_throttle_log_tick (direction_limit lim direction)
                           new_log_tick) in
                    finish st (Some lim) 0
                      [LineThrottle (env_realtime_usec env)
                         (bandwidth_limit_direction st) (limit_key st)]
                  else finish st (Some lim) 0 []
              | Some (RL_NO_THROTTLE, _) =>
                  finish st (Some lim) (s32 len)
                    (match rl_data_transferred (env_tables env) (remote_addr st)
                             direction len with
                     | Some l => [LineDataXfer l]
                     | None => []
                     end)
              end
          | _, _ => None
          end
        else finish st limit 0 []
    end.

End WithCounter.

Arguments user_direction_limit freq_ctr : clear implicits.
Arguments user_limit freq_ctr : clear implicits.
Arguments weir_filter_config freq_ctr : clear implicits.
Arguments ingest_result freq_ctr : clear implicits.
Arguments payload_env float : clear implicits.
Arguments payload_result freq_ctr : clear implicits.

End FltWeir.

(* ===================================================================== *)
(** * stringsplit.cpp *)
(* ===================================================================== *)

(** [std::string] and [std::string_view] values are lists of characters. *)
Abbreviation string_view := (list ascii).

Definition sv (s : string) : string_view := list_ascii_of_string s.

Module StringSplit.

Fixpoint starts_with (d l : string_view) : bool :=
  match d, l with
  | [], _ => true
  | _ :: _, [] => false
  | a :: d', b :: l' => Ascii.eqb a b && starts_with d' l'
  end.

(** The offset of the first occurrence of [d] in [l]. *)
Fixpoint find_first (d l : string_view) : option nat :=
  if starts_with d l then Some 0%nat
  else match l with
       | [] => None
       | _ :: l' => S <$> find_first d l'
       end.

(** [input.find(d, pos)]; [None] is [npos]. *)
Definition find (input d : string_view) (pos : nat) : option nat :=
  if (pos <=? length input)%nat
  then (fun k => (pos + k)%nat) <$> find_first d (drop pos input)
  else None.

(** [input.substr(pos)] and [input.substr(pos, count)], for [pos] within
    the input (the only way [next] calls them). *)
Definition substr (input : string_view) (pos : nat) (count : option nat) : string_view :=
  match count with
  | None => drop pos input
  | Some n => take n (drop pos input)
  end.

Record t := {
  m_input : string_view;
  m_delimiter : string_view;
  m_index : nat;
  m_error : bool;
  m_eof : bool
}.

Definition make (input delimiter : string_view) : t :=
  {| m_input := input; m_delimiter := delimiter; m_index := 0;
     m_error := match delimiter with [] => true | _ => false end;
     m_eof := false |}.

Definition next (s : t) : string_view * t :=
  if m_error s then ([], s)
  else if m_eof s then
    ([], {| m_input := m_input s; m_delimiter := m_delimiter s; m_index := m_index s;
            m_error := true; m_eof := m_eof s |})
  else
    match m_input s with
    | [] =>
        ([], {| m_input := m_input s; m_delimiter := m_delimiter s; m_index := 1;
                m_error := m_error s; m_eof := true |})
    | _ :: _ =>
        match find (m_input s) (m_delimiter s) (m_index s) with
        | None =>
            (substr (m_input s) (m_index s) None,
             {| m_input := m_input s; m_delimiter := m_delimiter s;
                m_index := length (m_input s);
                m_error := m_error s; m_eof := true |})
        | Some next_index =>
            (substr (m_input s) (m_index s) (Some (next_index - m_index s)%nat),
             {| m_input := m_input s; m_delimiter := m_delimiter s;
                m_index := (next_index + length (m_delimiter s))%nat;
                m_error := m_error s; m_eof := m_eof s |})
        end
    end.

Definition finishedSuccessfully (s : t) : bool :=
  negb (m_error s) && (length (m_input s) <=? m_index s)%nat.

(** [n] successive calls of [next]: the views returned, in order, and the
    splitter afterwards. *)
Fixpoint nexts (n : nat) (s : t) : list string_view * t :=
  match n with
  | O => ([], s)
  | S n' =>
      let '(tok, s1) := next s in
      let '(toks, s2) := nexts n' s1 in
      (tok :: toks, s2)
  end.

(** The delimiter-separated fields of a line, cut at each occurrence of
    the delimiter found from left to right.  This definition is the
    reference the splitter is compared with; [fuel] bounds the number of
    cuts and [length l] is always enough. *)
Fixpoint fields_fuel (fuel : nat) (d l : string_view) : list string_view :=
  match fuel with
  | O => [l]
  | S fuel' =>
      match find_first d l with
      | None => [l]
      | Some k => take k l :: fields_fuel fuel' d (drop (k + length d) l)
      end
  end.

Definition delimited_fields (d l : string_view) : list string_view :=
  fields_fuel (length l) d l.

End StringSplit.

(* ===================================================================== *)
(** * msg_processor.cpp and the parts of redis_utils.cpp it calls *)
(* ===================================================================== *)

Module MsgProcessor.

Definition DELIMITER : string_view := sv "~|~".

(** [std::chrono::system_clock] time points are signed 64-bit tick counts
    since the Unix epoch; a tick is a nanosecond. *)
Definition TICKS_PER_SEC : Z := 1000000000.
Definition TICKS_PER_MSEC : Z := 1000000.

Definition DEFAULT_METRICS_BATCHING_COUNT : Z := 250000.
Definition DEFAULT_METRICS_BATCHING_MSEC_PERIOD : Z := 31.
Definition DEFAULT_REDIS_QOS_TTL : Z := 2.
Definition DEFAULT_REDIS_QOS_CONN_TTL : Z := 60.
Definition DEFAULT_CHECK_CONN_INTERVAL_SECS : Z := 5.

(** [std::isprint] in the "C" locale. *)
Definition isprint (c : ascii) : bool :=
  let n := nat_of_ascii c in (32 <=? n)%nat && (n <=? 126)%nat.

Definition isPrintableASCII (key : string_view) : bool := forallb isprint key.

(** [duration_cast<seconds>] rounds toward zero; the count is returned as
    [uint32_t]. *)
Definition getEpochSecs (time_point : Z) : Z := u32 (Z.quot time_point TICKS_PER_SEC).

Definition is_digit (c : ascii) : bool :=
  let n := nat_of_ascii c in (48 <=? n)%nat && (n <=? 57)%nat.

Fixpoint digits_prefix (l : string_view) : string_view :=
  match l with
  | c :: l' => if is_digit c then c :: digits_prefix l' else []
  | [] => []
  end.

Definition digits_value (ds : string_view) : Z :=
  fold_left (fun acc c => acc * 10 + (Z.of_nat (nat_of_ascii c) - 48)) ds 0.

(** [std::from_chars(first, last, int&)]: an optional minus sign and a
    non-empty run of decimal digits; what follows the digits is not
    looked at.  [None] stands for an error code ([invalid_argument] or
    [result_out_of_range]). *)
Definition from_chars_int (s : string_view) : option Z :=
  let '(negative, rest) :=
    match s with
    | c :: r => if Ascii.eqb c "-"%char then (true, r) else (false, s)
    | [] => (false, s)
    end in
  match digits_prefix rest with
  | [] => None
  | ds =>
      let v := if negative then - digits_value ds else digits_value ds in
      if (INT_MIN <=? v) && (v <=? INT_MAX) then Some v else None
  end.

(** Decimal formatting of an integer argument of [fmt::format]. *)
Definition dec (z : Z) : string_view := sv (pretty z).

(** ** RedisCmdKey *)

Record RedisCmdKey := {
  m_user : string_view;
  m_timestamp : Z;
  m_cat : string_view
}.

Definition sv_eqb (a b : string_view) : bool := bool_decide (a = b).

(** [RedisCmdKey::operator==]. *)
Definition RedisCmdKey_eqb (k other : RedisCmdKey) : bool :=
  sv_eqb (m_user k) (m_user other)
  && (getEpochSecs (m_timestamp k) =? getEpochSecs (m_timestamp other))
  && sv_eqb (m_cat k) (m_cat other).

Section Hash.
(** [std::hash<std::string>] and [std::hash<uint32_t>]; [size_t] has 64
    bits. *)
Variable hash_string : string_view -> Z.
Variable hash_uint32 : Z -> Z.

Definition RedisCmdKeyHash (k : RedisCmdKey) : Z :=
  let h1 := u64 (hash_string (m_user k)) in
  let h2 := u64 (hash_uint32 (getEpochSecs (m_timestamp k))) in
  let h3 := u64 (hash_string (m_cat k)) in
  Z.lxor (Z.lxor h1 (u64 (Z.shiftl h2 1))) (u64 (Z.shiftl h3 2)).
End Hash.

(** ** The command map

    [std::unordered_map<RedisCmdKey, int, RedisCmdKeyHash>]: a list of
    entries, no two of which have equal keys.  An entry keeps the key it
    was created with. *)
Definition QosRedisCommandMap := list (RedisCmdKey * Z).

(** [m[key] += delta].  The value is an [int]: a sum that leaves its range,
    which is undefined in C++, is stored as the build stores it, reduced to
    32 bits in two's complement. *)
Fixpoint cmd_map_add (key : RedisCmdKey) (delta : Z) (m : QosRedisCommandMap)
  : QosRedisCommandMap :=
  match m with
  | [] => [(key, s32 (0 + delta))]
  | (k, v) :: m' =>
      if RedisCmdKey_eqb k key then (k, s32 (v + delta)) :: m'
      else (k, v) :: cmd_map_add key delta m'
  end.

(** [m.find(key)]. *)
Fixpoint cmd_map_find (key : RedisCmdKey) (m : QosRedisCommandMap) : option (RedisCmdKey * Z) :=
  match m with
  | [] => None
  | (k, v) :: m' => if RedisCmdKey_eqb k key then Some (k, v) else cmd_map_find key m'
  end.

(** The counter under [key], 0 when there is no entry. *)
Definition cmd_map_count (key : RedisCmdKey) (m : QosRedisCommandMap) : Z :=
  match cmd_map_find key m with
  | Some (_, v) => v
  | None => 0
  end.

(** ** RedisServerConnection (redis_utils.cpp) *)

Inductive RedisConnectionState := DISCONNECTING | DISCONNECTED | CONNECTING | CONNECTED.

Record RedisServerConnection := {
  m_connection_status : RedisConnectionState;
  m_total_sent_cnt : Z;
  m_total_conns_requested : Z;
  m_total_conns_made : Z;
  m_total_conns_failed : Z;
  (* the commands handed to redisAsyncCommand, oldest first *)
  commands_submitted : list string_view
}.

(** What the network interface does during one [connect()]. *)
Inductive net_outcome :=
| NetContextNull        (* redisAsyncConnect returns a null context *)
| NetContextError       (* the context carries an error *)
| NetAttachFails        (* redisLibevAttach fails: connect() throws *)
| NetAttached.

Definition connected (c : RedisServerConnection) : bool :=
  match m_connection_status c with CONNECTED => true | _ => false end.

(** [None] is the [std::runtime_error] thrown when attaching fails. *)
Definition connect (c : RedisServerConnection) (net : net_outcome)
  : option RedisServerConnection :=
  let requested := m_total_conns_requested c + 1 in
  match m_connection_status c with
  | CONNECTING | CONNECTED | DISCONNECTING =>
      Some {| m_connection_status := m_connection_status c;
              m_total_sent_cnt := m_total_sent_cnt c;
              m_total_conns_requested := requested;
              m_total_conns_made := m_total_conns_made c;
              m_total_conns_failed := m_total_conns_failed c;
              commands_submitted := commands_submitted c |}
  | DISCONNECTED =>
      let made := m_total_conns_made c + 1 in
      match net with
      | NetContextNull =>
          Some {| m_connection_status := DISCONNECTED;
                  m_total_sent_cnt := m_total_sent_cnt c;
                  m_total_conns_requested := requested;
                  m_total_conns_made := made;
                  m_total_conns_failed := m_total_conns_failed c;
                  commands_submitted := commands_submitted c |}
      | NetContextError =>
          Some {| m_connection_status := DISCONNECTED;
                  m_total_sent_cnt := m_total_sent_cnt c;
                  m_total_conns_requested := requested;
                  m_total_conns_made := made;
                  m_total_conns_failed := m_total_conns_failed c + 1;
                  commands_submitted := commands_submitted c |}
      | NetAttachFails => None
      | NetAttached =>
          Some {| m_connection_status := CONNECTING;
                  m_total_sent_cnt := m_total_sent_cnt c;
                  m_total_conns_requested := requested;
                  m_total_conns_made := made;
                  m_total_conns_failed := m_total_conns_failed c;
                  commands_submitted := commands_submitted c |}
      end
  end.

Definition addCommand (c : RedisServerConnection) (cmd : string_view) : RedisServerConnection :=
  {| m_connection_status := m_connection_status c;
     m_total_sent_cnt := m_total_sent_cnt c + 1;
     m_total_conns_requested := m_total_conns_requested c;
     m_total_conns_made := m_total_conns_made c;
     m_total_conns_failed := m_total_conns_failed c;
     commands_submitted := commands_submitted c ++ [cmd] |}.

(** ** Processor *)

(** The lines written with [m_logger->error]. *)
Inductive error_line :=
| ErrRequestFormat (raw_input : string_view)
| ErrActiveRequestFormat (raw_input : string_view)
| ErrInvalidAccessKey (key : string_view)
| ErrDataXferFormat (raw_input : string_view)
| ErrActiveRequestsFormat (raw_input : string_view)
| ErrRequestEndFormat (raw_input : string_view).

Record Processor := {
  m_endpoint : string_view;
  m_qos_redis_commands : QosRedisCommandMap;
  m_qos_redis_active_reqs : gmap string_view Z;
  m_qos_redis_conn : RedisServerConnection;
  m_redis_qos_ttl : Z;                    (* int, seconds *)
  m_redis_qos_conn_ttl : Z;               (* int, seconds *)
  m_check_conn_interval : Z;              (* std::chrono::seconds *)
  m_last_redis_connect_time : Z;          (* time_point *)
  m_last_redis_flush_time : Z;            (* time_point *)
  m_qos_not_send_count : Z;               (* int *)
  m_processor_batch_count : Z;            (* int *)
  m_processor_batch_flush_period : Z;     (* std::chrono::milliseconds *)
  m_error_lines : list error_line         (* oldest first *)
}.

(** The processor with its mutable members replaced. *)
Definition update (p : Processor) (commands : QosRedisCommandMap)
    (active_reqs : gmap string_view Z) (conn : RedisServerConnection)
    (last_connect last_flush not_send_count : Z) (errors : list error_line) : Processor :=
  {| m_endpoint := m_endpoint p;
     m_qos_redis_commands := commands;
     m_qos_redis_active_reqs := active_reqs;
     m_qos_redis_conn := conn;
     m_redis_qos_ttl := m_redis_qos_ttl p;
     m_redis_qos_conn_ttl := m_redis_qos_conn_ttl p;
     m_check_conn_interval := m_check_conn_interval p;
     m_last_redis_connect_time := last_connect;
     m_last_redis_flush_time := last_flush;
     m_qos_not_send_count := not_send_count;
     m_processor_batch_count := m_processor_batch_count p;
     m_processor_batch_flush_period := m_processor_batch_flush_period p;
     m_error_lines := errors |}.

Definition log_error (p : Processor) (e : error_line) : Processor :=
  update p (m_qos_redis_commands p) (m_qos_redis_active_reqs p) (m_qos_redis_conn p)
    (m_last_redis_connect_time p) (m_last_redis_flush_time p) (m_qos_not_send_count p)
    (m_error_lines p ++ [e]).

(** The commands, the gauges and the pending count after an event. *)
Definition record_event (p : Processor) (commands : QosRedisCommandMap)
    (active_reqs : gmap string_view Z) : Processor :=
  update p commands active_reqs (m_qos_redis_conn p)
    (m_last_redis_connect_time p) (m_last_redis_flush_time p) (m_qos_not_send_count p + 1)
    (m_error_lines p).

Definition conn_key (p : Processor) (direction instance_id user_key : string_view)
  : string_view :=
  sv "conn_v2_user_" ++ direction ++ sv "_" ++ instance_id ++ sv "_" ++ user_key
    ++ sv "$" ++ m_endpoint p.

Definition token (tokens : list string_view) (i : nat) : string_view :=
  nth i tokens [].

(** [now_class] and [now_verb] are the values of the two [m_time.now()]
    calls, in the order in which the source makes them. *)
Definition processReq (p : Processor) (now_class now_verb : Z) (raw_input : string_view)
  : Processor :=
  let '(tokens, split) := StringSplit.nexts 8 (StringSplit.make raw_input DELIMITER) in
  if negb (StringSplit.finishedSuccessfully split) then
    log_error p (ErrRequestFormat raw_input)
  else
    match from_chars_int (token tokens 6) with
    | None => log_error p (ErrActiveRequestFormat raw_input)
    | Some active_requests =>
        let user_key := token tokens 2 in
        if negb (isPrintableASCII user_key) then log_error p (ErrInvalidAccessKey user_key)
        else
          let verb := token tokens 3 in
          let direction := token tokens 4 in
          let instance_id := token tokens 5 in
          let request_class := token tokens 7 in
          let cmd_key := sv "user_" ++ user_key in
          let commands := m_qos_redis_commands p in
          let commands :=
            if (0 <? length request_class)%nat then
              cmd_map_add {| m_user := cmd_key; m_timestamp := now_class;
                             m_cat := request_class |} 1 commands
            else commands in
          let commands :=
            cmd_map_add {| m_user := cmd_key; m_timestamp := now_verb; m_cat := verb |}
              1 commands in
          record_event p commands
            (<[conn_key p direction instance_id user_key := active_requests]>
               (m_qos_redis_active_reqs p))
    end.

Definition processDataXfer (p : Processor) (now : Z) (raw_input : string_view) : Processor :=
  let '(tokens, split) := StringSplit.nexts 5 (StringSplit.make raw_input DELIMITER) in
  let user := token tokens 2 in
  let direction := token tokens 3 in
  let len_str := token tokens 4 in
  match StringSplit.finishedSuccessfully split, from_chars_int len_str with
  | true, Some len =>
      if negb (isPrintableASCII user) then log_error p (ErrInvalidAccessKey user)
      else
        match user with
        | [] => p
        | _ :: _ =>
            let direction_key := sv "bnd_" ++ direction in
            let cmd_key := sv "user_" ++ user in
            record_event p
              (cmd_map_add {| m_user := cmd_key; m_timestamp := now; m_cat := direction_key |}
                 len (m_qos_redis_commands p))
              (m_qos_redis_active_reqs p)
        end
  | _, _ => log_error p (ErrDataXferFormat raw_input)
  end.

Definition processActiveRequests (p : Processor) (raw_input : string_view) : Processor :=
  let '(tokens, split) := StringSplit.nexts 5 (StringSplit.make raw_input DELIMITER) in
  let instance_id := token tokens 1 in
  let user_key := token tokens 2 in
  let direction := token tokens 3 in
  match StringSplit.finishedSuccessfully split, from_chars_int (token tokens 4) with
  | true, Some active_requests =>
      record_event p (m_qos_redis_commands p)
        (<[conn_key p direction instance_id user_key := active_requests]>
           (m_qos_redis_active_reqs p))
  | _, _ => log_error p (ErrActiveRequestsFormat raw_input)
  end.

Definition processReqEnd (p : Processor) (raw_input : string_view) : Processor :=
  let '(tokens, split) := StringSplit.nexts 7 (StringSplit.make raw_input DELIMITER) in
  let user_key := token tokens 2 in
  let direction := token tokens 4 in
  let instance_id := token tokens 5 in
  match StringSplit.finishedSuccessfully split, from_chars_int (token tokens 6) with
  | true, Some active_requests =>
      record_event p (m_qos_redis_commands p)
        (<[conn_key p direction instance_id user_key := active_requests]>
           (m_qos_redis_active_reqs p))
  | _, _ => log_error p (ErrRequestEndFormat raw_input)
  end.

(** The loop over [m_qos_redis_commands] in the connected branch;
    [keys_found] is the [unordered_set] of composite keys seen so far. *)
Fixpoint submit_commands (p : Processor) (m : QosRedisCommandMap)
    (keys_found : list string_view) (conn : RedisServerConnection) : RedisServerConnection :=
  match m with
  | [] => conn
  | (key, val) :: m' =>
      let ss_key :=
        sv "verb_" ++ dec (getEpochSecs (m_timestamp key)) ++ sv "_" ++ m_user key
          ++ sv "$" ++ m_endpoint p in
      let conn :=
        addCommand conn (sv "hincrby " ++ ss_key ++ sv " " ++ m_cat key ++ sv " " ++ dec val) in
      if bool_decide (ss_key ∈ keys_found) then submit_commands p m' keys_found conn
      else
        submit_commands p m' (ss_key :: keys_found)
          (addCommand conn (sv "expire " ++ ss_key ++ sv " " ++ dec (m_redis_qos_ttl p)))
  end.

Definition submit_active_reqs (p : Processor) (reqs : list (string_view * Z))
    (conn : RedisServerConnection) : RedisServerConnection :=
  fold_left
    (fun conn kv =>
       addCommand conn
         (sv "set " ++ kv.1 ++ sv " " ++ dec kv.2 ++ sv " ex " ++ dec (m_redis_qos_conn_ttl p)))
    reqs conn.

(** [kvp.first.m_timestamp < cutoff_timestamp]. *)
Definition is_timestamp_before_cutoff (cutoff_timestamp : Z) (kvp : RedisCmdKey * Z) : bool :=
  m_timestamp kvp.1 <? cutoff_timestamp.

(** [now], [mono_now] and [cutoff_now] are the values of the three
    [m_time.now()] calls, in source order; [net] is what the network does
    if [connect()] is reached.  [None] is the exception of [connect()]. *)
Definition sendToRedisQos (p : Processor) (now mono_now cutoff_now : Z) (net : net_outcome)
  : option Processor :=
  let flush_for_time :=
    m_processor_batch_flush_period p * TICKS_PER_MSEC <? now - m_last_redis_flush_time p in
  let flush_for_msg_count := m_processor_batch_count p <=? m_qos_not_send_count p in
  if negb flush_for_time && negb flush_for_msg_count then Some p
  else
    if negb (connected (m_qos_redis_conn p)) then
      let since_connect := mono_now - m_last_redis_connect_time p in
      let reconnect :=
        if m_check_conn_interval p * TICKS_PER_SEC <? since_connect
        then option_map (fun c => (mono_now, c)) (connect (m_qos_redis_conn p) net)
        else Some (m_last_redis_connect_time p, m_qos_redis_conn p) in
      match reconnect with
      | None => None
      | Some (last_connect, conn) =>
          let cutoff_timestamp := cutoff_now - m_redis_qos_ttl p * TICKS_PER_SEC in
          Some (update p
                  (List.filter (fun kvp => negb (is_timestamp_before_cutoff cutoff_timestamp kvp))
                     (m_qos_redis_commands p))
                  ∅ conn last_connect now 0 (m_error_lines p))
      end
    else
      let conn := submit_commands p (m_qos_redis_commands p) [] (m_qos_redis_conn p) in
      let conn := submit_active_reqs p (map_to_list (m_qos_redis_active_reqs p)) conn in
      Some (update p [] ∅ conn (m_last_redis_connect_time p) now 0 (m_error_lines p)).

(** The dispatch on the line prefix in [messageConsumerThread]. *)
Definition consume (p : Processor) (now_class now_verb : Z) (buffer : string_view) : Processor :=
  if StringSplit.starts_with (sv "req~|~") buffer then processReq p now_class now_verb buffer
  else if StringSplit.starts_with (sv "data_xfer~|~") buffer then processDataXfer p now_verb buffer
  else if StringSplit.starts_with (sv "active_reqs~|~") buffer then processActiveRequests p buffer
  else if StringSplit.starts_with (sv "req_end~|~") buffer then processReqEnd p buffer
  else p.

End MsgProcessor.

(* ===================================================================== *)
(** * flt_weir.c: the request hooks *)
(* ===================================================================== *)

(** The hooks that start and end a request.  [st->limit] is a pointer to
    the record stored in [conf->user_limit_state]; it is modelled by the
    key of that entry ([None] for the null pointer), and following it is a
    lookup in the table.  A pointer whose entry has been freed has no entry
    to be looked up, and the hook that follows it has no result. *)
Module FltWeirHooks.
Import RateLimit FltWeir.

(** [rule->from]. *)
Inductive act_from := ACT_F_HTTP_REQ | ACT_F_HTTP_RES | ACT_F_OTHER.

Inductive enable_warning :=
| WarnActivatedTwice
| WarnUnexpectedDirection (direction : string).

(** [req~|~ip:port~|~key~|~verb~|~direction~|~instance~|~active~|~class]. *)
Record req_line := {
  req_addr : sockaddr_in;
  req_key : string;
  req_method : http_meth_t;
  req_direction : string;
  req_instance : string;
  req_active_requests : Z;
  req_class : string
}.

(** [req_end~|~ip:port~|~key~|~verb~|~direction~|~instance~|~active]. *)
Record req_end_line := {
  end_addr : sockaddr_in;
  end_key : string;
  end_method : http_meth_t;
  end_direction : string;
  end_instance : string;
  end_active_requests : Z
}.


Definition set_enabled (st : weir_lim_state) (v : bool) : weir_lim_state :=
  {| remote_addr := remote_addr st; limit_key := limit_key st;
     request_class := request_class st;
     bandwidth_limit_direction := bandwidth_limit_direction st;
     next_allowed_send_tick := next_allowed_send_tick st;
     enabled := v; headers_processed := headers_processed st |}.

Definition set_headers_processed (st : weir_lim_state) (v : bool) : weir_lim_state :=
  {| remote_addr := remote_addr st; limit_key := limit_key st;
     request_class := request_class st;
     bandwidth_limit_direction := bandwidth_limit_direction st;
     next_allowed_send_tick := next_allowed_send_tick st;
     enabled := enabled st; headers_processed := v |}.

(** The three [ha_free; strdup] assignments of [weir_enable_filter]; a
    sample that is not configured or not fetched leaves the field as it
    is. *)
Definition store_samples (st : weir_lim_state)
    (user_key operation_class operation_direction : option string) : weir_lim_state :=
  {| remote_addr := remote_addr st;
     limit_key := match user_key with Some k => Some k | None => limit_key st end;
     request_class :=
       match operation_class with Some c => Some c | None => request_class st end;
     bandwidth_limit_direction :=
       match operation_direction with
       | Some d => Some d
       | None => bandwidth_limit_direction st
       end;
     next_allowed_send_tick := next_allowed_send_tick st;
     enabled := enabled st; headers_processed := headers_processed st |}.

Section WithCounter.
Context {freq_ctr : Type} `{FreqCtr freq_ctr}.
Context {float : Type} `{CFloat float}.

Definition set_active_requests (d : user_direction_limit freq_ctr) (v : Z)
  : user_direction_limit freq_ctr :=
  {| limit_received := limit_received d; limit_timestamp := limit_timestamp d;
     bytes_per_second := bytes_per_second d; counter := counter d;
     active_requests := v; next_throttle_log_tick := next_throttle_log_tick d |}.

(** [active_requests += delta] in the direction of the request. *)
Definition add_active_requests (lim : user_limit freq_ctr) (direction : DataDirection)
    (delta : Z) : user_limit freq_ctr :=
  set_direction_limit lim direction
    (set_active_requests (direction_limit lim direction)
       (active_requests (direction_limit lim direction) + delta)).

Definition set_last_request_end_tick (lim : user_limit freq_ctr) (tick : Z)
  : user_limit freq_ctr :=
  {| upload := upload lim; download := download lim; last_request_end_tick := tick |}.

(** The test under which the clean-up loop of [weir_enable_filter] frees
    an entry. *)
Definition user_expired (now_ms : Z) (user_limits : user_limit freq_ctr) : bool :=
  (active_requests (download user_limits) <=? 0)
  && (active_requests (upload user_limits) <=? 0)
  && tick_is_expired
       (tick_add (last_request_end_tick user_limits) USERMAP_CLEANUP_MIN_MS_SINCE_DISCONNECT)
       now_ms.

Definition cleanup_user_limits (now_ms : Z) (m : gmap string (user_limit freq_ctr))
  : gmap string (user_limit freq_ctr) :=
  filter (fun kv : string * user_limit freq_ctr => user_expired now_ms kv.2 = false) m.

Record enable_result := {
  en_conf : weir_filter_config freq_ctr;
  en_state : weir_lim_state;
  en_limit : option string;          (* the entry [st->limit] points to *)
  en_registered : bool;              (* register_data_filter was called *)
  en_warnings : list enable_warning
}.

(** The body of [weir_enable_filter] for a stream that carries the weir
    filter: [st] is its context and [conf] its configuration (without
    one the action returns at once).  The three samples are [Some] when
    the expression is configured and evaluates to a string.  [None] is a
    failed [WEIR_BUG_ON]. *)
Definition weir_enable_filter (conf : weir_filter_config freq_ctr) (st : weir_lim_state)
    (limit : option string) (from : act_from) (meth : http_meth_t) (now_ms : Z)
    (user_key operation_class operation_direction : option string)
  : option enable_result :=
  let unchanged (warnings : list enable_warning) :=
    Some {| en_conf := conf; en_state := st; en_limit := limit;
            en_registered := false; en_warnings := warnings |} in
  match from with
  | ACT_F_OTHER => unchanged []
  | ACT_F_HTTP_REQ | ACT_F_HTTP_RES =>
      if enabled st then unchanged [WarnActivatedTwice]
      else
        let st :=
          store_samples (set_enabled st true) user_key operation_class operation_direction in
        let unexpected :=
          match operation_direction with
          | Some d => negb (String.eqb d "up") && negb (String.eqb d "dwn")
          | None => false
          end in
        if unexpected then
          Some {| en_conf := conf; en_state := st; en_limit := limit;
                  en_registered := false;
                  en_warnings :=
                    match operation_direction with
                    | Some d => [WarnUnexpectedDirection d]
                    | None => []
                    end |}
        else
          match limit_key st with
          | None => None
          | Some key =>
              let user_limits :=
                match user_limit_state conf !! key with
                | None => zero_user_limit
                | Some ul => ul
                end in
              let user_limits := add_active_requests user_limits (verb_direction meth) 1 in
              let table := <[key := user_limits]> (user_limit_state conf) in
              let cleanup := tick_is_expired (next_cleanup_tick conf) now_ms in
              Some {| en_conf :=
                        {| user_limit_state :=
                             if cleanup then cleanup_user_limits now_ms table else table;
                           next_cleanup_tick :=
                             if cleanup
                             then s32 (tick_add now_ms (MS_TO_TICKS USERMAP_CLEANUP_INTERVAL_MS))
                             else next_cleanup_tick conf;
                           refresh_interval_ms := refresh_interval_ms conf;
                           unknown_user_limit := unknown_user_limit conf;
                           minimum_limit := minimum_limit conf;
                           instance_id := instance_id conf |};
                      en_state := st; en_limit := Some key;
                      en_registered := true; en_warnings := [] |}
          end
  end.

Record headers_result := {
  hd_state : weir_lim_state;
  hd_analyse_exp : Z;                (* msg->chn->analyse_exp *)
  hd_lines : list req_line
}.

(** [txn] is the method of [s->txn], [None] when [s->txn] is null;
    [is_request] is [msg->chn == &s->req].  [None] is a failed
    [WEIR_BUG_ON]. *)
Definition weir_http_headers (conf : weir_filter_config freq_ctr) (st : weir_lim_state)
    (limit : option string) (is_request : bool) (txn : option http_meth_t)
  : option headers_result :=
  let finish (st : weir_lim_state) (lines : list req_line) :=
    Some {| hd_state := st; hd_analyse_exp := TICK_ETERNITY; hd_lines := lines |} in
  match txn, remote_addr st with
  | Some meth, Some addr =>
      if enabled st && is_request then
        let st := set_headers_processed st true in
        match limit with
        | None => None
        | Some entry =>
            match user_limit_state conf !! entry with
            | None => None
            | Some lim =>
                let active := active_requests (direction_limit lim (verb_direction meth)) in
                match limit_key st, bandwidth_limit_direction st with
                | Some key, Some direction =>
                    finish st
                      [{| req_addr := addr; req_key := key; req_method := meth;
                          req_direction := direction; req_instance := instance_id conf;
                          req_active_requests := active;
                          req_class :=
                            match request_class st with Some c => c | None => "" end |}]
                | _, _ => None
                end
            end
        end
      else finish st []
  | _, _ => finish st []
  end.

Record detach_result := {
  dt_conf : weir_filter_config freq_ctr;
  dt_tables : tables float;          (* the tables of rate_limit.c *)
  dt_lines : list req_end_line
}.

(** The body of [weir_detach] for a filter that has a context.  [None]
    is a failed [WEIR_BUG_ON]. *)
Definition weir_detach (conf : weir_filter_config freq_ctr) (t : tables float)
    (st : weir_lim_state) (limit : option string) (txn : option http_meth_t) (now_ms : Z)
  : option detach_result :=
  let unchanged := Some {| dt_conf := conf; dt_tables := t; dt_lines := [] |} in
  match txn, remote_addr st with
  | Some meth, Some addr =>
      if enabled st && headers_processed st then
        match limit, limit_key st, bandwidth_limit_direction st with
        | Some entry, Some key, Some direction =>
            match user_limit_state conf !! entry with
            | None => None
            | Some lim =>
                let lim := set_last_request_end_tick lim (u32 now_ms) in
                let lim := add_active_requests lim (verb_direction meth) (-1) in
                let active := active_requests (direction_limit lim (verb_direction meth)) in
                Some {| dt_conf :=
                          set_user_limit_state conf (<[entry := lim]> (user_limit_state conf));
                        dt_tables := rl_request_end t (remote_addr st);
                        dt_lines :=
                          [{| end_addr := addr; end_key := key; end_method := meth;
                              end_direction := direction; end_instance := instance_id conf;
                              end_active_requests := active |}] |}
            end
        | _, _, _ => None
        end
      else unchanged
  | _, _ => unchanged
  end.



End WithCounter.

Arguments enable_result freq_ctr : clear implicits.
Arguments detach_result freq_ctr float : clear implicits.

(** The identifier built by [parse_weir_flt]:
    [snprintf(instance_id, capacity, "%s-%d", localpeer, port)] followed by
    the loop that turns every underscore into a dash.  [capacity] is
    [sizeof(conf->instance_id)], whose value depends on HAProxy's
    [MAX_HOSTNAME_LEN]. *)
Definition make_instance_id (capacity : nat) (localpeer : string_view) (port : Z)
  : string_view :=
  map (fun c : ascii => if Ascii.eqb c "_" then "-"%char else c)
      (take (capacity - 1) (localpeer ++ sv "-" ++ MsgProcessor.dec port)).

End FltWeirHooks.

(* ===================================================================== *)
(** * The text of the event lines *)
(* ===================================================================== *)

(** The arguments of [send_log] after formatting: what the filter hands
    to the log socket and the aggregator receives. *)
Module LogLines.
Import RateLimit FltWeir FltWeirHooks.

(** [LOG_DELIMITER] of rate_limit.c, which is also the separator written
    in the format strings of flt_weir.c. *)
Definition LOG_DELIMITER : string_view := sv "~|~".

(** [%d], [%u] and [%lld]. *)
Definition decimal (z : Z) : string_view := MsgProcessor.dec z.

(** [inet_ntoa]: the four bytes of the address, most significant first. *)
Definition inet_ntoa (s_addr : Z) : string_view :=
  decimal (u32 s_addr / 2 ^ 24) ++ sv "."
    ++ decimal (u32 s_addr / 2 ^ 16 mod 256) ++ sv "."
    ++ decimal (u32 s_addr / 2 ^ 8 mod 256) ++ sv "."
    ++ decimal (u32 s_addr mod 256).

(** ["%s:%d"] of [inet_ntoa(sin_addr)] and [ntohs(sin_port)]. *)
Definition source (a : sockaddr_in) : string_view :=
  inet_ntoa (sin_addr a) ++ sv ":" ++ decimal (u16 (sin_port a)).

Definition data_xfer_text (l : data_xfer_line) : string_view :=
  sv "data_xfer" ++ LOG_DELIMITER ++ source (xfer_addr l)
    ++ LOG_DELIMITER ++ sv (xfer_key l)
    ++ LOG_DELIMITER ++ sv (xfer_direction l)
    ++ LOG_DELIMITER ++ decimal (xfer_done l).

Definition req_text (l : req_line) : string_view :=
  sv "req" ++ LOG_DELIMITER ++ source (req_addr l)
    ++ LOG_DELIMITER ++ sv (req_key l)
    ++ LOG_DELIMITER ++ sv (method_name (req_method l))
    ++ LOG_DELIMITER ++ sv (req_direction l)
    ++ LOG_DELIMITER ++ sv (req_instance l)
    ++ LOG_DELIMITER ++ decimal (req_active_requests l)
    ++ LOG_DELIMITER ++ sv (req_class l).



End LogLines.

(* ===================================================================== *)
(** * syslog_server.cpp and the constructor of Processor *)
(* ===================================================================== *)

Module SyslogServer.
Import StringSplit MsgProcessor.

(** [RawEvents]. *)
Definition reqStart : string_view := sv "req~|~".
Definition reqEnd : string_view := sv "req_end~|~".
Definition dataXfer : string_view := sv "data_xfer~|~".
Definition activeReqs : string_view := sv "active_reqs~|~".

Definition MAX_UDP_RECV_BUFFER_SIZE : Z := 64 * 1024 * 1024.

(** [size_t] has 64 bits. *)
Definition getDesiredUdpRecvBufSize (rmem_max : Z) : Z := u64 (rmem_max * 2).

Definition newline : ascii := ascii_of_nat 10.

(** [while (!buf_view.empty() && buf_view.back() == '\n') remove_suffix(1)]. *)
Fixpoint strip_trailing_newlines (buf_view : string_view) : string_view :=
  match buf_view with
  | [] => []
  | c :: rest =>
      match strip_trailing_newlines rest with
      | [] => if Ascii.eqb c newline then [] else [c]
      | kept => c :: kept
      end
  end.

(** The chain of [buf_view.find] calls: the first marker that occurs
    anywhere in the datagram, tried in the order of the source. *)
Definition event_position (buf_view : string_view) : option nat :=
  match find buf_view reqStart 0 with
  | Some pos => Some pos
  | None =>
      match find buf_view reqEnd 0 with
      | Some pos => Some pos
      | None =>
          match find buf_view dataXfer 0 with
          | Some pos => Some pos
          | None =>
              match find buf_view activeReqs 0 with
              | Some pos => Some pos
              | None => find buf_view reqEnd 0
              end
          end
      end
  end.

(** What one iteration of the loop of [msgProducerThread] does with a
    datagram. *)
Inductive routed :=
| Skipped                                (* recv_len == 0 *)
| TooBig (buf_view : string_view)        (* logged as an error and dropped *)
| Enqueue (data_start : string_view)     (* offered to the message queue *)
| AccessLog (buf_view : string_view)
| ServerLog (buf_view : string_view)
| EmptyView.                             (* buf_view[0] read on an empty view *)

Definition route (buf_view : string_view) : routed :=
  let buf_view := strip_trailing_newlines buf_view in
  match event_position buf_view with
  | Some pos => Enqueue (substr buf_view pos None)
  | None =>
      match buf_view with
      | [] => EmptyView
      | c :: _ => if Ascii.eqb c "{" then AccessLog buf_view else ServerLog buf_view
      end
  end.

(** [datagram] is the datagram on the socket and [buffer_len] the length
    passed to [recvfrom], which keeps the first [buffer_len] bytes. *)
Definition receive (buffer_len : nat) (datagram : string_view) : routed :=
  let received := take buffer_len datagram in
  if (length received =? 0)%nat then Skipped
  else if (length received =? buffer_len)%nat then TooBig received
  else route received.

(** The parsing of the [redis_server] setting in the constructor of
    [Processor]; [None] is the [std::runtime_error] thrown. *)
Definition parse_redis_server (redis_server_str : string_view) : option (string_view * Z) :=
  let '(tokens, split) := nexts 2 (make redis_server_str (sv ":")) in
  let redis_host := token tokens 0 in
  let redis_port_str := token tokens 1 in
  match finishedSuccessfully split, from_chars_int redis_port_str with
  | true, Some redis_port => Some (redis_host, redis_port)
  | _, _ => None
  end.

End SyslogServer.

(* ===================================================================== *)
(** * redis_utils.cpp: the life of a connection *)
(* ===================================================================== *)

(** [MsgProcessor.RedisServerConnection] holds the members that the flush
    reads and writes.  The reconnect logic uses the members below as
    well. *)
Module RedisUtils.
Import MsgProcessor.

Record connection := {
  members : RedisServerConnection;
  m_async_context : bool;            (* m_async_context != nullptr *)
  m_needs_reconnect : bool;
  m_redis_ip : string_view;
  m_total_conns_success : Z;
  m_total_conn_drops : Z;
  m_total_reconnects : Z
}.

Definition status (c : connection) : RedisConnectionState :=
  m_connection_status (members c).

(** The constructor. *)
Definition new_connection : connection :=
  {| members :=
       {| m_connection_status := DISCONNECTED; m_total_sent_cnt := 0;
          m_total_conns_requested := 0; m_total_conns_made := 0;
          m_total_conns_failed := 0; commands_submitted := [] |};
     m_async_context := false; m_needs_reconnect := false; m_redis_ip := [];
     m_total_conns_success := 0; m_total_conn_drops := 0; m_total_reconnects := 0 |}.

Definition set_status (m : RedisServerConnection) (s : RedisConnectionState)
  : RedisServerConnection :=
  {| m_connection_status := s;
     m_total_sent_cnt := m_total_sent_cnt m;
     m_total_conns_requested := m_total_conns_requested m;
     m_total_conns_made := m_total_conns_made m;
     m_total_conns_failed := m_total_conns_failed m;
     commands_submitted := commands_submitted m |}.

Definition count_failure (m : RedisServerConnection) : RedisServerConnection :=
  {| m_connection_status := m_connection_status m;
     m_total_sent_cnt := m_total_sent_cnt m;
     m_total_conns_requested := m_total_conns_requested m;
     m_total_conns_made := m_total_conns_made m;
     m_total_conns_failed := m_total_conns_failed m + 1;
     commands_submitted := commands_submitted m |}.

(** How a call of [connect()] ends.  Nothing catches the exception in
    the thread that calls it. *)
Inductive returned :=
| Returns (c : connection)
| Throws                 (* std::runtime_error *)
| AssertionFails.        (* assert(m_async_context == nullptr) *)

(** [connect()], with the context pointer: the counters and the state
    are those of [MsgProcessor.connect]. *)
Definition connect (c : connection) (net : net_outcome) : returned :=
  match status c with
  | DISCONNECTED =>
      if m_async_context c then AssertionFails
      else
        match MsgProcessor.connect (members c) net with
        | None => Throws
        | Some m =>
            Returns {| members := m;
                       m_async_context :=
                         match net with NetAttached => true | _ => false end;
                       m_needs_reconnect := m_needs_reconnect c;
                       m_redis_ip := m_redis_ip c;
                       m_total_conns_success := m_total_conns_success c;
                       m_total_conn_drops := m_total_conn_drops c;
                       m_total_reconnects := m_total_reconnects c |}
        end
  | CONNECTING | CONNECTED | DISCONNECTING =>
      match MsgProcessor.connect (members c) net with
      | None => Throws
      | Some m =>
          Returns {| members := m;
                     m_async_context := m_async_context c;
                     m_needs_reconnect := m_needs_reconnect c;
                     m_redis_ip := m_redis_ip c;
                     m_total_conns_success := m_total_conns_success c;
                     m_total_conn_drops := m_total_conn_drops c;
                     m_total_reconnects := m_total_reconnects c |}
      end
  end.

(** [status_ok] is [status == REDIS_OK]; [saddr_ip] is the text of the
    address the context is connected to. *)
Definition connectCallback (c : connection) (status_ok : bool) (saddr_ip : string_view)
  : connection :=
  if negb status_ok then
    {| members := set_status (count_failure (members c)) DISCONNECTED;
       m_async_context := false;
       m_needs_reconnect := m_needs_reconnect c;
       m_redis_ip := m_redis_ip c;
       m_total_conns_success := m_total_conns_success c;
       m_total_conn_drops := m_total_conn_drops c;
       m_total_reconnects := m_total_reconnects c |}
  else
    {| members := set_status (members c) CONNECTED;
       m_async_context := m_async_context c;
       m_needs_reconnect := m_needs_reconnect c;
       m_redis_ip := saddr_ip;
       m_total_conns_success := m_total_conns_success c + 1;
       m_total_conn_drops := m_total_conn_drops c;
       m_total_reconnects := m_total_reconnects c |}.

(** [net] is what the network does in the [connect()] that follows a
    disconnect with [REDIS_OK]. *)
Definition disconnectCallback (c : connection) (status_ok : bool) (net : net_outcome)
  : returned :=
  let dropped :=
    {| members := set_status (members c) DISCONNECTED;
       m_async_context := false;
       m_needs_reconnect := m_needs_reconnect c;
       m_redis_ip := m_redis_ip c;
       m_total_conns_success := m_total_conns_success c;
       m_total_conn_drops := m_total_conn_drops c + 1;
       m_total_reconnects := m_total_reconnects c |} in
  if status_ok then connect dropped net else Returns dropped.

(** Returns the connection and whether [redisAsyncDisconnect] was
    called. *)
Definition reconnectIfNeeded (c : connection) : connection * bool :=
  if m_needs_reconnect c then
    match status c with
    | CONNECTED =>
        ({| members := set_status (members c) DISCONNECTING;
            m_async_context := m_async_context c;
            m_needs_reconnect := false;
            m_redis_ip := m_redis_ip c;
            m_total_conns_success := m_total_conns_success c;
            m_total_conn_drops := m_total_conn_drops c;
            m_total_reconnects := m_total_reconnects c + 1 |}, true)
    | _ =>
        ({| members := members c;
            m_async_context := m_async_context c;
            m_needs_reconnect := false;
            m_redis_ip := m_redis_ip c;
            m_total_conns_success := m_total_conns_success c;
            m_total_conn_drops := m_total_conn_drops c;
            m_total_reconnects := m_total_reconnects c |}, false)
    end
  else (c, false).

(** [lookup4] and [lookup6] are the results of [getaddrinfo] for
    [AF_INET] and [AF_INET6]: the texts of the addresses found, or [None]
    for a non-zero return value.  Returns the connection and the number
    of calls of [getaddrinfo]. *)
Definition checkIfNeedsReconnect (c : connection)
    (lookup4 lookup6 : option (list string_view)) : connection * nat :=
  let flagged (ips : list string_view) :=
    {| members := members c;
       m_async_context := m_async_context c;
       m_needs_reconnect := negb (bool_decide (m_redis_ip c ∈ ips));
       m_redis_ip := m_redis_ip c;
       m_total_conns_success := m_total_conns_success c;
       m_total_conn_drops := m_total_conn_drops c;
       m_total_reconnects := m_total_reconnects c |} in
  match status c with
  | CONNECTED =>
      if m_needs_reconnect c then (c, 0%nat)
      else
        match lookup4 with
        | Some ips => (flagged ips, 1%nat)
        | None =>
            match lookup6 with
            | Some ips => (flagged ips, 2%nat)
            | None => (c, 2%nat)
            end
        end
  | _ => (c, 0%nat)
  end.

(** [addCommand] touches the members of the flush only. *)
Definition addCommand (c : connection) (cmd : string_view) : connection :=
  {| members := MsgProcessor.addCommand (members c) cmd;
     m_async_context := m_async_context c;
     m_needs_reconnect := m_needs_reconnect c;
     m_redis_ip := m_redis_ip c;
     m_total_conns_success := m_total_conns_success c;
     m_total_conn_drops := m_total_conn_drops c;
     m_total_reconnects := m_total_reconnects c |}.

End RedisUtils.


(* ===================================================================== *)
(** * Concrete runs and the statements under test *)
(* ===================================================================== *)

Module Scenarios.
Import RateLimit.

(** The client 1.2.3.4:80. *)
Definition client : sockaddr_in := {| sin_addr := 16909060; sin_port := 80 |}.

Definition client_ip_port : Z := ip_port_from_sockaddr (Some client).

(** The client is mapped to user [u]; a policy with ratio 2 and
    [epoch_us = 750_000] is installed for downloads at second 100. *)
Definition throttled_tables : tables Q :=
  set_throttle_epoch_us
    (set_ip_port_key init_speed_epoch_hashmaps client_ip_port "u")
    "u" 750000 RL_DOWNLOAD (2 # 1)%Q {| tv_sec := 100; tv_usec := 0 |}.

Definition installed_policy : speed_hash_value_t Q :=
  {| throttle := 100; num_active_connections := 0; received_epoch_sec := 100;
     diff_ratio := (2 # 1)%Q; elapsed_usec_in_the_epoch := 750000;
     allowed_run_time_usec := 0; previous_diff_ratio := 0%Q |}.

(** A policy with the ratio 2^-40, received at second 100 after 999_999
    microseconds. *)
Definition tiny_ratio_policy : speed_hash_value_t Q :=
  {| throttle := 1; num_active_connections := 0; received_epoch_sec := 100;
     diff_ratio := (1 # 1099511627776)%Q; elapsed_usec_in_the_epoch := 999999;
     allowed_run_time_usec := 0; previous_diff_ratio := 0%Q |}.

End Scenarios.

(** The run time of a policy before it is capped. *)
Module RunTime.
Import RateLimit.

Section WithFloat.
Context {float : Type} `{CFloat float}.

(** The quotient of the elapsed time by the ratio, raised to
    [MIN_RUN_TIME_USEC], as the [double] that [compute_allowed_run_time]
    multiplies by [pow(2, policy_age - 1)], and the product. *)
Definition scaled_quotient (elapsed : Z) (ratio : float) (age : Z) : Z :=
  double_of_u64 (MAX MIN_RUN_TIME_USEC (u64 (div_to_u64 elapsed ratio))) * 2 ^ (age - 1).

Definition scaled_run_time (policy : speed_hash_value_t float) (curr_sec : Z) : Z :=
  scaled_quotient (elapsed_usec_in_the_epoch policy) (diff_ratio policy)
    (policy_age_epochs policy curr_sec).

(** The product fits the [uint64_t] it is stored in, so that its
    conversion is defined. *)
Definition conversion_defined (policy : speed_hash_value_t float) (curr_sec : Z) : Prop :=
  scaled_run_time policy curr_sec < 2 ^ 64.

End WithFloat.

End RunTime.

(** Sequences of limit-share updates delivered to one filter. *)
Module IngestRuns.
Import RateLimit FltWeir WindowCtr.

Record ingest_call := {
  call_timestamp : Z;
  call_user_key : string;
  call_instance : string;
  call_direction : string;
  call_share : Z
}.

(** "Values > 2^32-1 are clamped". *)
Definition clamp_share (v : Z) : Z := Z.min v UINT_MAX.

Section WithCounter.
Context {freq_ctr : Type} `{FreqCtr freq_ctr}.

Definition ingest (g_filter : option (weir_filter_config freq_ctr)) (c : ingest_call)
  : option (weir_filter_config freq_ctr) :=
  ingest_filter
    (weir_ingest_limit_share_update g_filter (call_timestamp c) (call_user_key c)
       (call_instance c) (call_direction c) (call_share c)).

Definition ingest_all (g_filter : option (weir_filter_config freq_ctr))
    (calls : list ingest_call) : option (weir_filter_config freq_ctr) :=
  fold_left ingest calls g_filter.

(** The record held for a user and a direction; a user without a record
    reads as the zero-initialised one that the next update would create. *)
Definition stored (g_filter : option (weir_filter_config freq_ctr)) (user_key : string)
    (dir : DataDirection) : user_direction_limit freq_ctr :=
  match g_filter with
  | Some conf =>
      match user_limit_state conf !! user_key with
      | Some ul => direction_limit ul dir
      | None => zero_direction_limit
      end
  | None => zero_direction_limit
  end.

(** The call is for this filter instance, this user and this direction. *)
Definition addressed_to (conf : weir_filter_config freq_ctr) (user_key : string)
    (dir : DataDirection) (c : ingest_call) : Prop :=
  call_instance c = instance_id conf
  /\ call_user_key c = user_key
  /\ call_direction c = direction_name dir.
End WithCounter.

(** A filter [h-80] without user records, and four updates for the
    uploads of user [u]: the third one is for another instance, the fourth
    one ties with the first and exceeds 2^32-1. *)
Definition fresh_filter : weir_filter_config WindowCtr.window_ctr :=
  {| user_limit_state := ∅; next_cleanup_tick := 30000; refresh_interval_ms := 10000;
     unknown_user_limit := DEFAULT_UNKNOWN_USER_LIMIT;
     minimum_limit := DEFAULT_MINIMUM_BANDWIDTH_LIMIT; instance_id := "h-80" |}.

Definition four_calls : list ingest_call :=
  [ {| call_timestamp := 5; call_user_key := "u"; call_instance := "h-80";
       call_direction := "up"; call_share := 100 |};
    {| call_timestamp := 3; call_user_key := "u"; call_instance := "h-80";
       call_direction := "up"; call_share := 200 |};
    {| call_timestamp := 7; call_user_key := "u"; call_instance := "h-81";
       call_direction := "up"; call_share := 999 |};
    {| call_timestamp := 5; call_user_key := "u"; call_instance := "h-80";
       call_direction := "up"; call_share := 5000000000 |} ].

End IngestRuns.

(** The bandwidth algorithm as the specification words it, to be compared
    with [FltWeir.apply_bandwidth_limit]. *)
Module BandwidthSpec.
Import FltWeir.

(** The least integer not below [a / b]. *)
Definition ceil_div (a b : Z) : Z := - ((- a) / b).

Section WithCounter.
Context {freq_ctr : Type} `{FreqCtr freq_ctr}.

(** "Period = 1000 ms; max_wait = 2 x period.  If overshoot > 0, return
    (wait = min(max_wait, overshoot * period * requests / limit),
    forward = 0) (wait = max_wait when limit = 0).  Else let
    quota = remaining(period, limit, 0), per_request = ceil(quota /
    requests), forward = min(bytes_available, per_request); update the
    counter with forward.  If forward < bytes_available, set
    wait = min(max_wait, next_event_delay(period, limit, 0))." *)
Definition apply_bandwidth_spec (ctr : freq_ctr) (limit requests bytes_available : Z)
  : freq_ctr * apply_limit_result :=
  let period := 1000 in
  let max_wait := 2 * period in
  let overshoot := freq_ctr_overshoot_period ctr period limit in
  if 0 <? overshoot then
    (ctr,
     {| wait_ms := if limit =? 0 then max_wait
                   else Z.min max_wait (overshoot * period * requests / limit);
        bytes_to_forward := 0 |})
  else
    let quota := freq_ctr_remain_period ctr period limit 0 in
    let per_request := ceil_div quota requests in
    let forward := Z.min bytes_available per_request in
    let ctr' := update_freq_ctr_period ctr period forward in
    (ctr',
     {| wait_ms := if forward <? bytes_available
                   then Z.min max_wait (next_event_delay_period ctr' period limit 0)
                   else 0;
        bytes_to_forward := forward |}).
End WithCounter.

End BandwidthSpec.

(** One payload chunk of a download of user [u], who has a share of 1000
    bytes per second, two active requests and no throttle policy. *)
Module PayloadRun.
Import RateLimit FltWeir WindowCtr.

Definition mapped_tables : tables Q :=
  set_ip_port_key init_speed_epoch_hashmaps Scenarios.client_ip_port "u".

Definition env : payload_env Q :=
  {| env_tables := mapped_tables; env_now_ms := 5000;
     env_current_time := {| tv_sec := 100; tv_usec := 250000 |};
     env_random32 := 7; env_realtime_usec := 100250000 |}.

Definition stream : weir_lim_state :=
  {| remote_addr := Some Scenarios.client; limit_key := Some "u"%string;
     request_class := None; bandwidth_limit_direction := Some "dwn"%string;
     next_allowed_send_tick := TICK_ETERNITY; enabled := true;
     headers_processed := true |}.

Definition share_1000 : user_direction_limit WindowCtr.window_ctr :=
  {| limit_received := true; limit_timestamp := 1; bytes_per_second := 1000;
     counter := freq_ctr_zero; active_requests := 2; next_throttle_log_tick := 0 |}.

Definition limit_of_u : user_limit WindowCtr.window_ctr :=
  {| upload := zero_direction_limit; download := share_1000;
     last_request_end_tick := 0 |}.

Definition chunk_len : Z := 16384.

(** What the bandwidth algorithm grants for the chunk. *)
Definition granted : WindowCtr.window_ctr * apply_limit_result :=
  apply_bandwidth_limit (counter share_1000) (bytes_per_second share_1000)
    (active_requests share_1000) chunk_len.

End PayloadRun.

(** The states a splitter goes through. *)
Module SplitterStates.
Import StringSplit.

(** Reading at offset [i], neither finished nor failed. *)
Definition at_index (input d : string_view) (i : nat) : StringSplit.t :=
  {| m_input := input; m_delimiter := d; m_index := i; m_error := false; m_eof := false |}.

(** The last segment has been returned. *)
Definition at_end (input d : string_view) (i : nat) : StringSplit.t :=
  {| m_input := input; m_delimiter := d; m_index := i; m_error := false; m_eof := true |}.

(** The splitter accepts a line after [n] calls of [next]. *)
Definition accepts (n : nat) (d input : string_view) : bool :=
  finishedSuccessfully (nexts n (make input d)).2.

(** The line has exactly [n] fields, or [n] fields followed by one more
    that is empty (the line ends with the delimiter). *)
Definition has_fields (n : nat) (d input : string_view) : Prop :=
  length (delimited_fields d input) = n
  \/ (length (delimited_fields d input) = S n /\ last (delimited_fields d input) = Some []).

End SplitterStates.

(** Processors and lines used in the runs of the aggregator. *)
Module AggregatorRuns.
Import MsgProcessor.

Definition idle_connection : RedisServerConnection :=
  {| m_connection_status := DISCONNECTED; m_total_sent_cnt := 0;
     m_total_conns_requested := 1; m_total_conns_made := 1; m_total_conns_failed := 1;
     commands_submitted := [] |}.

(** A processor with the default batching parameters, nothing buffered,
    and a connect attempt made at second 100. *)
Definition idle_processor : Processor :=
  {| m_endpoint := sv "E";
     m_qos_redis_commands := [];
     m_qos_redis_active_reqs := ∅;
     m_qos_redis_conn := idle_connection;
     m_redis_qos_ttl := 2;
     m_redis_qos_conn_ttl := 60;
     m_check_conn_interval := 30;
     m_last_redis_connect_time := 100 * TICKS_PER_SEC;
     m_last_redis_flush_time := 100 * TICKS_PER_SEC;
     m_qos_not_send_count := 0;
     m_processor_batch_count := DEFAULT_METRICS_BATCHING_COUNT;
     m_processor_batch_flush_period := DEFAULT_METRICS_BATCHING_MSEC_PERIOD;
     m_error_lines := [] |}.

(** The same processor holding one counter of second 100 and one of
    second 139, and one gauge. *)
Definition buffering_processor : Processor :=
  update idle_processor
    [ ({| m_user := sv "user_AKIAIOSFODNN7EXAMPL1"; m_timestamp := 100 * TICKS_PER_SEC;
          m_cat := sv "GET" |}, 10);
      ({| m_user := sv "user_AKIAIOSFODNN7EXAMPL1"; m_timestamp := 139 * TICKS_PER_SEC;
          m_cat := sv "GET" |}, 4) ]
    {[ sv "conn_v2_user_dwn_I_AKIAIOSFODNN7EXAMPL1$E" := 3 ]}
    idle_connection (100 * TICKS_PER_SEC) (100 * TICKS_PER_SEC) 2 [].

Definition req_line : string_view := sv "req~|~1.2.3.4:80~|~u~|~PUT~|~up~|~I~|~3~|~".
Definition req_line_with_class : string_view :=
  sv "req~|~1.2.3.4:80~|~u~|~PUT~|~up~|~I~|~3~|~LISTBUCKETS".
Definition req_line_without_class_field : string_view :=
  sv "req~|~1.2.3.4:80~|~u~|~PUT~|~up~|~I~|~3".
Definition data_xfer_line : string_view := sv "data_xfer~|~1.2.3.4:80~|~u~|~up~|~4096".
Definition data_xfer_line_trailing_delimiter : string_view :=
  sv "data_xfer~|~1.2.3.4:80~|~u~|~up~|~4096~|~".
Definition data_xfer_line_empty_user : string_view :=
  sv "data_xfer~|~1.2.3.4:80~|~~|~up~|~4096".
Definition data_xfer_line_empty_user_bad_count : string_view :=
  sv "data_xfer~|~1.2.3.4:80~|~~|~up~|~abc".

(** The key of the unit tests, at a given time point. *)
Definition test_key (time_point : Z) : RedisCmdKey :=
  {| m_user := sv "user_AKIAIOSFODNN7EXAMPL1"; m_timestamp := time_point;
     m_cat := sv "GET" |}.

(** Two stand-ins for [std::hash], for running [RedisCmdKeyHash]. *)
Definition toy_hash_string (s : string_view) : Z := Z.of_nat (length s).
Definition toy_hash_uint32 (n : Z) : Z := n.

(** The key under which a [data_xfer] event of [user] is counted. *)
Definition bandwidth_key (user direction : string_view) (now : Z) : RedisCmdKey :=
  {| m_user := sv "user_" ++ user; m_timestamp := now; m_cat := sv "bnd_" ++ direction |}.

(** The key under which a [req] event of [user] is counted for a verb or
    a request class. *)
Definition request_key (user category : string_view) (now : Z) : RedisCmdKey :=
  {| m_user := sv "user_" ++ user; m_timestamp := now; m_cat := category |}.

(** What the equality of two keys compares. *)
Definition bucket (k : RedisCmdKey) : string_view * Z * string_view :=
  (m_user k, getEpochSecs (m_timestamp k), m_cat k).

(** The whole seconds since the epoch, rounded down. *)
Definition floor_sec (time_point : Z) : Z := time_point / TICKS_PER_SEC.

(** Time points from the epoch up to the last second that fits 32 bits. *)
Definition in_epoch_range (time_point : Z) : Prop :=
  0 <= time_point < 2 ^ 32 * TICKS_PER_SEC.

(** [raw] is a [req] line: eight fields, of which the active-request
    count converts to an [int] and the user key is printable. *)
Definition is_req_event (raw user verb direction instance request_class : string_view)
    (active_requests : Z) : Prop :=
  exists source count,
    StringSplit.delimited_fields DELIMITER raw
    = [sv "req"; source; user; verb; direction; instance; count; request_class]
    /\ from_chars_int count = Some active_requests
    /\ isPrintableASCII user = true.

(** [raw] is a [data_xfer] line: five fields, of which the byte count
    converts to an [int] and the user key is printable. *)
Definition is_data_xfer_event (raw user direction : string_view) (bytes : Z) : Prop :=
  exists source count,
    StringSplit.delimited_fields DELIMITER raw
    = [sv "data_xfer"; source; user; direction; count]
    /\ from_chars_int count = Some bytes
    /\ isPrintableASCII user = true.

(** The value fits an [int], the type of the counters. *)
Definition fits_int (v : Z) : Prop := INT_MIN <= v <= INT_MAX.

(** The overdue-flush condition of [sendToRedisQos]. *)
Definition flush_due (p : Processor) (now : Z) : Prop :=
  m_processor_batch_flush_period p * TICKS_PER_MSEC < now - m_last_redis_flush_time p
  \/ m_processor_batch_count p <= m_qos_not_send_count p.

End AggregatorRuns.
(* ===================================================================== *)
(** * Statements about the code beyond the specification *)
(* ===================================================================== *)

(** The connection counts of rate_limit.c. *)
Module ConnectionCounts.
Import RateLimit.

Section WithFloat.
Context {float : Type} `{CFloat float}.

(** The count stored for a key is that of a [khint32_t] that has been
    incremented from 1 and can be incremented once more. *)
Definition count_in_range (t : tables float) (key : string) : Prop :=
  forall c, key_ip_port_count_hashmap t !! key = Some c -> 1 <= c < 2 ^ 32 - 1.

(** The connection count of a key, 0 when the key has no entry. *)
Definition connections_of (t : tables float) (key : string) : Z :=
  get_ip_port_count_from_key t key.

End WithFloat.

(** The tables after [init_speed_epoch_hashmaps]. *)
Definition no_connection : tables Q := init_speed_epoch_hashmaps.

End ConnectionCounts.

(** Fields and the text they make. *)
Module EventText.

(** The fields written one after the other with the delimiter between
    them. *)
Fixpoint join (d : string_view) (fs : list string_view) : string_view :=
  match fs with
  | [] => []
  | f :: fs' =>
      match fs' with
      | [] => f
      | _ :: _ => f ++ d ++ join d fs'
      end
  end.

(** The character [c] does not occur in [f]. *)
Definition free_of (c : ascii) (f : string_view) : bool :=
  forallb (fun x => negb (Ascii.eqb x c)) f.

(** No [~], the character with which the delimiter of the event lines
    begins and ends. *)
Definition tilde_free (f : string_view) : Prop := free_of "~" f = true.

(** The delimiter does not occur in [f]. *)
Definition delimiter_free (d f : string_view) : Prop := StringSplit.find_first d f = None.



End EventText.

(** The effect of an event line on the aggregator. *)
Module Pipeline.
Import MsgProcessor.


(** The processor after a [req] event. *)
Definition with_request (p : Processor) (now_class now_verb : Z)
    (user verb direction instance request_class : string_view) (active_requests : Z)
  : Processor :=
  record_event p
    (cmd_map_add (AggregatorRuns.request_key user verb now_verb) 1
       (match request_class with
        | [] => m_qos_redis_commands p
        | _ :: _ =>
            cmd_map_add (AggregatorRuns.request_key user request_class now_class) 1
              (m_qos_redis_commands p)
        end))
    (<[conn_key p direction instance user := active_requests]> (m_qos_redis_active_reqs p)).


End Pipeline.

(** The user-limit table across the hooks of a request. *)
Module RequestLifeCycle.
Import RateLimit FltWeir FltWeirHooks WindowCtr.

(** The operation-direction is absent, [up] or [dwn]. *)
Definition recognised (direction : option string) : Prop :=
  direction = None \/ direction = Some "up"%string \/ direction = Some "dwn"%string.

Section WithCounter.
Context {freq_ctr : Type} `{FreqCtr freq_ctr}.

(** The record of a user; a user without one reads as the zeroed record
    that [weir_enable_filter] would allocate. *)
Definition record_of (conf : weir_filter_config freq_ctr) (key : string)
  : user_limit freq_ctr :=
  match user_limit_state conf !! key with
  | Some ul => ul
  | None => zero_user_limit
  end.

(** The number of requests of the user in flight in a direction. *)
Definition in_flight (conf : weir_filter_config freq_ctr) (key : string)
    (dir : DataDirection) : Z :=
  active_requests (direction_limit (record_of conf key) dir).

(** The entry is not the one the call has registered the stream under. *)
Definition not_registered_as (r : enable_result freq_ctr) (key : string) : Prop :=
  en_registered r = true -> en_limit r <> Some key.

End WithCounter.

(** A stream of client 1.2.3.4:80 on which no hook has run yet. *)
Definition fresh_stream : weir_lim_state :=
  {| remote_addr := Some Scenarios.client; limit_key := None; request_class := None;
     bandwidth_limit_direction := None; next_allowed_send_tick := 0;
     enabled := false; headers_processed := false |}.

(** A filter whose clean-up is due at tick 1000 and which holds a record
    for an idle user [old], whose last request ended at tick 10. *)
Definition filter_with_idle_user : weir_filter_config WindowCtr.window_ctr :=
  {| user_limit_state :=
       {[ "old"%string := {| upload := zero_direction_limit;
                             download := zero_direction_limit;
                             last_request_end_tick := 10 |} ]};
     next_cleanup_tick := 1000; refresh_interval_ms := 10000;
     unknown_user_limit := DEFAULT_UNKNOWN_USER_LIMIT;
     minimum_limit := DEFAULT_MINIMUM_BANDWIDTH_LIMIT; instance_id := "I" |}.

End RequestLifeCycle.

(** The commands of a flush. *)
Module FlushCommands.
Import MsgProcessor.

(** The Redis hash that holds the counters of a user for one second. *)
Definition redis_key (p : Processor) (key : RedisCmdKey) : string_view :=
  sv "verb_" ++ dec (getEpochSecs (m_timestamp key)) ++ sv "_" ++ m_user key
    ++ sv "$" ++ m_endpoint p.

Definition hincrby_command (p : Processor) (key : RedisCmdKey) (val : Z) : string_view :=
  sv "hincrby " ++ redis_key p key ++ sv " " ++ m_cat key ++ sv " " ++ dec val.

Definition expire_command (p : Processor) (key : RedisCmdKey) : string_view :=
  sv "expire " ++ redis_key p key ++ sv " " ++ dec (m_redis_qos_ttl p).

Definition set_command (p : Processor) (gauge : string_view) (val : Z) : string_view :=
  sv "set " ++ gauge ++ sv " " ++ dec val ++ sv " ex " ++ dec (m_redis_qos_conn_ttl p).

(** The connection after [cmds] have been handed to it, in order. *)
Definition after_commands (c : RedisServerConnection) (cmds : list string_view)
  : RedisServerConnection :=
  {| m_connection_status := m_connection_status c;
     m_total_sent_cnt := m_total_sent_cnt c + Z.of_nat (length cmds);
     m_total_conns_requested := m_total_conns_requested c;
     m_total_conns_made := m_total_conns_made c;
     m_total_conns_failed := m_total_conns_failed c;
     commands_submitted := commands_submitted c ++ cmds |}.

(** What a call of a parser can do to the processor. *)
Inductive outcome (p p' : Processor) : Prop :=
| Counted :
    m_qos_not_send_count p' = m_qos_not_send_count p + 1 ->
    m_error_lines p' = m_error_lines p ->
    outcome p p'
| Rejected (e : error_line) :
    p' = log_error p e ->
    outcome p p'
| Ignored :
    p' = p ->
    outcome p p'.

End FlushCommands.


(** The states a connection to Redis passes through. *)
Module ConnectionLife.
Import MsgProcessor RedisUtils.

(** The context pointer is null in state [DISCONNECTED] and in no other
    state. *)
Definition context_matches (c : connection) : Prop :=
  m_async_context c = match status c with DISCONNECTED => false | _ => true end.

(** The counters add up: every attempt counted as made was requested;
    an attempt made has succeeded, failed, found no context or is still
    pending; a connection that succeeded has been dropped or is the
    current one. *)
Definition counters_add_up (c : connection) : Prop :=
  m_total_conns_made (members c) <= m_total_conns_requested (members c)
  /\ m_total_conns_success c + m_total_conns_failed (members c)
       + (match status c with CONNECTING => 1 | _ => 0 end)
     <= m_total_conns_made (members c)
  /\ m_total_conns_success c
     = m_total_conn_drops c
       + (match status c with CONNECTED | DISCONNECTING => 1 | _ => 0 end)
  /\ 0 <= m_total_conns_failed (members c)
  /\ 0 <= m_total_conn_drops c.

(** One call of a method or of a callback.  hiredis calls the connect
    callback of a context that is connecting, and the disconnect callback
    of a context that has been connected. *)
Inductive step : connection -> connection -> Prop :=
| step_connect (c : connection) (net : net_outcome) (c' : connection) :
    connect c net = Returns c' -> step c c'
| step_connectCallback (c : connection) (status_ok : bool) (saddr_ip : string_view) :
    status c = CONNECTING -> step c (connectCallback c status_ok saddr_ip)
| step_disconnectCallback (c : connection) (status_ok : bool) (net : net_outcome)
    (c' : connection) :
    status c = CONNECTED \/ status c = DISCONNECTING ->
    disconnectCallback c status_ok net = Returns c' -> step c c'
| step_reconnectIfNeeded (c : connection) :
    step c (reconnectIfNeeded c).1
| step_checkIfNeedsReconnect (c : connection) (lookup4 lookup6 : option (list string_view)) :
    step c (checkIfNeedsReconnect c lookup4 lookup6).1
| step_addCommand (c : connection) (cmd : string_view) :
    step c (addCommand c cmd).

(** The connection after any number of calls on a new object. *)
Definition reachable (c : connection) : Prop := rtc step new_connection c.

(** A connection established to 1.1.1.1 by the first attempt. *)
Definition connected_once : connection :=
  {| members :=
       {| m_connection_status := CONNECTED; m_total_sent_cnt := 0;
          m_total_conns_requested := 1; m_total_conns_made := 1;
          m_total_conns_failed := 0; commands_submitted := [] |};
     m_async_context := true; m_needs_reconnect := false; m_redis_ip := sv "1.1.1.1";
     m_total_conns_success := 1; m_total_conn_drops := 0; m_total_reconnects := 0 |}.

End ConnectionLife.

(** The lines of one request of user [u] and what they come from. *)
Module EventRuns.
Import RateLimit FltWeir FltWeirHooks WindowCtr MsgProcessor.

(** A filter that holds the record of user [u] with two downloads in
    flight; its clean-up is not due before tick 100000. *)
Definition filter_with_active_user : weir_filter_config WindowCtr.window_ctr :=
  {| user_limit_state := {[ "u"%string := PayloadRun.limit_of_u ]};
     next_cleanup_tick := 100000; refresh_interval_ms := 10000;
     unknown_user_limit := DEFAULT_UNKNOWN_USER_LIMIT;
     minimum_limit := DEFAULT_MINIMUM_BANDWIDTH_LIMIT; instance_id := "I" |}.


Definition started : req_line :=
  {| req_addr := Scenarios.client; req_key := "u"; req_method := HTTP_METH_GET;
     req_direction := "dwn"; req_instance := "I"; req_active_requests := 2;
     req_class := "" |}.

Definition ended : req_end_line :=
  {| end_addr := Scenarios.client; end_key := "u"; end_method := HTTP_METH_GET;
     end_direction := "dwn"; end_instance := "I"; end_active_requests := 1 |}.

Definition headers_outcome : headers_result :=
  {| hd_state := PayloadRun.stream; hd_analyse_exp := TICK_ETERNITY;
     hd_lines := [started] |}.


(** The activation of the filter for user [u] at tick 6000, on a filter
    whose clean-up is due and which holds the record of an idle user. *)
Definition activation_after_idle : option (enable_result WindowCtr.window_ctr) :=
  weir_enable_filter RequestLifeCycle.filter_with_idle_user RequestLifeCycle.fresh_stream
    None ACT_F_HTTP_REQ HTTP_METH_GET 6000 (Some "u"%string) None (Some "dwn"%string).

(** A transfer of a user whose key ends in [req]. *)
Definition transfer_of_myreq : data_xfer_line :=
  {| xfer_addr := Scenarios.client; xfer_key := "myreq"; xfer_direction := "up";
     xfer_done := 4096 |}.


(** A datagram as HAProxy sends it: a syslog header, the event, a line
    feed. *)
Definition datagram : string_view :=
  sv "<134>haproxy[7]: " ++ AggregatorRuns.data_xfer_line ++ [SyslogServer.newline].

(** The buffering processor with an established connection. *)
Definition connected_processor : Processor :=
  update AggregatorRuns.buffering_processor
    (m_qos_redis_commands AggregatorRuns.buffering_processor)
    (m_qos_redis_active_reqs AggregatorRuns.buffering_processor)
    {| m_connection_status := CONNECTED; m_total_sent_cnt := 0;
       m_total_conns_requested := 1; m_total_conns_made := 1; m_total_conns_failed := 0;
       commands_submitted := [] |}
    (100 * TICKS_PER_SEC) (100 * TICKS_PER_SEC) 2 [].

End EventRuns.

(** The [weir-throttle] lines of the payload hook. *)
Module ThrottleLog.
Import RateLimit FltWeir.

Definition is_throttle_line (l : filter_line) : bool :=
  match l with LineThrottle _ _ _ => true | LineDataXfer _ => false end.

(** The payload hook has something to decide: the stream is enabled and
    has an address, the chunk is not empty, and the stream is not waiting
    for a tick that is still ahead. *)
Definition examined (st : weir_lim_state) (now_ms len : Z) : Prop :=
  enabled st = true
  /\ remote_addr st <> None
  /\ 0 < len
  /\ (tick_isset (next_allowed_send_tick st) = false
      \/ tick_is_expired (next_allowed_send_tick st) now_ms = true).

Section WithCounter.
Context {freq_ctr : Type} `{FreqCtr freq_ctr}.

(** The tick from which the next [weir-throttle] line of the user is
    allowed in the direction is unset or has expired. *)
Definition log_allowed (lim : user_limit freq_ctr) (direction : DataDirection)
    (now_ms : Z) : bool :=
  negb (tick_isset (next_throttle_log_tick (direction_limit lim direction)))
  || tick_is_expired (next_throttle_log_tick (direction_limit lim direction)) now_ms.

(** The record with the next [weir-throttle] line of the direction
    allowed 1000 ms after [now_ms]. *)
Definition logged_at (lim : user_limit freq_ctr) (direction : DataDirection) (now_ms : Z)
  : user_limit freq_ctr :=
  set_direction_limit lim direction
    (set_next_throttle_log_tick (direction_limit lim direction)
       (tick_add now_ms (MS_TO_TICKS 1000))).

End WithCounter.

(** The direction of the channel a chunk travels on. *)
Definition channel_direction (is_request : bool) : DataDirection :=
  if is_request then RL_UPLOAD else RL_DOWNLOAD.

(** User [u] with a throttle line logged recently: the next one is
    allowed from tick 5200. *)
Definition limit_logged_recently : user_limit WindowCtr.window_ctr :=
  set_direction_limit PayloadRun.limit_of_u RL_DOWNLOAD
    (set_next_throttle_log_tick PayloadRun.share_1000 5200).

(** The environment of [PayloadRun] with the throttle policy of
    [Scenarios.throttled_tables] installed. *)
Definition throttling_env : payload_env Q :=
  {| env_tables := Scenarios.throttled_tables; env_now_ms := 5000;
     env_current_time := {| tv_sec := 100; tv_usec := 250000 |};
     env_random32 := 7; env_realtime_usec := 100250000 |}.

End ThrottleLog.
(* ===================================================================== *)
(** * Properties *)
(* ===================================================================== *)

#[local] Existing Instance WindowCtr.window_ctr_ops.

(** ** Fixed-width integers *)

Lemma u32_small (x : Z) : 0 <= x < 2 ^ 32 -> u32 x = x.
Proof. intros Hx. unfold u32. apply Z.mod_small. exact Hx. Qed.

Lemma u64_small (x : Z) : 0 <= x < 2 ^ 64 -> u64 x = x.
Proof. intros Hx. unfold u64. apply Z.mod_small. exact Hx. Qed.

Lemma u32_range (x : Z) : 0 <= u32 x < 2 ^ 32.
Proof. unfold u32. apply Z.mod_pos_bound. lia. Qed.

Lemma u64_range (x : Z) : 0 <= u64 x < 2 ^ 64.
Proof. unfold u64. apply Z.mod_pos_bound. lia. Qed.

Lemma s32_small (x : Z) : - 2 ^ 31 <= x < 2 ^ 31 -> s32 x = x.
Proof.
  intros Hx. unfold s32.
  destruct (Z.ltb_spec x 0) as [Hneg | Hpos].
  - replace (x mod 2 ^ 32) with (x + 2 ^ 32).
    + destruct (Z.ltb_spec (x + 2 ^ 32) (2 ^ 31)); lia.
    + apply Z.mod_unique with (q := -1); [left |]; lia.
  - rewrite Z.mod_small by lia.
    destruct (Z.ltb_spec x (2 ^ 31)); lia.
Qed.

Lemma MIN_is_min (a b : Z) : MIN a b = Z.min a b.
Proof. unfold MIN. destruct (Z.ltb_spec a b); lia. Qed.

Lemma MAX_is_max (a b : Z) : MAX a b = Z.max a b.
Proof. unfold MAX. destruct (Z.ltb_spec b a); lia. Qed.

(** Two 32-bit values whose wrapped difference is small are close. *)
Lemma u32_sub_le (a b k : Z) :
  0 <= a < 2 ^ 32 -> 0 <= b < 2 ^ 32 -> u32 (a - b) <= k -> a - b <= k.
Proof.
  intros Ha Hb Hk.
  destruct (Z.ltb_spec a b) as [Hlt | Hge].
  - pose proof (u32_range (a - b)). lia.
  - rewrite u32_small in Hk by lia. exact Hk.
Qed.

(** ** rate_limit.c: the allowed run time *)

Section ThrottleTable.
Import RateLimit.
Context {float : Type} `{CFloat float}.

Lemma allowed_run_time_age_zero (policy : speed_hash_value_t float) (curr_sec : Z) :
  policy_age_epochs policy curr_sec = 0 ->
  allowed_run_time_usec (compute_allowed_run_time policy curr_sec) = 0.
Proof.
  unfold policy_age_epochs, compute_allowed_run_time. intros ->. reflexivity.
Qed.

(** The conversion to [double] does not lower a value below 2^52. *)
Lemma double_of_u64_lower (n : Z) : 0 <= n -> Z.min n (2 ^ 52) <= double_of_u64 n.
Proof.
  intros Hn. unfold double_of_u64.
  destruct (Z.ltb_spec n (2 ^ 53)) as [Hsmall | Hlarge]; [lia |].
  cbv zeta.
  assert (Hlog : 53 <= Z.log2 n) by (apply Z.log2_le_pow2; lia).
  set (ulp := 2 ^ (Z.log2 n - 52)).
  assert (Hulp : 1 <= ulp).
  { subst ulp. change 1 with (2 ^ 0). apply Z.pow_le_mono_r; lia. }
  assert (Hn_ulp : 2 ^ 52 * ulp <= n).
  { subst ulp. rewrite <- Z.pow_add_r by lia.
    replace (52 + (Z.log2 n - 52)) with (Z.log2 n) by lia.
    apply Z.log2_spec. lia. }
  assert (Hq : 2 ^ 52 <= n / ulp) by (apply Z.div_le_lower_bound; lia).
  destruct ((ulp / 2 <? n mod ulp) || ((n mod ulp =? ulp / 2) && Z.odd (n / ulp))); nia.
Qed.

Lemma scale_by_pow2_defined (allowed exponent : Z) :
  double_of_u64 allowed * 2 ^ exponent < 2 ^ 64 ->
  scale_by_pow2 allowed exponent = double_of_u64 allowed * 2 ^ exponent.
Proof.
  intros Hfits. unfold scale_by_pow2. cbv zeta.
  destruct (Z.ltb_spec (double_of_u64 allowed * 2 ^ exponent) (2 ^ 64)); [reflexivity | lia].
Qed.

Lemma scale_by_pow2_range (allowed exponent : Z) :
  0 <= allowed -> 0 <= exponent -> 0 <= scale_by_pow2 allowed exponent.
Proof.
  intros Hallowed Hexponent. unfold scale_by_pow2. cbv zeta.
  destruct (Z.ltb_spec (double_of_u64 allowed * 2 ^ exponent) (2 ^ 64)).
  - pose proof (double_of_u64_lower allowed Hallowed).
    assert (0 < 2 ^ exponent) by (apply Z.pow_pos_nonneg; lia). nia.
  - apply u64_range.
Qed.

Lemma allowed_run_time_backoff (policy : speed_hash_value_t float) (curr_sec : Z) :
  1 <= policy_age_epochs policy curr_sec <= BACKOFF_WINDOW_EPOCHS ->
  allowed_run_time_usec (compute_allowed_run_time policy curr_sec)
  = Z.min (scale_by_pow2
             (Z.max MIN_RUN_TIME_USEC
                (u64 (div_to_u64 (elapsed_usec_in_the_epoch policy) (diff_ratio policy))))
             (policy_age_epochs policy curr_sec - 1))
          UNIT_USECS_IN_SEC.
Proof.
  unfold policy_age_epochs, compute_allowed_run_time, BACKOFF_WINDOW_EPOCHS. intros Hage.
  cbn [allowed_run_time_usec].
  destruct (Z.eqb_spec (u32 (curr_sec - received_epoch_sec policy)) 0) as [E | _]; [lia |].
  destruct (Z.leb_spec (u32 (curr_sec - received_epoch_sec policy)) 6) as [_ | E]; [| lia].
  rewrite MIN_is_min, MAX_is_max. reflexivity.
Qed.

(** C3, as amended.  For a policy whose age is between 1 and 6 seconds the
    allowed run time computed by [compute_allowed_run_time] is at most
    1_000_000 microseconds, whatever the elapsed time and the ratio are,
    and it is at least 50_000 microseconds when the scaled run time fits
    the [uint64_t] it is converted to; at age 0 it is 0. *)
Theorem C3_allowed_run_time_bounds (policy : speed_hash_value_t float) (curr_sec : Z) :
  is_valid_violation_policy policy curr_sec = true ->
  (1 <= policy_age_epochs policy curr_sec ->
   0 <= allowed_run_time_usec (compute_allowed_run_time policy curr_sec) <= 1000000
   /\ (RunTime.conversion_defined policy curr_sec ->
       50000 <= allowed_run_time_usec (compute_allowed_run_time policy curr_sec)))
  /\ (policy_age_epochs policy curr_sec = 0 ->
      allowed_run_time_usec (compute_allowed_run_time policy curr_sec) = 0).
Proof.
  unfold is_valid_violation_policy. intros Hvalid.
  apply Z.leb_le in Hvalid.
  split; [| apply allowed_run_time_age_zero].
  intros Hage. rewrite allowed_run_time_backoff by lia.
  unfold MIN_RUN_TIME_USEC, UINT_USECS_IN_MILLISEC, UNIT_USECS_IN_SEC.
  set (q := u64 _).
  assert (Hq : 0 <= q) by (subst q; apply u64_range).
  assert (Hpow : 1 <= 2 ^ (policy_age_epochs policy curr_sec - 1)).
  { change 1 with (2 ^ 0). apply Z.pow_le_mono_r; lia. }
  split.
  - pose proof (scale_by_pow2_range (Z.max (50 * 1000) q)
                  (policy_age_epochs policy curr_sec - 1) ltac:(lia) ltac:(lia)).
    lia.
  - unfold RunTime.conversion_defined, RunTime.scaled_run_time, RunTime.scaled_quotient.
    rewrite MAX_is_max. unfold MIN_RUN_TIME_USEC, UINT_USECS_IN_MILLISEC. fold q.
    intros Hfits. rewrite scale_by_pow2_defined by exact Hfits.
    pose proof (double_of_u64_lower (Z.max (50 * 1000) q) ltac:(lia)) as Hlow.
    assert (50000 <= Z.min (Z.max (50 * 1000) q) (2 ^ 52)) by lia.
    nia.
Qed.

(** ** rate_limit.c: when a connection is throttled *)

Lemma get_epoch_sec_throttle (t : tables float) (ip_port : Z) (dir : DataDirection)
    (curr_sec : Z) :
  throttle (get_epoch_sec t ip_port dir curr_sec).1 <> 0 ->
  exists key policy,
    ip_port_key_hashmap t !! ip_port = Some key
    /\ key <> ""%string
    /\ get_key_speed_hash t dir !! key = Some policy
    /\ policy_age_epochs policy curr_sec <= BACKOFF_WINDOW_EPOCHS.
Proof.
  unfold get_epoch_sec, get_key_from_ip_port.
  destruct (ip_port_key_hashmap t !! ip_port) as [key |] eqn:Hkey; [| cbn; lia].
  destruct (Nat.eqb_spec (String.length key) 0) as [Hlen | Hlen]; [cbn; lia |].
  destruct (get_key_speed_hash t dir !! key) as [policy |] eqn:Hpol; [| cbn; lia].
  destruct (is_valid_violation_policy (set_throttle policy 0) curr_sec) eqn:Hvalid;
    [| cbn; lia].
  intros _. exists key, policy.
  split; [reflexivity |]. split; [| split; [exact Hpol |]].
  - intros ->. apply Hlen. reflexivity.
  - unfold is_valid_violation_policy in Hvalid. apply Z.leb_le in Hvalid. exact Hvalid.
Qed.

(** C4.  [rl_speed_throttle] answers [RL_THROTTLE] only for an address
    that is mapped to a non-empty user key for which the direction's table
    holds a policy whose age, the current second minus
    [received_epoch_sec], is at most 6; without an address, without a
    mapping, without a policy, or with a policy older than that, the answer
    is [RL_NO_THROTTLE]. *)
Theorem C4_throttle_only_with_valid_policy (t : tables float)
    (addr_in : option sockaddr_in) (dir : DataDirection) (current_time : timeval)
    (random32 : Z) :
  let curr_sec := in_seconds (get_current_epoch current_time) in
  let answer := rl_speed_throttle t addr_in dir current_time random32 in
  ((exists slept, answer = Some (RL_THROTTLE, slept)) ->
   exists a key policy,
     addr_in = Some a
     /\ ip_port_key_hashmap t !! ip_port_from_sockaddr addr_in = Some key
     /\ key <> ""%string
     /\ get_key_speed_hash t dir !! key = Some policy
     /\ policy_age_epochs policy curr_sec <= 6
     /\ (0 <= received_epoch_sec policy < 2 ^ 32 ->
         curr_sec - received_epoch_sec policy <= 6))
  /\ (addr_in = None -> answer = Some (RL_NO_THROTTLE, 0))
  /\ (ip_port_key_hashmap t !! ip_port_from_sockaddr addr_in = None ->
      answer = Some (RL_NO_THROTTLE, 0))
  /\ (forall key,
        ip_port_key_hashmap t !! ip_port_from_sockaddr addr_in = Some key ->
        get_key_speed_hash t dir !! key = None -> answer = Some (RL_NO_THROTTLE, 0))
  /\ (forall key policy,
        ip_port_key_hashmap t !! ip_port_from_sockaddr addr_in = Some key ->
        get_key_speed_hash t dir !! key = Some policy ->
        6 < policy_age_epochs policy curr_sec -> answer = Some (RL_NO_THROTTLE, 0)).
Proof.
  intros curr_sec answer.
  assert (Hchar : answer <> Some (RL_NO_THROTTLE, 0) ->
            exists a, addr_in = Some a
              /\ throttle (get_epoch_sec t (ip_port_from_sockaddr addr_in) dir curr_sec).1 <> 0).
  { subst answer curr_sec. unfold rl_speed_throttle.
    destruct addr_in as [a |]; [| congruence].
    set (found := (get_epoch_sec _ _ _ _).1).
    destruct (Z.eqb_spec (throttle found) 0) as [E | E]; [congruence |].
    intros _. exists a. split; [reflexivity | exact E]. }
  assert (Hno : (answer <> Some (RL_NO_THROTTLE, 0) -> False) ->
                answer = Some (RL_NO_THROTTLE, 0)).
  { intros Hnot. destruct answer as [[[] slept] |];
      try (exfalso; apply Hnot; discriminate).
    destruct (Z.eq_dec slept 0) as [-> | Hslept]; [reflexivity |].
    exfalso. apply Hnot. congruence. }
  split; [| split; [| split; [| split]]].
  - intros [slept Hthr].
    destruct (Hchar ltac:(rewrite Hthr; discriminate)) as (a & Ha & Hfound).
    destruct (get_epoch_sec_throttle _ _ _ _ Hfound)
      as (key & policy & Hkey & Hne & Hpol & Hage).
    exists a, key, policy. repeat split; try assumption.
    intros Hrange. apply u32_sub_le; try assumption.
    subst curr_sec. cbn. apply u32_range.
  - intros ->. reflexivity.
  - intros Hnone. apply Hno. intros Hthr.
    destruct (Hchar Hthr) as (a & _ & Hfound).
    destruct (get_epoch_sec_throttle _ _ _ _ Hfound) as (key & policy & Hkey & _).
    congruence.
  - intros key Hkey Hnone. apply Hno. intros Hthr.
    destruct (Hchar Hthr) as (a & _ & Hfound).
    destruct (get_epoch_sec_throttle _ _ _ _ Hfound) as (key' & policy & Hkey' & _ & Hpol & _).
    congruence.
  - intros key policy Hkey Hpol Hold. apply Hno. intros Hthr.
    destruct (Hchar Hthr) as (a & _ & Hfound).
    destruct (get_epoch_sec_throttle _ _ _ _ Hfound)
      as (key' & policy' & Hkey' & _ & Hpol' & Hage).
    assert (key' = key) by congruence. subst key'.
    assert (policy' = policy) by congruence. subst policy'.
    unfold BACKOFF_WINDOW_EPOCHS in Hage. lia.
Qed.

End ThrottleTable.

(** *** Runs of the throttle table *)

Example throttle_scenario_policy :
  RateLimit.get_key_speed_hash Scenarios.throttled_tables RateLimit.RL_DOWNLOAD !! "u"%string
  = Some Scenarios.installed_policy.
Proof. vm_compute. reflexivity. Qed.

Example throttle_scenario_age_one :
  RateLimit.allowed_run_time_usec
    (RateLimit.compute_allowed_run_time Scenarios.installed_policy 101) = 375000.
Proof. vm_compute. reflexivity. Qed.

Example throttle_scenario_within_allowed_time :
  RateLimit.rl_speed_throttle Scenarios.throttled_tables (Some Scenarios.client)
    RateLimit.RL_DOWNLOAD {| RateLimit.tv_sec := 101; RateLimit.tv_usec := 100000 |} 7
  = Some (RateLimit.RL_NO_THROTTLE, 1000).
Proof. vm_compute. reflexivity. Qed.

Example throttle_scenario_stale :
  RateLimit.rl_speed_throttle Scenarios.throttled_tables (Some Scenarios.client)
    RateLimit.RL_DOWNLOAD {| RateLimit.tv_sec := 107; RateLimit.tv_usec := 100000 |} 7
  = Some (RateLimit.RL_NO_THROTTLE, 0).
Proof. vm_compute. reflexivity. Qed.

(** A product that does not fit: the quotient 999_999 * 2^40 at age 6 is
    multiplied by 32, which gives more than 2^64, and the run time is what
    the conversion leaves, 0 on x86-64. *)
Example throttle_scenario_out_of_range :
  ~ RunTime.conversion_defined Scenarios.tiny_ratio_policy 106
  /\ RateLimit.allowed_run_time_usec
       (RateLimit.compute_allowed_run_time Scenarios.tiny_ratio_policy 106) = 0.
Proof. split; [vm_compute; intros Hlt; discriminate Hlt | vm_compute; reflexivity]. Qed.

(** C3, as stated, fails at age 0: a policy installed at second 100 and
    looked at during second 100 is valid, and its allowed run time is 0,
    which is below 50_000. *)
Lemma C3_counterexample_age_zero :
  RateLimit.is_valid_violation_policy Scenarios.installed_policy 100 = true
  /\ RateLimit.policy_age_epochs Scenarios.installed_policy 100 = 0
  /\ ~ (50000 <= RateLimit.allowed_run_time_usec
                   (RateLimit.compute_allowed_run_time Scenarios.installed_policy 100)
        <= 1000000).
Proof.
  split; [reflexivity |]. split; [reflexivity |].
  vm_compute. intros [Hlow _]. apply Hlow. reflexivity.
Qed.

Lemma C3_witness :
  RateLimit.is_valid_violation_policy Scenarios.installed_policy 101 = true
  /\ RunTime.conversion_defined Scenarios.installed_policy 101
  /\ 50000 <= RateLimit.allowed_run_time_usec
                (RateLimit.compute_allowed_run_time Scenarios.installed_policy 101)
     <= 1000000.
Proof.
  assert (Hfits : RunTime.conversion_defined Scenarios.installed_policy 101)
    by (vm_compute; reflexivity).
  split; [reflexivity |]. split; [exact Hfits |].
  destruct (proj1 (C3_allowed_run_time_bounds Scenarios.installed_policy 101 eq_refl))
    as [[_ Hhigh] Hlow]; [vm_compute; discriminate |].
  split; [exact (Hlow Hfits) | exact Hhigh].
Defined.

Lemma C4_witness :
  RateLimit.rl_speed_throttle Scenarios.throttled_tables (Some Scenarios.client)
    RateLimit.RL_DOWNLOAD {| RateLimit.tv_sec := 101; RateLimit.tv_usec := 500000 |} 7
  = Some (RateLimit.RL_THROTTLE, 0)
  /\ exists a key policy,
      Some Scenarios.client = Some a
      /\ RateLimit.ip_port_key_hashmap Scenarios.throttled_tables
           !! RateLimit.ip_port_from_sockaddr (Some Scenarios.client) = Some key
      /\ key <> ""%string
      /\ RateLimit.get_key_speed_hash Scenarios.throttled_tables RateLimit.RL_DOWNLOAD !! key
         = Some policy
      /\ RateLimit.policy_age_epochs policy 101 <= 6.
Proof.
  split; [vm_compute; reflexivity |].
  destruct (C4_throttle_only_with_valid_policy Scenarios.throttled_tables
              (Some Scenarios.client) RateLimit.RL_DOWNLOAD
              {| RateLimit.tv_sec := 101; RateLimit.tv_usec := 500000 |} 7) as [Hthr _].
  destruct (Hthr ltac:(exists 0; vm_compute; reflexivity))
    as (a & key & policy & Ha & Hkey & Hne & Hpol & Hage & _).
  exists a, key, policy. repeat split; assumption.
Defined.

(** ** flt_weir.c: limit-share updates *)

Section IngestShare.
Import RateLimit FltWeir IngestRuns.
Context {freq_ctr : Type} `{FreqCtr freq_ctr}.

Lemma addressed_to_dec (conf : weir_filter_config freq_ctr) (user_key : string)
    (dir : DataDirection) (c : ingest_call) :
  {addressed_to conf user_key dir c} + {~ addressed_to conf user_key dir c}.
Proof.
  unfold addressed_to.
  destruct (string_dec (call_instance c) (instance_id conf));
    destruct (string_dec (call_user_key c) user_key);
    destruct (string_dec (call_direction c) (direction_name dir)); tauto.
Qed.

Lemma ingest_keeps_filter (conf : weir_filter_config freq_ctr) (c : ingest_call) :
  exists conf', ingest (Some conf) c = Some conf' /\ instance_id conf' = instance_id conf.
Proof.
  unfold ingest, weir_ingest_limit_share_update.
  destruct (negb (String.eqb (instance_id conf) (call_instance c))).
  - exists conf. split; reflexivity.
  - destruct (String.eqb (call_direction c) "up");
      [| destruct (String.eqb (call_direction c) "dwn")];
      cbn; eexists; split; reflexivity.
Qed.

Lemma stored_ingest_addressed (conf : weir_filter_config freq_ctr) (user_key : string)
    (dir : DataDirection) (c : ingest_call) :
  addressed_to conf user_key dir c ->
  stored (ingest (Some conf) c) user_key dir
  = store_share (stored (Some conf) user_key dir) (call_timestamp c)
      (clamp_share (call_share c)).
Proof.
  intros (Hinst & Huser & Hdir).
  unfold ingest, weir_ingest_limit_share_update, stored, clamp_share.
  rewrite Hinst, String.eqb_refl, Huser, Hdir. cbn [negb].
  assert (Hclamp : (if UINT_MAX <? call_share c then UINT_MAX else call_share c)
                   = Z.min (call_share c) UINT_MAX).
  { destruct (Z.ltb_spec UINT_MAX (call_share c)); lia. }
  rewrite Hclamp.
  destruct dir; cbn; rewrite lookup_insert_eq;
    destruct (user_limit_state conf !! user_key); reflexivity.
Qed.

Lemma stored_ingest_other (conf : weir_filter_config freq_ctr) (user_key : string)
    (dir : DataDirection) (c : ingest_call) :
  ~ addressed_to conf user_key dir c ->
  stored (ingest (Some conf) c) user_key dir = stored (Some conf) user_key dir.
Proof.
  intros Hother.
  unfold ingest, weir_ingest_limit_share_update, stored.
  destruct (String.eqb_spec (instance_id conf) (call_instance c)) as [Hinst | Hinst];
    [| reflexivity].
  cbn [negb].
  destruct (string_dec (call_user_key c) user_key) as [Huser | Huser].
  - subst user_key.
    assert (Hdir : call_direction c <> direction_name dir).
    { intros Hdir. apply Hother. unfold addressed_to. auto. }
    destruct (String.eqb_spec (call_direction c) "up") as [Hup | Hup];
      [| destruct (String.eqb_spec (call_direction c) "dwn") as [Hdwn | Hdwn]];
      cbn; rewrite lookup_insert_eq;
      destruct dir; cbn in Hdir; try congruence;
      destruct (user_limit_state conf !! call_user_key c); reflexivity.
  - destruct (String.eqb (call_direction c) "up");
      [| destruct (String.eqb (call_direction c) "dwn")];
      cbn; rewrite lookup_insert_ne by exact Huser; reflexivity.
Qed.

Lemma addressed_to_same_instance (conf conf' : weir_filter_config freq_ctr)
    (user_key : string) (dir : DataDirection) (c : ingest_call) :
  instance_id conf' = instance_id conf ->
  addressed_to conf' user_key dir c <-> addressed_to conf user_key dir c.
Proof. unfold addressed_to. intros ->. tauto. Qed.

(** What a run of calls leaves in one record, started from any state. *)
Lemma ingest_all_latest (calls : list ingest_call) :
  forall (conf : weir_filter_config freq_ctr) (user_key : string) (dir : DataDirection),
    let start := stored (Some conf) user_key dir in
    let final := stored (ingest_all (Some conf) calls) user_key dir in
    (limit_timestamp final = limit_timestamp start
     /\ bytes_per_second final = bytes_per_second start
     /\ forall c, c ∈ calls -> addressed_to conf user_key dir c ->
                  call_timestamp c < limit_timestamp start)
    \/ (exists before c after,
           calls = before ++ c :: after
           /\ addressed_to conf user_key dir c
           /\ limit_timestamp start <= call_timestamp c
           /\ (forall c', c' ∈ before -> addressed_to conf user_key dir c' ->
                          call_timestamp c' <= call_timestamp c)
           /\ (forall c', c' ∈ after -> addressed_to conf user_key dir c' ->
                          call_timestamp c' < call_timestamp c)
           /\ limit_timestamp final = call_timestamp c
           /\ bytes_per_second final = clamp_share (call_share c)).
Proof.
  induction calls as [| c0 rest IH]; intros conf user_key dir start final.
  - left. subst start final. cbn. split_and!; try reflexivity.
    intros c Hc. inversion Hc.
  - destruct (ingest_keeps_filter conf c0) as (conf1 & Hstep & Hinst).
    assert (Hfinal : final = stored (ingest_all (Some conf1) rest) user_key dir).
    { subst final. unfold ingest_all. cbn [fold_left]. rewrite Hstep. reflexivity. }
    specialize (IH conf1 user_key dir). cbn zeta in IH. rewrite <- Hfinal in IH.
    assert (Hadd : forall c, addressed_to conf user_key dir c
                             -> addressed_to conf1 user_key dir c).
    { intros c. apply (proj2 (addressed_to_same_instance conf conf1 user_key dir c Hinst)). }
    assert (Hadd' : forall c, addressed_to conf1 user_key dir c
                              -> addressed_to conf user_key dir c).
    { intros c. apply (proj1 (addressed_to_same_instance conf conf1 user_key dir c Hinst)). }
    destruct (addressed_to_dec conf user_key dir c0) as [Hc0 | Hc0].
    + (* the first call is for this record *)
      assert (Hstored : stored (Some conf1) user_key dir
                        = store_share start (call_timestamp c0) (clamp_share (call_share c0))).
      { rewrite <- Hstep. apply stored_ingest_addressed. exact Hc0. }
      rewrite Hstored in IH. unfold store_share in IH.
      destruct (Z.leb_spec (limit_timestamp start) (call_timestamp c0)) as [Hnew | Hold];
        cbn [limit_timestamp bytes_per_second] in IH.
      * right.
        destruct IH as [(Hts & Hbps & Hrest)
                       | (before & c & after & Heq & Hc & Hge & Hbefore & Hafter & Hts & Hbps)].
        -- exists [], c0, rest. split_and!; try assumption; try reflexivity.
           ++ intros c' Hc'. inversion Hc'.
           ++ intros c' Hc' Haddr. apply Hrest; [exact Hc' | apply Hadd; exact Haddr].
        -- exists (c0 :: before), c, after. subst rest.
           split_and!; try assumption; try reflexivity.
           ++ apply Hadd'. exact Hc.
           ++ lia.
           ++ intros c' Hc' Haddr. apply elem_of_cons in Hc' as [-> | Hc'].
              ** exact Hge.
              ** apply Hbefore; [exact Hc' | apply Hadd; exact Haddr].
           ++ intros c' Hc' Haddr. apply Hafter; [exact Hc' | apply Hadd; exact Haddr].
      * destruct IH as [(Hts & Hbps & Hrest)
                       | (before & c & after & Heq & Hc & Hge & Hbefore & Hafter & Hts & Hbps)].
        -- left. split_and!; try assumption.
           intros c' Hc' Haddr. apply elem_of_cons in Hc' as [-> | Hc'].
           ++ exact Hold.
           ++ apply Hrest; [exact Hc' | apply Hadd; exact Haddr].
        -- right. exists (c0 :: before), c, after. subst rest.
           split_and!; try assumption; try reflexivity.
           ++ apply Hadd'. exact Hc.
           ++ intros c' Hc' Haddr. apply elem_of_cons in Hc' as [-> | Hc'].
              ** lia.
              ** apply Hbefore; [exact Hc' | apply Hadd; exact Haddr].
           ++ intros c' Hc' Haddr. apply Hafter; [exact Hc' | apply Hadd; exact Haddr].
    + (* the first call is for another record or another instance *)
      assert (Hstored : stored (Some conf1) user_key dir = start).
      { rewrite <- Hstep. apply stored_ingest_other. exact Hc0. }
      rewrite Hstored in IH.
      destruct IH as [(Hts & Hbps & Hrest)
                     | (before & c & after & Heq & Hc & Hge & Hbefore & Hafter & Hts & Hbps)].
      * left. split_and!; try assumption.
        intros c' Hc' Haddr. apply elem_of_cons in Hc' as [-> | Hc'].
        -- contradiction.
        -- apply Hrest; [exact Hc' | apply Hadd; exact Haddr].
      * right. exists (c0 :: before), c, after. subst rest.
        split_and!; try assumption; try reflexivity.
        -- apply Hadd'. exact Hc.
        -- intros c' Hc' Haddr. apply elem_of_cons in Hc' as [-> | Hc'].
           ++ contradiction.
           ++ apply Hbefore; [exact Hc' | apply Hadd; exact Haddr].
        -- intros c' Hc' Haddr. apply Hafter; [exact Hc' | apply Hadd; exact Haddr].
Qed.

(** The share cap is kept by every call. *)
Lemma ingest_keeps_cap (conf : weir_filter_config freq_ctr) (user_key : string)
    (dir : DataDirection) (c : ingest_call) :
  bytes_per_second (stored (Some conf) user_key dir) <= UINT_MAX ->
  bytes_per_second (stored (ingest (Some conf) c) user_key dir) <= UINT_MAX.
Proof.
  intros Hcap.
  destruct (addressed_to_dec conf user_key dir c) as [Hc | Hc].
  - rewrite stored_ingest_addressed by exact Hc. unfold store_share, clamp_share.
    destruct (limit_timestamp (stored (Some conf) user_key dir) <=? call_timestamp c);
      cbn [bytes_per_second]; lia.
  - rewrite stored_ingest_other by exact Hc. exact Hcap.
Qed.

Lemma ingest_all_keeps_cap (calls : list ingest_call) :
  forall (conf : weir_filter_config freq_ctr) (user_key : string) (dir : DataDirection),
    bytes_per_second (stored (Some conf) user_key dir) <= UINT_MAX ->
    bytes_per_second (stored (ingest_all (Some conf) calls) user_key dir) <= UINT_MAX.
Proof.
  induction calls as [| c0 rest IH]; intros conf user_key dir Hcap; [exact Hcap |].
  destruct (ingest_keeps_filter conf c0) as (conf1 & Hstep & _).
  unfold ingest_all. cbn [fold_left]. rewrite Hstep. apply IH.
  rewrite <- Hstep. apply ingest_keeps_cap. exact Hcap.
Qed.

(** C5.  Starting from a record that has not received a share yet, a
    sequence of limit-share updates leaves in the record of a user and
    direction the share of the update with the greatest timestamp among
    those addressed to it (the last one among equals), clamped to 2^32-1.
    One update with a timestamp below the stored one changes neither the
    share nor the timestamp; one with an equal or greater timestamp
    overwrites both.  The stored share never exceeds 2^32-1. *)
Theorem C5_ingest_share_latest_wins (conf : weir_filter_config freq_ctr)
    (calls : list ingest_call) (user_key : string) (dir : DataDirection) :
  limit_timestamp (stored (Some conf) user_key dir) = 0 ->
  bytes_per_second (stored (Some conf) user_key dir) <= UINT_MAX ->
  Forall (fun c => 0 <= call_timestamp c) calls ->
  let final := stored (ingest_all (Some conf) calls) user_key dir in
  (Exists (addressed_to conf user_key dir) calls ->
   exists before c after,
     calls = before ++ c :: after
     /\ addressed_to conf user_key dir c
     /\ (forall c', c' ∈ before -> addressed_to conf user_key dir c' ->
                    call_timestamp c' <= call_timestamp c)
     /\ (forall c', c' ∈ after -> addressed_to conf user_key dir c' ->
                    call_timestamp c' < call_timestamp c)
     /\ limit_timestamp final = call_timestamp c
     /\ bytes_per_second final = Z.min (call_share c) (2 ^ 32 - 1))
  /\ (forall k,
        bytes_per_second (stored (ingest_all (Some conf) (take k calls)) user_key dir)
        <= 2 ^ 32 - 1)
  /\ (forall (conf' : weir_filter_config freq_ctr) (c : ingest_call),
        addressed_to conf' user_key dir c ->
        let old := stored (Some conf') user_key dir in
        let new := stored (ingest (Some conf') c) user_key dir in
        (call_timestamp c < limit_timestamp old ->
         bytes_per_second new = bytes_per_second old
         /\ limit_timestamp new = limit_timestamp old)
        /\ (limit_timestamp old <= call_timestamp c ->
            bytes_per_second new = Z.min (call_share c) (2 ^ 32 - 1)
            /\ limit_timestamp new = call_timestamp c)).
Proof.
  intros Hfresh Hcap Hts final. split; [| split].
  - intros Hex.
    destruct (ingest_all_latest calls conf user_key dir)
      as [(_ & _ & Hnone) | (before & c & after & Heq & Hc & _ & Hbefore & Hafter & Hfts & Hbps)].
    + exfalso. apply Exists_exists in Hex as (c & Hin & Hc).
      rewrite Forall_forall in Hts.
      specialize (Hts c Hin).
      specialize (Hnone c Hin Hc). lia.
    + exists before, c, after. split_and!; assumption.
  - intros k. apply ingest_all_keeps_cap. exact Hcap.
  - intros conf' c Hc old new. subst old new.
    rewrite stored_ingest_addressed by exact Hc. unfold store_share, clamp_share.
    split; intros Hcmp.
    + destruct (Z.leb_spec (limit_timestamp (stored (Some conf') user_key dir))
                  (call_timestamp c)); [lia |]. split; reflexivity.
    + destruct (Z.leb_spec (limit_timestamp (stored (Some conf') user_key dir))
                  (call_timestamp c)); [| lia]. split; reflexivity.
Qed.

End IngestShare.

(** *** A run of limit-share updates *)

Example ingest_run_final :
  let final := IngestRuns.stored (IngestRuns.ingest_all (Some IngestRuns.fresh_filter)
                                    IngestRuns.four_calls) "u" RateLimit.RL_UPLOAD in
  FltWeir.limit_timestamp final = 5 /\ FltWeir.bytes_per_second final = 4294967295.
Proof. vm_compute. split; reflexivity. Qed.

Lemma C5_witness :
  FltWeir.limit_timestamp
    (IngestRuns.stored (Some IngestRuns.fresh_filter) "u" RateLimit.RL_UPLOAD) = 0
  /\ Exists (IngestRuns.addressed_to IngestRuns.fresh_filter "u" RateLimit.RL_UPLOAD)
        IngestRuns.four_calls
  /\ exists before c after,
      IngestRuns.four_calls = before ++ c :: after
      /\ FltWeir.bytes_per_second
           (IngestRuns.stored (IngestRuns.ingest_all (Some IngestRuns.fresh_filter)
                                 IngestRuns.four_calls) "u" RateLimit.RL_UPLOAD)
         = Z.min (IngestRuns.call_share c) (2 ^ 32 - 1).
Proof.
  assert (Hex : Exists (IngestRuns.addressed_to IngestRuns.fresh_filter "u" RateLimit.RL_UPLOAD)
                  IngestRuns.four_calls).
  { apply Exists_cons_hd. repeat split; reflexivity. }
  split; [reflexivity |]. split; [exact Hex |].
  destruct (C5_ingest_share_latest_wins IngestRuns.fresh_filter IngestRuns.four_calls
              "u" RateLimit.RL_UPLOAD) as (Hlatest & _ & _).
  - reflexivity.
  - vm_compute. discriminate.
  - repeat constructor; vm_compute; discriminate.
  - destruct (Hlatest Hex) as (before & c & after & Heq & _ & _ & _ & _ & Hbps).
    exists before, c, after. split; assumption.
Defined.

(** ** flt_weir.c: the bandwidth algorithm *)

Lemma ceil_div_formula (a b : Z) : 0 < b -> BandwidthSpec.ceil_div a b = (a + b - 1) / b.
Proof.
  intros Hb. unfold BandwidthSpec.ceil_div.
  pose proof (Z.div_mod (- a) b ltac:(lia)) as Hdm.
  pose proof (Z.mod_pos_bound (- a) b Hb) as Hmod.
  apply Z.div_unique with (r := a + b - 1 + b * ((- a) / b)); [left |]; lia.
Qed.

Section Bandwidth.
Import FltWeir BandwidthSpec.
Context {freq_ctr : Type} `{FreqCtr freq_ctr}.

(** The algorithm agrees with its description when no C value wraps. *)
Lemma apply_bandwidth_limit_refines (ctr : freq_ctr) (limit requests bytes_available : Z) :
  let overshoot := freq_ctr_overshoot_period ctr 1000 limit in
  let quota := freq_ctr_remain_period ctr 1000 limit 0 in
  let forward := Z.min bytes_available (ceil_div quota requests) in
  1 <= requests < 2 ^ 31 ->
  0 <= limit < 2 ^ 32 ->
  0 <= bytes_available < 2 ^ 31 ->
  - 2 ^ 31 <= overshoot < 2 ^ 31 ->
  (0 < overshoot -> 0 < limit -> overshoot * 1000 * requests < 2 ^ 32 * limit) ->
  (overshoot <= 0 -> 0 <= quota /\ quota + requests - 1 < 2 ^ 32) ->
  (overshoot <= 0 ->
   0 <= next_event_delay_period (update_freq_ctr_period ctr 1000 forward) 1000 limit 0) ->
  apply_bandwidth_limit ctr limit requests bytes_available
  = apply_bandwidth_spec ctr limit requests bytes_available.
Proof.
  intros overshoot quota forward Hreq Hlimit Hbytes Hover Hwait Hquota Hdelay.
  unfold apply_bandwidth_limit, apply_bandwidth_spec.
  fold overshoot. rewrite (s32_small overshoot) by exact Hover.
  destruct (Z.ltb_spec 0 overshoot) as [Hpos | Hneg].
  - (* over the limit *)
    f_equal. f_equal.
    destruct (Z.ltb_spec 0 limit) as [Hl | Hl]; destruct (Z.eqb_spec limit 0) as [E | E];
      try lia.
    + specialize (Hwait Hpos Hl).
      assert (Hprod : 0 <= overshoot * 1000 * requests < 2 ^ 64) by nia.
      rewrite (u64_small overshoot) by lia.
      rewrite (u64_small (overshoot * 1000)) by lia.
      rewrite (u64_small requests) by lia.
      rewrite (u64_small (overshoot * 1000 * requests)) by exact Hprod.
      unfold div64_32.
      rewrite (u64_small (overshoot * 1000 * requests)) by exact Hprod.
      rewrite (u32_small limit) by exact Hlimit.
      assert (Hq : 0 <= overshoot * 1000 * requests / limit < 2 ^ 32).
      { split; [apply Z.div_pos; lia | apply Z.div_lt_upper_bound; lia]. }
      rewrite (u32_small _ Hq). rewrite MIN_is_min. apply s32_small.
      change (2 * 1000) with 2000. lia.
    + reflexivity.
  - (* within the limit *)
    fold quota. destruct (Hquota Hneg) as [Hq0 Hq1].
    rewrite ceil_div_formula by lia.
    assert (Hper : 0 <= (quota + requests - 1) / requests < 2 ^ 32).
    { split; [apply Z.div_pos; lia | apply Z.div_lt_upper_bound; nia]. }
    rewrite (u32_small quota) by lia.
    rewrite (u32_small (quota + requests - 1)) by lia.
    unfold div64_32.
    rewrite (u64_small (quota + requests - 1)) by lia.
    rewrite (u32_small requests) by lia.
    rewrite (u32_small _ Hper).
    rewrite (s32_small bytes_available) by lia.
    rewrite (u32_small bytes_available) by lia.
    rewrite MIN_is_min.
    set (fwd := Z.min bytes_available ((quota + requests - 1) / requests)).
    assert (Hfwd : 0 <= fwd < 2 ^ 31) by (subst fwd; lia).
    rewrite (s32_small fwd) by lia. rewrite (u32_small fwd) by lia.
    f_equal. f_equal.
    destruct (Z.ltb_spec fwd bytes_available) as [Hless | _]; [| reflexivity].
    rewrite MIN_is_min. apply s32_small.
    specialize (Hdelay Hneg). subst forward. rewrite ceil_div_formula in Hdelay by lia.
    fold fwd in Hdelay. change (2 * 1000) with 2000. lia.
Qed.

(** C2: the code where the share is at its cap.  The ingest clamps a share
    to 2^32-1.  With that share as the remaining quota of an idle user and
    two or more requests on the limit, [quota + requests - 1] is computed
    in [unsigned int] and wraps to [requests - 2] before it is widened for
    the division, so that the share of each request is 0: nothing is
    forwarded, whatever is available, and the counter is updated with 0
    bytes.  The description divides the quota evenly and forwards
    [min(bytes_available, ceil((2^32-1) / requests))], which is at least
    [min(bytes_available, 3)]. *)
Theorem C2_even_share_wraps_at_the_cap (ctr : freq_ctr) (limit requests bytes_available : Z) :
  - 2 ^ 31 <= freq_ctr_overshoot_period ctr 1000 limit <= 0 ->
  freq_ctr_remain_period ctr 1000 limit 0 = UINT_MAX ->
  2 <= requests < 2 ^ 31 ->
  0 <= bytes_available < 2 ^ 31 ->
  bytes_to_forward (apply_bandwidth_limit ctr limit requests bytes_available).2 = 0
  /\ (apply_bandwidth_limit ctr limit requests bytes_available).1
     = update_freq_ctr_period ctr 1000 0
  /\ bytes_to_forward (apply_bandwidth_spec ctr limit requests bytes_available).2
     = Z.min bytes_available (ceil_div UINT_MAX requests)
  /\ Z.min bytes_available 3
     <= bytes_to_forward (apply_bandwidth_spec ctr limit requests bytes_available).2.
Proof.
  intros Hover Hquota Hreq Hbytes.
  assert (Hshare : div64_32 (u32 (u32 UINT_MAX + requests - 1)) requests = 0).
  { unfold div64_32, UINT_MAX. rewrite (u32_small (2 ^ 32 - 1)) by lia.
    replace (u32 (2 ^ 32 - 1 + requests - 1)) with (requests - 2).
    - rewrite (u64_small (requests - 2)) by lia. rewrite (u32_small requests) by lia.
      rewrite Z.div_small by lia. reflexivity.
    - unfold u32. apply Z.mod_unique with (q := 1); [left |]; lia. }
  assert (Hforward : s32 (MIN (u32 (s32 bytes_available)) 0) = 0).
  { rewrite (s32_small bytes_available) by lia. rewrite (u32_small bytes_available) by lia.
    rewrite MIN_is_min. replace (Z.min bytes_available 0) with 0 by lia. reflexivity. }
  assert (Hceil : 3 <= ceil_div UINT_MAX requests).
  { rewrite ceil_div_formula by lia. unfold UINT_MAX.
    apply Z.div_le_lower_bound; lia. }
  unfold apply_bandwidth_limit, apply_bandwidth_spec.
  rewrite (s32_small (freq_ctr_overshoot_period ctr 1000 limit)) by lia.
  destruct (Z.ltb_spec 0 (freq_ctr_overshoot_period ctr 1000 limit)) as [Hpos | _]; [lia |].
  rewrite Hquota, Hshare, Hforward. cbn [fst snd bytes_to_forward].
  split_and!; [reflexivity | reflexivity | reflexivity | lia].
Qed.

End Bandwidth.

(** The algorithm on the two examples of its description: an empty counter
    with limit 1000, one request and 200 bytes gives (forward 200, wait 0);
    a counter holding 1200 bytes with limit 1000, two requests and 500
    bytes gives (forward 0, wait 400). *)
Example apply_bandwidth_limit_examples :
  FltWeir.apply_bandwidth_limit {| WindowCtr.admitted := 0 |} 1000 1 200
  = ({| WindowCtr.admitted := 200 |},
     {| FltWeir.wait_ms := 0; FltWeir.bytes_to_forward := 200 |})
  /\ FltWeir.apply_bandwidth_limit {| WindowCtr.admitted := 1200 |} 1000 2 500
     = ({| WindowCtr.admitted := 1200 |},
        {| FltWeir.wait_ms := 400; FltWeir.bytes_to_forward := 0 |}).
Proof. split; vm_compute; reflexivity. Qed.

(** The failing input: an idle user whose share is 2^32-1, two requests,
    200 bytes available.  The code forwards nothing and the description
    forwards the 200 bytes. *)
Lemma C2_witness :
  FltWeir.bytes_to_forward
    (FltWeir.apply_bandwidth_limit {| WindowCtr.admitted := 0 |} 4294967295 2 200).2 = 0
  /\ FltWeir.bytes_to_forward
       (BandwidthSpec.apply_bandwidth_spec {| WindowCtr.admitted := 0 |} 4294967295 2 200).2
     = 200.
Proof.
  destruct (C2_even_share_wraps_at_the_cap (freq_ctr := WindowCtr.window_ctr)
              {| WindowCtr.admitted := 0 |} 4294967295 2 200)
    as (Hcode & _ & Hspec & _).
  - vm_compute. split; discriminate.
  - vm_compute. reflexivity.
  - lia.
  - lia.
  - split; [exact Hcode |]. rewrite Hspec. vm_compute. reflexivity.
Defined.

(** The wait is computed with [div64_32], whose result has 32 bits: an
    overshoot of 2^30 bytes against a limit of 1000 with four requests gives a
    quotient of 2^32, which is returned as 0. *)
Example wait_quotient_wraps :
  FltWeir.wait_ms
    (FltWeir.apply_bandwidth_limit {| WindowCtr.admitted := 2 ^ 30 + 1000 |} 1000 4 500).2 = 0
  /\ FltWeir.wait_ms
       (BandwidthSpec.apply_bandwidth_spec {| WindowCtr.admitted := 2 ^ 30 + 1000 |} 1000 4 500).2
     = 2000.
Proof. split; vm_compute; reflexivity. Qed.

(** ** flt_weir.c: the payload hook *)

Section Payload.
Import RateLimit FltWeir.
Context {freq_ctr : Type} `{FreqCtr freq_ctr}.
Context {float : Type} `{CFloat float}.

(** On an unthrottled chunk the hook forwards the whole chunk and leaves
    the user's record, its frequency counter included, as it was. *)
Lemma weir_http_payload_unthrottled (env : payload_env float) (st : weir_lim_state)
    (lim : user_limit freq_ctr) (is_request : bool) (analyse_exp len : Z) (a : sockaddr_in)
    (dir_name : string) :
  enabled st = true ->
  remote_addr st = Some a ->
  bandwidth_limit_direction st = Some dir_name ->
  0 < len ->
  tick_isset (next_allowed_send_tick st) = false
  \/ tick_is_expired (next_allowed_send_tick st) (env_now_ms env) = true ->
  (exists slept,
      rl_speed_throttle (env_tables env) (Some a)
        (if is_request then RL_UPLOAD else RL_DOWNLOAD)
        (env_current_time env) (env_random32 env) = Some (RL_NO_THROTTLE, slept)) ->
  exists r,
    weir_http_payload env st (Some lim) is_request analyse_exp len = Some r
    /\ res_bytes_to_forward r = s32 len
    /\ res_limit r = Some lim.
Proof.
  intros Hen Haddr Hdir Hlen Htick [slept Hno].
  unfold weir_http_payload. rewrite Hen, Haddr. cbn [negb].
  assert (Hcond : (0 <? len)
                  && (negb (tick_isset (next_allowed_send_tick st))
                      || tick_is_expired (next_allowed_send_tick st) (env_now_ms env)) = true).
  { apply andb_true_intro. split; [apply Z.ltb_lt; exact Hlen |].
    destruct Htick as [-> | ->]; [reflexivity | apply orb_true_r]. }
  rewrite Hcond. cbn [set_next_allowed_send_tick bandwidth_limit_direction remote_addr].
  rewrite Hdir, Haddr, Hno.
  eexists. split; [reflexivity |]. split; reflexivity.
Qed.

End Payload.

(** C1: the code at the failing input.  The chunk of 16384 bytes meets every
    condition of the claim (IPv4 source, tick unset, no throttle).  The
    bandwidth algorithm grants 500 bytes for it and would record them in the
    counter; the payload hook forwards all 16384 bytes, reports them in the
    [data_xfer] line, and leaves the counter empty. *)
Theorem C1_payload_forwards_whole_chunk :
  RateLimit.rl_speed_throttle PayloadRun.mapped_tables (Some Scenarios.client)
    RateLimit.RL_DOWNLOAD {| RateLimit.tv_sec := 100; RateLimit.tv_usec := 250000 |} 7
  = Some (RateLimit.RL_NO_THROTTLE, 0)
  /\ FltWeir.bytes_to_forward PayloadRun.granted.2 = 500
  /\ PayloadRun.granted.1 = {| WindowCtr.admitted := 500 |}
  /\ exists r,
      FltWeir.weir_http_payload PayloadRun.env PayloadRun.stream (Some PayloadRun.limit_of_u)
        false TICK_ETERNITY PayloadRun.chunk_len = Some r
      /\ FltWeir.res_bytes_to_forward r = 16384
      /\ FltWeir.res_limit r = Some PayloadRun.limit_of_u
      /\ FltWeir.counter (FltWeir.download PayloadRun.limit_of_u) = {| WindowCtr.admitted := 0 |}
      /\ FltWeir.res_lines r
         = [FltWeir.LineDataXfer
              {| RateLimit.xfer_addr := Scenarios.client; RateLimit.xfer_key := "u";
                 RateLimit.xfer_direction := "dwn"; RateLimit.xfer_done := 16384 |}].
Proof.
  split; [vm_compute; reflexivity |].
  split; [vm_compute; reflexivity |]. split; [vm_compute; reflexivity |].
  eexists. split; [vm_compute; reflexivity |].
  split; [reflexivity |]. split; [reflexivity |]. split; reflexivity.
Qed.

(** ** stringsplit.cpp *)

Section Splitter.
Import StringSplit SplitterStates.
Local Open Scope nat_scope.

Variable d : string_view.
Hypothesis d_not_empty : d <> [].

Lemma starts_with_length (l : string_view) :
  starts_with d l = true -> length d <= length l.
Proof.
  clear d_not_empty. revert l.
  induction d as [| a d' IH]; intros l Hst; cbn; [lia |].
  destruct l as [| b l']; cbn in Hst; [discriminate |].
  apply andb_true_iff in Hst as [_ Hst]. specialize (IH l' Hst). cbn. lia.
Qed.

Lemma find_first_within (l : string_view) (k : nat) :
  find_first d l = Some k -> k + length d <= length l.
Proof.
  revert k. induction l as [| a l' IH]; intros k Hfind; cbn in Hfind.
  - destruct (starts_with d []) eqn:Hst; [| discriminate].
    inversion Hfind; subst. apply starts_with_length in Hst. lia.
  - destruct (starts_with d (a :: l')) eqn:Hst.
    + inversion Hfind; subst. apply starts_with_length in Hst. lia.
    + destruct (find_first d l') as [k' |] eqn:Hrec; [| discriminate].
      inversion Hfind; subst. specialize (IH k' eq_refl). cbn. lia.
Qed.

Lemma find_first_nil : find_first d [] = None.
Proof. destruct d; [contradiction | reflexivity]. Qed.

(** *** The reference split *)

Lemma fields_fuel_enough (f : nat) :
  forall (f' : nat) (l : string_view),
    length l <= f -> length l <= f' -> fields_fuel f d l = fields_fuel f' d l.
Proof.
  induction f as [| f IH]; intros f' l Hf Hf'.
  - assert (l = []) by (apply nil_length_inv; lia). subst l.
    destruct f'; cbn [fields_fuel]; [reflexivity |]. rewrite find_first_nil. reflexivity.
  - destruct f' as [| f'].
    + assert (l = []) by (apply nil_length_inv; lia). subst l.
      cbn [fields_fuel]. rewrite find_first_nil. reflexivity.
    + cbn [fields_fuel]. destruct (find_first d l) as [k |] eqn:Hfind; [| reflexivity].
      f_equal. pose proof (find_first_within l k Hfind) as Hin.
      assert (0 < length d) by (destruct d; [contradiction | cbn; lia]).
      apply IH; rewrite length_drop; lia.
Qed.

Lemma delimited_fields_unfold (l : string_view) :
  delimited_fields d l
  = match find_first d l with
    | None => [l]
    | Some k => take k l :: delimited_fields d (drop (k + length d) l)
    end.
Proof.
  unfold delimited_fields.
  destruct l as [| a l'].
  - cbn [length fields_fuel]. rewrite find_first_nil. reflexivity.
  - cbn [length fields_fuel].
    destruct (find_first d (a :: l')) as [k |] eqn:Hfind; [| reflexivity].
    f_equal. pose proof (find_first_within _ k Hfind) as Hin.
    assert (0 < length d) by (destruct d; [contradiction | cbn; lia]).
    apply fields_fuel_enough; [rewrite length_drop; cbn [length] in *; lia | lia].
Qed.

Lemma delimited_fields_not_nil (l : string_view) : delimited_fields d l <> [].
Proof. rewrite delimited_fields_unfold. destruct (find_first d l); discriminate. Qed.

Lemma delimited_fields_length (l : string_view) : 1 <= length (delimited_fields d l).
Proof.
  pose proof (delimited_fields_not_nil l).
  destruct (delimited_fields d l); [contradiction | cbn; lia].
Qed.

(** Only the empty line consists of one empty field. *)
Lemma single_empty_field (l : string_view) :
  length (delimited_fields d l) = 1 /\ last (delimited_fields d l) = Some [] <-> l = [].
Proof.
  rewrite delimited_fields_unfold. split.
  - intros [Hlen Hlast]. destruct (find_first d l) as [k |] eqn:Hfind.
    + cbn in Hlen. pose proof (delimited_fields_length (drop (k + length d) l)). lia.
    + cbn in Hlast. congruence.
  - intros ->. rewrite find_first_nil. split; reflexivity.
Qed.

(** *** The splitter, call by call *)

Lemma nexts_succ (n : nat) (s : StringSplit.t) :
  nexts (S n) s = ((next s).1 :: (nexts n (next s).2).1, (nexts n (next s).2).2).
Proof.
  cbn [nexts]. destruct (next s) as [tok s1]. cbn [fst snd].
  destruct (nexts n s1) as [toks s2]. reflexivity.
Qed.

Lemma next_failed (s : StringSplit.t) : m_error s = true -> next s = ([], s).
Proof. intros Herr. unfold next. rewrite Herr. reflexivity. Qed.

Lemma nexts_failed (n : nat) (s : StringSplit.t) :
  m_error s = true -> nexts n s = (replicate n [], s).
Proof.
  intros Herr. induction n as [| n IH]; [reflexivity |].
  rewrite nexts_succ, next_failed by exact Herr. cbn [fst snd].
  rewrite IH. reflexivity.
Qed.

(** A call after the last segment fails, and the failure stays. *)
Lemma nexts_after_eof (n : nat) (s : StringSplit.t) :
  m_eof s = true ->
  (nexts (S n) s).1 = replicate (S n) []
  /\ m_error (nexts (S n) s).2 = true
  /\ finishedSuccessfully (nexts (S n) s).2 = false.
Proof.
  intros Heof.
  assert (Hnext : (next s).1 = [] /\ m_error (next s).2 = true).
  { unfold next. destruct (m_error s) eqn:Herr; [split; [reflexivity | exact Herr] |].
    rewrite Heof. split; reflexivity. }
  destruct Hnext as [Htok Herr].
  rewrite nexts_succ, Htok, (nexts_failed n _ Herr). cbn [fst snd].
  split; [reflexivity |]. split; [exact Herr |].
  unfold finishedSuccessfully. rewrite Herr. reflexivity.
Qed.

Lemma next_at_index_last (input : string_view) (i : nat) :
  input <> [] -> i <= length input ->
  find_first d (drop i input) = None ->
  next (at_index input d i) = (drop i input, at_end input d (length input)).
Proof.
  intros Hne Hi Hfind. unfold next, at_index. cbn [m_error m_eof m_input m_delimiter m_index].
  destruct input as [| a input']; [contradiction |].
  unfold find. destruct (Nat.leb_spec i (length (a :: input'))) as [_ | Hgt]; [| lia].
  rewrite Hfind. reflexivity.
Qed.

Lemma next_at_index_more (input : string_view) (i k : nat) :
  input <> [] -> i <= length input ->
  find_first d (drop i input) = Some k ->
  next (at_index input d i)
  = (take k (drop i input), at_index input d (i + k + length d)).
Proof.
  intros Hne Hi Hfind. unfold next, at_index. cbn [m_error m_eof m_input m_delimiter m_index].
  destruct input as [| a input']; [contradiction |].
  unfold find. destruct (Nat.leb_spec i (length (a :: input'))) as [_ | Hgt]; [| lia].
  rewrite Hfind. cbn [fmap option_fmap option_map substr].
  replace (i + k - i) with k by lia. reflexivity.
Qed.

(** The splitter against the reference split, from any offset. *)
Lemma nexts_at_index (n : nat) :
  forall (input : string_view) (i : nat),
    input <> [] -> i <= length input ->
    let fs := delimited_fields d (drop i input) in
    (n <= length fs -> (nexts n (at_index input d i)).1 = take n fs)
    /\ (finishedSuccessfully (nexts n (at_index input d i)).2 = true
        <-> length fs = n \/ (length fs = S n /\ last fs = Some [])).
Proof.
  induction n as [| n IH]; intros input i Hne Hi fs.
  - split; [intros _; reflexivity |].
    cbn [nexts snd]. unfold finishedSuccessfully, at_index.
    cbn [m_error m_input m_index negb andb].
    pose proof (delimited_fields_length (drop i input)) as Hlen. fold fs in Hlen.
    pose proof (single_empty_field (drop i input)) as Hsingle. fold fs in Hsingle.
    rewrite Nat.leb_le. split.
    + intros Hge. right. apply Hsingle. apply drop_ge. exact Hge.
    + intros [Hzero | Hone]; [lia |].
      apply Hsingle in Hone. apply drop_nil_inv in Hone. exact Hone.
  - rewrite nexts_succ. cbn [fst snd].
    pose proof (delimited_fields_unfold (drop i input)) as Hunfold. fold fs in Hunfold.
    destruct (find_first d (drop i input)) as [k |] eqn:Hfind.
    + (* a delimiter follows *)
      rewrite (next_at_index_more input i k Hne Hi Hfind). cbn [fst snd].
      pose proof (find_first_within _ k Hfind) as Hin. rewrite length_drop in Hin.
      assert (Hi' : i + k + length d <= length input) by lia.
      destruct (IH input (i + k + length d) Hne Hi') as [IHtok IHfin].
      rewrite drop_drop in Hunfold.
      replace (i + (k + length d)) with (i + k + length d) in Hunfold by lia.
      set (fs' := delimited_fields d (drop (i + k + length d) input)) in *.
      pose proof (delimited_fields_not_nil (drop (i + k + length d) input)) as Hfs'.
      fold fs' in Hfs'.
      rewrite Hunfold. cbn [length]. split.
      * intros Hn. cbn [take]. rewrite IHtok by lia. reflexivity.
      * rewrite IHfin.
        assert (Hlast : last (take k (drop i input) :: fs') = last fs').
        { destruct fs' as [| x fs'']; [contradiction | reflexivity]. }
        rewrite Hlast. split; (intros [Hl | [Hl Hla]]; [left | right; split]); lia || assumption.
    + (* the last segment *)
      rewrite (next_at_index_last input i Hne Hi Hfind). cbn [fst snd].
      rewrite Hunfold. cbn [length]. split.
      * intros Hn. assert (n = 0) by lia. subst n. reflexivity.
      * destruct n as [| n].
        -- cbn [nexts snd]. unfold finishedSuccessfully, at_end.
           cbn [m_error m_input m_index negb andb]. rewrite Nat.leb_refl.
           split; [intros _; left; reflexivity | reflexivity].
        -- destruct (nexts_after_eof n (at_end input d (length input)) eq_refl)
             as (_ & _ & Hfin).
           rewrite Hfin. split; [discriminate | intros [Hl | [Hl _]]; lia].
Qed.

Lemma make_at_index (input : string_view) : make input d = at_index input d 0.
Proof. unfold make, at_index. destruct d; [contradiction | reflexivity]. Qed.

(** The splitter returns the fields of the line, in order. *)
Lemma nexts_fields (n : nat) (input : string_view) :
  n <= length (delimited_fields d input) ->
  (nexts n (make input d)).1 = take n (delimited_fields d input).
Proof.
  intros Hn. rewrite make_at_index.
  destruct input as [| a input'].
  - rewrite delimited_fields_unfold, find_first_nil in *. cbn [length] in Hn.
    destruct n as [| [| n]]; [reflexivity | reflexivity | lia].
  - apply (nexts_at_index n (a :: input') 0); [discriminate | lia | exact Hn].
Qed.

(** When the splitter reports success. *)
Lemma accepts_iff_has_fields (n : nat) (input : string_view) :
  accepts n d input = true <-> has_fields n d input.
Proof.
  unfold accepts, has_fields. rewrite make_at_index.
  destruct input as [| a input'].
  - rewrite delimited_fields_unfold, find_first_nil. cbn [length last].
    destruct n as [| [| n]].
    + cbn. split; [intros _; right; split; reflexivity | reflexivity].
    + cbn. split; [intros _; left; reflexivity | reflexivity].
    + destruct (nexts_after_eof n (at_end [] d 1) eq_refl) as (_ & _ & Hfin).
      rewrite nexts_succ.
      change (next (at_index [] d 0)) with (@nil ascii, at_end [] d 1).
      cbn [fst snd].
      rewrite Hfin. split; [discriminate | intros [Hl | [Hl _]]; lia].
  - apply (nexts_at_index n (a :: input') 0); [discriminate | lia].
Qed.

End Splitter.

(** ** msg_processor.cpp: command keys *)

Section CommandKeys.
Import MsgProcessor AggregatorRuns.

Lemma sv_eqb_eq (a b : string_view) : sv_eqb a b = true <-> a = b.
Proof. unfold sv_eqb. apply bool_decide_eq_true. Qed.

Lemma RedisCmdKey_eqb_bucket (k1 k2 : RedisCmdKey) :
  RedisCmdKey_eqb k1 k2 = true <-> bucket k1 = bucket k2.
Proof.
  unfold RedisCmdKey_eqb, bucket.
  rewrite !andb_true_iff, !sv_eqb_eq, Z.eqb_eq.
  split.
  - intros [[-> ->] ->]. reflexivity.
  - intros Heq. inversion Heq. auto.
Qed.

Lemma RedisCmdKey_eqb_refl (k : RedisCmdKey) : RedisCmdKey_eqb k k = true.
Proof. apply RedisCmdKey_eqb_bucket. reflexivity. Qed.

(** Equal keys are interchangeable in a comparison. *)
Lemma RedisCmdKey_eqb_congr (k1 k2 q : RedisCmdKey) :
  RedisCmdKey_eqb k1 k2 = true -> RedisCmdKey_eqb k1 q = RedisCmdKey_eqb k2 q.
Proof.
  intros Heq. apply RedisCmdKey_eqb_bucket in Heq.
  apply eq_true_iff_eq. rewrite !RedisCmdKey_eqb_bucket, Heq. reflexivity.
Qed.

Lemma getEpochSecs_floor (t : Z) : in_epoch_range t -> getEpochSecs t = floor_sec t.
Proof.
  unfold in_epoch_range, getEpochSecs, floor_sec, TICKS_PER_SEC. intros Ht.
  rewrite Z.quot_div_nonneg by lia.
  apply u32_small. split; [apply Z.div_pos; lia | apply Z.div_lt_upper_bound; lia].
Qed.

(** After the epoch, the same second gives the same bucket. *)
Lemma getEpochSecs_same_second (t1 t2 : Z) :
  0 <= t1 -> 0 <= t2 -> floor_sec t1 = floor_sec t2 -> getEpochSecs t1 = getEpochSecs t2.
Proof.
  unfold getEpochSecs, floor_sec, TICKS_PER_SEC. intros H1 H2 Hsec.
  rewrite !Z.quot_div_nonneg by lia. rewrite Hsec. reflexivity.
Qed.

(** After the epoch, seconds less than 2^32 apart give different buckets. *)
Lemma getEpochSecs_other_second (t1 t2 : Z) :
  0 <= t1 -> 0 <= t2 -> floor_sec t1 <> floor_sec t2 ->
  Z.abs (floor_sec t1 - floor_sec t2) < 2 ^ 32 ->
  getEpochSecs t1 <> getEpochSecs t2.
Proof.
  unfold getEpochSecs, floor_sec, TICKS_PER_SEC, u32. intros H1 H2 Hsec Hclose Heq.
  rewrite !Z.quot_div_nonneg in Heq by lia.
  set (s1 := t1 / 1000000000) in *. set (s2 := t2 / 1000000000) in *.
  pose proof (Z.div_mod s1 (2 ^ 32) ltac:(lia)) as D1.
  pose proof (Z.div_mod s2 (2 ^ 32) ltac:(lia)) as D2.
  rewrite Heq in D1.
  assert (Hq : s1 / 2 ^ 32 = s2 / 2 ^ 32 -> False) by (intros E; rewrite E in D1; lia).
  apply Hq. lia.
Qed.

(** C7, as amended.  For two keys whose time points lie between the epoch
    and 2^32 seconds after it, the keys compare equal exactly when they have
    the same user, the same category, and time points in the same second;
    and any two keys that compare equal have equal hash values. *)
Theorem C7_key_equality_by_second (hash_string : string_view -> Z) (hash_uint32 : Z -> Z)
    (k1 k2 : RedisCmdKey) :
  (in_epoch_range (m_timestamp k1) -> in_epoch_range (m_timestamp k2) ->
   (RedisCmdKey_eqb k1 k2 = true
    <-> m_user k1 = m_user k2 /\ m_cat k1 = m_cat k2
        /\ floor_sec (m_timestamp k1) = floor_sec (m_timestamp k2)))
  /\ (RedisCmdKey_eqb k1 k2 = true ->
      RedisCmdKeyHash hash_string hash_uint32 k1 = RedisCmdKeyHash hash_string hash_uint32 k2).
Proof.
  split.
  - intros Hr1 Hr2. rewrite RedisCmdKey_eqb_bucket. unfold bucket.
    rewrite (getEpochSecs_floor _ Hr1), (getEpochSecs_floor _ Hr2).
    split.
    + intros Heq. inversion Heq. auto.
    + intros (-> & -> & ->). reflexivity.
  - intros Heq. apply RedisCmdKey_eqb_bucket in Heq. unfold bucket in Heq.
    inversion Heq as [[Hu Hs Hc]]. unfold RedisCmdKeyHash. rewrite Hu, Hs, Hc. reflexivity.
Qed.

End CommandKeys.

Lemma C7_witness :
  MsgProcessor.RedisCmdKey_eqb
    (AggregatorRuns.test_key (987 * MsgProcessor.TICKS_PER_MSEC))
    (AggregatorRuns.test_key (997 * MsgProcessor.TICKS_PER_MSEC)) = true
  /\ MsgProcessor.RedisCmdKeyHash AggregatorRuns.toy_hash_string AggregatorRuns.toy_hash_uint32
       (AggregatorRuns.test_key (987 * MsgProcessor.TICKS_PER_MSEC))
     = MsgProcessor.RedisCmdKeyHash AggregatorRuns.toy_hash_string AggregatorRuns.toy_hash_uint32
         (AggregatorRuns.test_key (997 * MsgProcessor.TICKS_PER_MSEC)).
Proof.
  assert (Heq : MsgProcessor.RedisCmdKey_eqb
                  (AggregatorRuns.test_key (987 * MsgProcessor.TICKS_PER_MSEC))
                  (AggregatorRuns.test_key (997 * MsgProcessor.TICKS_PER_MSEC)) = true).
  { vm_compute. reflexivity. }
  split; [exact Heq |].
  exact (proj2 (C7_key_equality_by_second AggregatorRuns.toy_hash_string
                  AggregatorRuns.toy_hash_uint32 _ _) Heq).
Defined.

(** The unit test across a second boundary: 997 ms and 1007 ms. *)
Example keys_across_a_second_boundary :
  MsgProcessor.RedisCmdKey_eqb
    (AggregatorRuns.test_key (997 * MsgProcessor.TICKS_PER_MSEC))
    (AggregatorRuns.test_key (1007 * MsgProcessor.TICKS_PER_MSEC)) = false.
Proof. vm_compute. reflexivity. Qed.

(** C7, as stated, fails outside that range.  The seconds are compared as
    [uint32_t]: the epoch and the time point 2^32 seconds later fall in
    different seconds and compare equal.  The seconds are rounded toward
    zero: the last nanosecond before the epoch and the epoch itself fall in
    different seconds and compare equal. *)
Lemma C7_counterexample :
  (MsgProcessor.RedisCmdKey_eqb (AggregatorRuns.test_key 0)
     (AggregatorRuns.test_key (2 ^ 32 * MsgProcessor.TICKS_PER_SEC)) = true
   /\ AggregatorRuns.floor_sec 0
      <> AggregatorRuns.floor_sec (2 ^ 32 * MsgProcessor.TICKS_PER_SEC))
  /\ (MsgProcessor.RedisCmdKey_eqb (AggregatorRuns.test_key (-1)) (AggregatorRuns.test_key 0)
      = true
      /\ AggregatorRuns.floor_sec (-1) <> AggregatorRuns.floor_sec 0).
Proof.
  split; split; try (vm_compute; reflexivity); vm_compute; discriminate.
Qed.

(** ** msg_processor.cpp: flushing while the store is away *)

Section Flush.
Import MsgProcessor AggregatorRuns.



Lemma flush_due_test (p : Processor) (now : Z) :
  flush_due p now ->
  negb (m_processor_batch_flush_period p * TICKS_PER_MSEC <? now - m_last_redis_flush_time p)
  && negb (m_processor_batch_count p <=? m_qos_not_send_count p) = false.
Proof.
  intros [Htime | Hcount].
  - apply Z.ltb_lt in Htime. rewrite Htime. reflexivity.
  - apply Z.leb_le in Hcount. rewrite Hcount. apply andb_false_r.
Qed.





End Flush.

(** *** The flush of the unit test: 40 seconds after the last connect *)

Example flush_run :
  option_map
    (fun p' => (MsgProcessor.m_qos_redis_commands p',
                MsgProcessor.m_total_conns_requested (MsgProcessor.m_qos_redis_conn p'),
                MsgProcessor.m_connection_status (MsgProcessor.m_qos_redis_conn p')))
    (MsgProcessor.sendToRedisQos AggregatorRuns.buffering_processor
       (140 * MsgProcessor.TICKS_PER_SEC) (140 * MsgProcessor.TICKS_PER_SEC)
       (140 * MsgProcessor.TICKS_PER_SEC) MsgProcessor.NetAttached)
  = Some ([ ({| MsgProcessor.m_user := sv "user_AKIAIOSFODNN7EXAMPL1";
                MsgProcessor.m_timestamp := 139 * MsgProcessor.TICKS_PER_SEC;
                MsgProcessor.m_cat := sv "GET" |}, 4) ],
          2, MsgProcessor.CONNECTING).
Proof. vm_compute. reflexivity. Qed.


(** ** msg_processor.cpp: the command map *)

Section CommandMap.
Import MsgProcessor AggregatorRuns.

Lemma s32_add_s32 (a b : Z) : s32 (s32 a + b) = s32 (a + b).
Proof.
  unfold s32. cbv zeta. change (2 ^ 32) with 4294967296. change (2 ^ 31) with 2147483648.
  destruct (Z.ltb_spec (a mod 4294967296) 2147483648);
    [rewrite Zplus_mod_idemp_l; reflexivity |].
  replace ((a mod 4294967296 - 4294967296 + b) mod 4294967296)
    with ((a + b) mod 4294967296); [reflexivity |].
  rewrite <- (Zplus_mod_idemp_l a b).
  replace (a mod 4294967296 - 4294967296 + b)
    with (a mod 4294967296 + b + (-1) * 4294967296) by lia.
  rewrite Z.mod_add by lia. reflexivity.
Qed.

Lemma s32_fits (v : Z) : fits_int v -> s32 v = v.
Proof. unfold fits_int, INT_MIN, INT_MAX. intros Hv. apply s32_small. lia. Qed.

Lemma cmd_map_count_add (m : QosRedisCommandMap) (key q : RedisCmdKey) (delta : Z) :
  cmd_map_count q (cmd_map_add key delta m)
  = if RedisCmdKey_eqb key q then s32 (cmd_map_count q m + delta) else cmd_map_count q m.
Proof.
  unfold cmd_map_count. induction m as [| [k v] m IH]; cbn [cmd_map_add cmd_map_find].
  - destruct (RedisCmdKey_eqb key q); reflexivity.
  - destruct (RedisCmdKey_eqb k key) eqn:Hk; cbn [cmd_map_find].
    + rewrite <- (RedisCmdKey_eqb_congr k key q Hk).
      destruct (RedisCmdKey_eqb k q); reflexivity.
    + destruct (RedisCmdKey_eqb k q) eqn:Hq.
      * assert (Hkey : RedisCmdKey_eqb key q = false).
        { destruct (RedisCmdKey_eqb key q) eqn:E; [| reflexivity].
          apply RedisCmdKey_eqb_bucket in E, Hq.
          assert (Hcontra : RedisCmdKey_eqb k key = true)
            by (apply RedisCmdKey_eqb_bucket; congruence).
          congruence. }
        rewrite Hkey. reflexivity.
      * exact IH.
Qed.

(** The counter of an entry is an [int]: one more than 2147483647 is
    stored as -2147483648. *)
Example cmd_map_add_wraps :
  cmd_map_count (test_key 0) (cmd_map_add (test_key 0) 1 [(test_key 0, 2147483647)])
  = -2147483648.
Proof. vm_compute. reflexivity. Qed.

Lemma cmd_map_add_length (m : QosRedisCommandMap) (key : RedisCmdKey) (delta : Z) :
  length (cmd_map_add key delta m)
  = match cmd_map_find key m with
    | Some _ => length m
    | None => S (length m)
    end.
Proof.
  induction m as [| [k v] m IH]; cbn [cmd_map_add cmd_map_find]; [reflexivity |].
  destruct (RedisCmdKey_eqb k key); cbn [length]; [reflexivity |].
  rewrite IH. destruct (cmd_map_find key m); reflexivity.
Qed.

Lemma cmd_map_find_add (m : QosRedisCommandMap) (key q : RedisCmdKey) (delta : Z) :
  RedisCmdKey_eqb key q = true -> is_Some (cmd_map_find q (cmd_map_add key delta m)).
Proof.
  intros Hq. induction m as [| [k v] m IH]; cbn [cmd_map_add cmd_map_find].
  - rewrite Hq. eexists. reflexivity.
  - destruct (RedisCmdKey_eqb k key) eqn:Hk; cbn [cmd_map_find].
    + rewrite (RedisCmdKey_eqb_congr k key q Hk), Hq. eexists. reflexivity.
    + destruct (RedisCmdKey_eqb k q); [eexists; reflexivity | exact IH].
Qed.

Lemma cmd_map_find_add_other (m : QosRedisCommandMap) (key q : RedisCmdKey) (delta : Z) :
  RedisCmdKey_eqb key q = false ->
  cmd_map_find q m = None -> cmd_map_find q (cmd_map_add key delta m) = None.
Proof.
  intros Hq. induction m as [| [k v] m IH]; cbn [cmd_map_add cmd_map_find].
  - intros _. rewrite Hq. reflexivity.
  - destruct (RedisCmdKey_eqb k q) eqn:Hkq; [discriminate |]. intros Hnone.
    destruct (RedisCmdKey_eqb k key); cbn [cmd_map_find]; rewrite Hkq; auto.
Qed.

(** ** msg_processor.cpp: parsing events *)

Lemma DELIMITER_not_empty : DELIMITER <> [].
Proof. discriminate. Qed.

(** A line with exactly [n] fields: [n] calls return them and succeed. *)
Lemma run_of_fields (n : nat) (raw : string_view) (fs : list string_view) :
  StringSplit.delimited_fields DELIMITER raw = fs ->
  length fs = n ->
  exists split,
    StringSplit.nexts n (StringSplit.make raw DELIMITER) = (fs, split)
    /\ StringSplit.finishedSuccessfully split = true.
Proof.
  intros Hfs Hlen.
  pose proof (nexts_fields DELIMITER DELIMITER_not_empty n raw) as Htok.
  pose proof (accepts_iff_has_fields DELIMITER DELIMITER_not_empty n raw) as Hacc.
  unfold SplitterStates.accepts, SplitterStates.has_fields in Hacc.
  rewrite Hfs in Htok, Hacc.
  destruct (StringSplit.nexts n (StringSplit.make raw DELIMITER)) as [tokens split].
  cbn [fst snd] in *. exists split. split.
  - rewrite Htok by lia. rewrite take_ge by lia. reflexivity.
  - apply Hacc. left. exact Hlen.
Qed.

Lemma processReq_event (p : Processor) (now_class now_verb : Z)
    (raw user verb direction instance request_class : string_view) (active_requests : Z) :
  is_req_event raw user verb direction instance request_class active_requests ->
  processReq p now_class now_verb raw
  = record_event p
      (cmd_map_add (request_key user verb now_verb) 1
         (match request_class with
          | [] => m_qos_redis_commands p
          | _ :: _ =>
              cmd_map_add (request_key user request_class now_class) 1
                (m_qos_redis_commands p)
          end))
      (<[conn_key p direction instance user := active_requests]>
         (m_qos_redis_active_reqs p)).
Proof.
  intros (source & count & Hfs & Hcount & Hprint).
  destruct (run_of_fields 8 raw _ Hfs eq_refl) as (split & Hrun & Hfin).
  unfold processReq. rewrite Hrun, Hfin. cbn [negb token nth].
  rewrite Hcount, Hprint. cbn [negb]. unfold request_key.
  destruct request_class; reflexivity.
Qed.

Lemma processDataXfer_event (p : Processor) (now : Z) (raw user direction : string_view)
    (bytes : Z) :
  is_data_xfer_event raw user direction bytes ->
  user <> [] ->
  processDataXfer p now raw
  = record_event p
      (cmd_map_add (bandwidth_key user direction now) bytes (m_qos_redis_commands p))
      (m_qos_redis_active_reqs p).
Proof.
  intros (source & count & Hfs & Hcount & Hprint) Huser.
  destruct (run_of_fields 5 raw _ Hfs eq_refl) as (split & Hrun & Hfin).
  unfold processDataXfer. rewrite Hrun, Hfin. cbn [token nth].
  rewrite Hcount, Hprint. cbn [negb]. unfold bandwidth_key.
  destruct user; [contradiction | reflexivity].
Qed.

Lemma bandwidth_key_eqb (user direction : string_view) (t1 t2 : Z) :
  RedisCmdKey_eqb (bandwidth_key user direction t1) (bandwidth_key user direction t2)
  = (getEpochSecs t1 =? getEpochSecs t2).
Proof.
  unfold RedisCmdKey_eqb, bandwidth_key, sv_eqb. cbn [m_user m_cat m_timestamp].
  rewrite !bool_decide_eq_true_2 by reflexivity. cbn. apply andb_true_r.
Qed.

(** C6, as amended.  A [req] line with a printable user key adds 1 to the
    counter of (user, second, verb) and, exactly when the request class is
    not empty, 1 to the counter of (user, second, request class).  A
    [data_xfer] line with a printable and non-empty user key adds its byte
    count to the counter of (user, second, "bnd_" + direction).  For two
    such [data_xfer] events of one user and direction processed at or after
    the epoch: in the same second the second event adds to the entry of the
    first; in different seconds (less than 2^32 apart) the two keys differ
    and each event has its own entry.  The sums are those of the code as
    long as they fit the [int] that holds a counter. *)
Theorem C6_events_fold_into_second_buckets (p : Processor) :
  (forall now_class now_verb raw user verb direction instance request_class active_requests,
      is_req_event raw user verb direction instance request_class active_requests ->
      let p' := processReq p now_class now_verb raw in
      m_qos_not_send_count p' = m_qos_not_send_count p + 1
      /\ forall q,
          fits_int
            (cmd_map_count q (m_qos_redis_commands p)
             + (if RedisCmdKey_eqb (request_key user verb now_verb) q then 1 else 0)
             + (if (0 <? length request_class)%nat
                   && RedisCmdKey_eqb (request_key user request_class now_class) q
                then 1 else 0)) ->
          cmd_map_count q (m_qos_redis_commands p')
          = cmd_map_count q (m_qos_redis_commands p)
            + (if RedisCmdKey_eqb (request_key user verb now_verb) q then 1 else 0)
            + (if (0 <? length request_class)%nat
                  && RedisCmdKey_eqb (request_key user request_class now_class) q
               then 1 else 0))
  /\ (forall now raw user direction bytes,
        is_data_xfer_event raw user direction bytes ->
        user <> [] ->
        let p' := processDataXfer p now raw in
        m_qos_not_send_count p' = m_qos_not_send_count p + 1
        /\ forall q,
            fits_int
              (cmd_map_count q (m_qos_redis_commands p)
               + (if RedisCmdKey_eqb (bandwidth_key user direction now) q then bytes else 0)) ->
            cmd_map_count q (m_qos_redis_commands p')
            = cmd_map_count q (m_qos_redis_commands p)
              + (if RedisCmdKey_eqb (bandwidth_key user direction now) q then bytes else 0))
  /\ (forall t1 t2 raw1 raw2 user direction bytes1 bytes2,
        is_data_xfer_event raw1 user direction bytes1 ->
        is_data_xfer_event raw2 user direction bytes2 ->
        user <> [] ->
        0 <= t1 -> 0 <= t2 ->
        let p1 := processDataXfer p t1 raw1 in
        let p2 := processDataXfer p1 t2 raw2 in
        let k1 := bandwidth_key user direction t1 in
        let k2 := bandwidth_key user direction t2 in
        (floor_sec t1 = floor_sec t2 ->
         length (m_qos_redis_commands p2) = length (m_qos_redis_commands p1)
         /\ (fits_int (cmd_map_count k1 (m_qos_redis_commands p) + bytes1) ->
             fits_int (cmd_map_count k1 (m_qos_redis_commands p) + bytes1 + bytes2) ->
             cmd_map_count k1 (m_qos_redis_commands p2)
             = cmd_map_count k1 (m_qos_redis_commands p) + bytes1 + bytes2))
        /\ (floor_sec t1 <> floor_sec t2 ->
            Z.abs (floor_sec t1 - floor_sec t2) < 2 ^ 32 ->
            RedisCmdKey_eqb k1 k2 = false
            /\ (fits_int (cmd_map_count k1 (m_qos_redis_commands p) + bytes1) ->
                cmd_map_count k1 (m_qos_redis_commands p2)
                = cmd_map_count k1 (m_qos_redis_commands p) + bytes1)
            /\ (fits_int (cmd_map_count k2 (m_qos_redis_commands p) + bytes2) ->
                cmd_map_count k2 (m_qos_redis_commands p2)
                = cmd_map_count k2 (m_qos_redis_commands p) + bytes2)
            /\ (cmd_map_find k1 (m_qos_redis_commands p) = None ->
                cmd_map_find k2 (m_qos_redis_commands p) = None ->
                length (m_qos_redis_commands p2)
                = S (S (length (m_qos_redis_commands p)))))).
Proof.
  split; [| split].
  - intros now_class now_verb raw user verb direction instance request_class
      active_requests Hev p'.
    subst p'. rewrite (processReq_event _ _ _ _ _ _ _ _ _ _ Hev).
    cbn [record_event update m_qos_not_send_count m_qos_redis_commands].
    split; [reflexivity |]. intros q. rewrite cmd_map_count_add.
    destruct request_class as [| c cls]; cbn [length Nat.ltb Nat.leb andb].
    + destruct (RedisCmdKey_eqb (request_key user verb now_verb) q); intros Hfits.
      * rewrite Z.add_0_r in *. apply s32_fits. exact Hfits.
      * lia.
    + rewrite cmd_map_count_add.
      destruct (RedisCmdKey_eqb (request_key user verb now_verb) q),
        (RedisCmdKey_eqb (request_key user (c :: cls) now_class) q); intros Hfits.
      * rewrite s32_add_s32. rewrite <- Z.add_assoc. apply s32_fits.
        rewrite Z.add_assoc. exact Hfits.
      * rewrite Z.add_0_r in *. apply s32_fits. exact Hfits.
      * replace (cmd_map_count q (m_qos_redis_commands p) + 0 + 1)
          with (cmd_map_count q (m_qos_redis_commands p) + 1) in * by lia.
        apply s32_fits. exact Hfits.
      * lia.
  - intros now raw user direction bytes Hev Huser p'.
    subst p'. rewrite (processDataXfer_event _ _ _ _ _ _ Hev Huser).
    cbn [record_event update m_qos_not_send_count m_qos_redis_commands].
    split; [reflexivity |]. intros q. rewrite cmd_map_count_add.
    destruct (RedisCmdKey_eqb (bandwidth_key user direction now) q); intros Hfits;
      [apply s32_fits; exact Hfits | lia].
  - intros t1 t2 raw1 raw2 user direction bytes1 bytes2 Hev1 Hev2 Huser Ht1 Ht2 p1 p2 k1 k2.
    subst p2 p1. rewrite (processDataXfer_event _ _ _ _ _ _ Hev2 Huser).
    rewrite (processDataXfer_event _ _ _ _ _ _ Hev1 Huser).
    cbn [record_event update m_qos_redis_commands]. fold k1 k2.
    pose proof (bandwidth_key_eqb user direction t1 t2) as Hk12. fold k1 k2 in Hk12.
    pose proof (bandwidth_key_eqb user direction t2 t1) as Hk21. fold k1 k2 in Hk21.
    split.
    + intros Hsame.
      pose proof (getEpochSecs_same_second t1 t2 Ht1 Ht2 Hsame) as Hsecs.
      rewrite Hsecs, Z.eqb_refl in Hk12. rewrite Hsecs, Z.eqb_refl in Hk21.
      split.
      * rewrite cmd_map_add_length.
        destruct (cmd_map_find_add (m_qos_redis_commands p) k1 k2 bytes1 Hk12) as [e He].
        rewrite He. reflexivity.
      * intros Hfirst Hboth.
        rewrite !cmd_map_count_add, Hk21, RedisCmdKey_eqb_refl.
        rewrite (s32_fits _ Hfirst). apply s32_fits. exact Hboth.
    + intros Hother Hclose.
      pose proof (getEpochSecs_other_second t1 t2 Ht1 Ht2 Hother Hclose) as Hsecs.
      assert (H12 : RedisCmdKey_eqb k1 k2 = false).
      { rewrite Hk12. apply Z.eqb_neq. exact Hsecs. }
      assert (H21 : RedisCmdKey_eqb k2 k1 = false).
      { rewrite Hk21. apply Z.eqb_neq. congruence. }
      split_and!.
      * exact H12.
      * intros Hfits. rewrite !cmd_map_count_add, H21, RedisCmdKey_eqb_refl.
        apply s32_fits. exact Hfits.
      * intros Hfits. rewrite !cmd_map_count_add, H12, RedisCmdKey_eqb_refl.
        apply s32_fits. exact Hfits.
      * intros Hnone1 Hnone2. rewrite !cmd_map_add_length.
        rewrite (cmd_map_find_add_other _ k1 k2 bytes1 H12 Hnone2), Hnone1. reflexivity.
Qed.

End CommandMap.

(** ** The splitter at the end of the input, and what the parsers accept *)

Section SplitterEnd.
Import StringSplit SplitterStates.
Local Open Scope nat_scope.

Variable d : string_view.
Hypothesis d_not_empty : d <> [].

(** After as many calls as the line has fields, the last segment has been
    returned and no error has occurred. *)
Lemma nexts_at_index_eof (n : nat) :
  forall (input : string_view) (i : nat),
    input <> [] -> i <= length input ->
    length (delimited_fields d (drop i input)) = n ->
    m_eof (nexts n (at_index input d i)).2 = true
    /\ m_error (nexts n (at_index input d i)).2 = false.
Proof.
  induction n as [| n IH]; intros input i Hne Hi Hlen.
  - pose proof (delimited_fields_length d d_not_empty (drop i input)). lia.
  - rewrite nexts_succ. cbn [fst snd].
    rewrite (delimited_fields_unfold d d_not_empty) in Hlen.
    destruct (find_first d (drop i input)) as [k |] eqn:Hfind.
    + rewrite (next_at_index_more d input i k Hne Hi Hfind). cbn [fst snd].
      pose proof (find_first_within d _ k Hfind) as Hin. rewrite length_drop in Hin.
      cbn [length] in Hlen. rewrite drop_drop in Hlen.
      replace (i + (k + length d)) with (i + k + length d) in Hlen by lia.
      apply IH; [exact Hne | lia | lia].
    + rewrite (next_at_index_last d input i Hne Hi Hfind). cbn [fst snd].
      cbn [length] in Hlen. assert (n = 0) by lia. subst n.
      cbn. split; reflexivity.
Qed.

Lemma nexts_all_fields (input : string_view) :
  let run := nexts (length (delimited_fields d input)) (make input d) in
  run.1 = delimited_fields d input /\ m_eof run.2 = true /\ m_error run.2 = false.
Proof.
  cbn zeta. split.
  - rewrite (nexts_fields d d_not_empty) by lia. apply take_ge. lia.
  - rewrite (make_at_index d d_not_empty).
    destruct input as [| a input'].
    + rewrite (delimited_fields_unfold d d_not_empty), (find_first_nil d d_not_empty).
      cbn. split; reflexivity.
    + apply (nexts_at_index_eof _ (a :: input') 0); [discriminate | lia | reflexivity].
Qed.

End SplitterEnd.

Section Parsers.
Import MsgProcessor AggregatorRuns SplitterStates.

Lemma processReq_counts_only_accepted (p : Processor) (now_class now_verb : Z)
    (raw : string_view) :
  m_qos_not_send_count (processReq p now_class now_verb raw) <> m_qos_not_send_count p ->
  accepts 8 DELIMITER raw = true.
Proof.
  unfold processReq, accepts.
  destruct (StringSplit.nexts 8 (StringSplit.make raw DELIMITER)) as [tokens split].
  cbn [snd]. destruct (StringSplit.finishedSuccessfully split); [reflexivity |].
  cbn. intros Hne. contradiction.
Qed.

Lemma processDataXfer_counts_only_accepted (p : Processor) (now : Z) (raw : string_view) :
  m_qos_not_send_count (processDataXfer p now raw) <> m_qos_not_send_count p ->
  accepts 5 DELIMITER raw = true.
Proof.
  unfold processDataXfer, accepts.
  destruct (StringSplit.nexts 5 (StringSplit.make raw DELIMITER)) as [tokens split].
  cbn [snd]. destruct (StringSplit.finishedSuccessfully split); [reflexivity |].
  cbn. intros Hne. contradiction.
Qed.

Lemma processActiveRequests_counts_only_accepted (p : Processor) (raw : string_view) :
  m_qos_not_send_count (processActiveRequests p raw) <> m_qos_not_send_count p ->
  accepts 5 DELIMITER raw = true.
Proof.
  unfold processActiveRequests, accepts.
  destruct (StringSplit.nexts 5 (StringSplit.make raw DELIMITER)) as [tokens split].
  cbn [snd]. destruct (StringSplit.finishedSuccessfully split); [reflexivity |].
  cbn. intros Hne. contradiction.
Qed.

Lemma processReqEnd_counts_only_accepted (p : Processor) (raw : string_view) :
  m_qos_not_send_count (processReqEnd p raw) <> m_qos_not_send_count p ->
  accepts 7 DELIMITER raw = true.
Proof.
  unfold processReqEnd, accepts.
  destruct (StringSplit.nexts 7 (StringSplit.make raw DELIMITER)) as [tokens split].
  cbn [snd]. destruct (StringSplit.finishedSuccessfully split); [reflexivity |].
  cbn. intros Hne. contradiction.
Qed.

(** C9, as amended.  A [data_xfer] line that tokenizes successfully, whose
    byte count converts, and whose user key is the empty string is ignored:
    the processor is left exactly as it was (no map entry, no change of the
    pending count, no error line).  With a user key that is not printable
    the line is dropped and one error line is written. *)
Theorem C9_empty_user_key_ignored (p : Processor) (now : Z) (raw : string_view) :
  let run := StringSplit.nexts 5 (StringSplit.make raw DELIMITER) in
  let user := token run.1 2 in
  StringSplit.finishedSuccessfully run.2 = true ->
  is_Some (from_chars_int (token run.1 4)) ->
  (user = [] -> processDataXfer p now raw = p)
  /\ (isPrintableASCII user = false ->
      let p' := processDataXfer p now raw in
      m_qos_redis_commands p' = m_qos_redis_commands p
      /\ m_qos_not_send_count p' = m_qos_not_send_count p
      /\ m_error_lines p' = m_error_lines p ++ [ErrInvalidAccessKey user]).
Proof.
  cbn zeta. unfold processDataXfer.
  destruct (StringSplit.nexts 5 (StringSplit.make raw DELIMITER)) as [tokens split].
  cbn [fst snd]. intros Hfin [len Hlen]. rewrite Hfin, Hlen. split.
  - intros Huser. rewrite Huser. reflexivity.
  - intros Hprint. rewrite Hprint. cbn. auto.
Qed.

(** C10, as amended.  For a non-empty delimiter: a call of [next] made
    after the last segment has been returned fails, and from then on every
    call returns an empty view and [finishedSuccessfully] is false; the
    last segment has been returned, without error, after as many calls as
    the line has fields, and those calls return the fields; and after [n]
    calls [finishedSuccessfully] holds exactly when the line has [n]
    fields, or [n] fields followed by one empty field.  Hence a parser
    counts a line only if it has the expected number of fields (8 for
    [req], 5 for [data_xfer] and [active_reqs], 7 for [req_end]) or that
    number followed by one empty field; a [req] line with an empty eighth
    field is counted and one without an eighth field is rejected. *)
Theorem C10_splitter_end_and_field_count :
  (forall d : string_view,
      d <> [] ->
      (forall (s : StringSplit.t) (k : nat),
          StringSplit.m_eof s = true ->
          (StringSplit.nexts (S k) s).1 = replicate (S k) []
          /\ StringSplit.m_error (StringSplit.nexts (S k) s).2 = true
          /\ StringSplit.finishedSuccessfully (StringSplit.nexts (S k) s).2 = false)
      /\ (forall input : string_view,
            let run := StringSplit.nexts (length (StringSplit.delimited_fields d input))
                         (StringSplit.make input d) in
            run.1 = StringSplit.delimited_fields d input
            /\ StringSplit.m_eof run.2 = true /\ StringSplit.m_error run.2 = false)
      /\ (forall (input : string_view) (n : nat),
            accepts n d input = true <-> has_fields n d input))
  /\ (forall (p : Processor) (now_class now_verb : Z) (raw : string_view),
        (m_qos_not_send_count (processReq p now_class now_verb raw) <> m_qos_not_send_count p ->
         has_fields 8 DELIMITER raw)
        /\ (m_qos_not_send_count (processDataXfer p now_verb raw) <> m_qos_not_send_count p ->
            has_fields 5 DELIMITER raw)
        /\ (m_qos_not_send_count (processActiveRequests p raw) <> m_qos_not_send_count p ->
            has_fields 5 DELIMITER raw)
        /\ (m_qos_not_send_count (processReqEnd p raw) <> m_qos_not_send_count p ->
            has_fields 7 DELIMITER raw))
  /\ m_qos_not_send_count (processReq idle_processor 0 0 req_line) = 1
  /\ m_error_lines (processReq idle_processor 0 0 req_line_without_class_field)
     = [ErrRequestFormat req_line_without_class_field].
Proof.
  split; [| split; [| split]].
  - intros d Hd. split; [| split].
    + intros s k Heof. apply nexts_after_eof. exact Heof.
    + intros input. apply nexts_all_fields. exact Hd.
    + intros input n. apply accepts_iff_has_fields. exact Hd.
  - intros p now_class now_verb raw. split_and!; intros Hcount;
      apply (accepts_iff_has_fields DELIMITER DELIMITER_not_empty).
    + eapply processReq_counts_only_accepted. exact Hcount.
    + eapply processDataXfer_counts_only_accepted. exact Hcount.
    + eapply processActiveRequests_counts_only_accepted. exact Hcount.
    + eapply processReqEnd_counts_only_accepted. exact Hcount.
  - vm_compute. reflexivity.
  - vm_compute. reflexivity.
Qed.

End Parsers.

(** *** Runs of the parsers *)

Lemma C6_witness :
  AggregatorRuns.is_data_xfer_event AggregatorRuns.data_xfer_line (sv "u") (sv "up") 4096
  /\ sv "u" <> []
  /\ MsgProcessor.cmd_map_count
       (AggregatorRuns.bandwidth_key (sv "u") (sv "up") (10100 * MsgProcessor.TICKS_PER_MSEC))
       (MsgProcessor.m_qos_redis_commands
          (MsgProcessor.processDataXfer AggregatorRuns.idle_processor
             (10999 * MsgProcessor.TICKS_PER_MSEC) AggregatorRuns.data_xfer_line))
     = 4096.
Proof.
  assert (Hev : AggregatorRuns.is_data_xfer_event AggregatorRuns.data_xfer_line
                  (sv "u") (sv "up") 4096).
  { exists (sv "1.2.3.4:80"), (sv "4096"). split; [| split]; vm_compute; reflexivity. }
  assert (Huser : sv "u" <> []) by discriminate.
  split; [exact Hev |]. split; [exact Huser |].
  destruct (C6_events_fold_into_second_buckets AggregatorRuns.idle_processor)
    as (_ & Hxfer & _).
  destruct (Hxfer (10999 * MsgProcessor.TICKS_PER_MSEC) AggregatorRuns.data_xfer_line
              (sv "u") (sv "up") 4096 Hev Huser) as [_ Hcount].
  rewrite Hcount; [vm_compute; reflexivity | vm_compute; split; discriminate].
Defined.

(** C6, as stated, fails for a [data_xfer] line whose user key is empty: the
    line has its five fields, the byte count converts and the (empty) key is
    printable, and nothing is added.  The statement about seconds fails
    before the epoch, where seconds are rounded toward zero: the last
    nanosecond before the epoch and the epoch itself are on either side of a
    second boundary, and two events processed then share one entry. *)
Lemma C6_counterexample :
  (AggregatorRuns.is_data_xfer_event AggregatorRuns.data_xfer_line_empty_user [] (sv "up") 4096
   /\ MsgProcessor.processDataXfer AggregatorRuns.idle_processor
        (10100 * MsgProcessor.TICKS_PER_MSEC) AggregatorRuns.data_xfer_line_empty_user
      = AggregatorRuns.idle_processor
   /\ MsgProcessor.cmd_map_count
        (AggregatorRuns.bandwidth_key [] (sv "up") (10100 * MsgProcessor.TICKS_PER_MSEC))
        (MsgProcessor.m_qos_redis_commands
           (MsgProcessor.processDataXfer AggregatorRuns.idle_processor
              (10100 * MsgProcessor.TICKS_PER_MSEC) AggregatorRuns.data_xfer_line_empty_user))
      <> 0 + 4096)
  /\ (AggregatorRuns.floor_sec (-1) <> AggregatorRuns.floor_sec 0
      /\ length (MsgProcessor.m_qos_redis_commands
                   (MsgProcessor.processDataXfer
                      (MsgProcessor.processDataXfer AggregatorRuns.idle_processor (-1)
                         AggregatorRuns.data_xfer_line)
                      0 AggregatorRuns.data_xfer_line)) = 1%nat).
Proof.
  split; [split; [| split] | split].
  - exists (sv "1.2.3.4:80"), (sv "4096"). split; [| split]; vm_compute; reflexivity.
  - vm_compute. reflexivity.
  - vm_compute. discriminate.
  - vm_compute. discriminate.
  - vm_compute. reflexivity.
Qed.

Lemma C9_witness :
  StringSplit.finishedSuccessfully
    (StringSplit.nexts 5 (StringSplit.make AggregatorRuns.data_xfer_line_empty_user
                            MsgProcessor.DELIMITER)).2 = true
  /\ MsgProcessor.processDataXfer AggregatorRuns.idle_processor 7
       AggregatorRuns.data_xfer_line_empty_user = AggregatorRuns.idle_processor.
Proof.
  split; [vm_compute; reflexivity |].
  apply (C9_empty_user_key_ignored AggregatorRuns.idle_processor 7
           AggregatorRuns.data_xfer_line_empty_user).
  - vm_compute. reflexivity.
  - vm_compute. eexists. reflexivity.
  - vm_compute. reflexivity.
Defined.

(** C9, as stated, fails for a line that tokenizes successfully and has an
    empty user key but a byte count that does not convert: the format error is
    logged. *)
Lemma C9_counterexample :
  StringSplit.finishedSuccessfully
    (StringSplit.nexts 5 (StringSplit.make AggregatorRuns.data_xfer_line_empty_user_bad_count
                            MsgProcessor.DELIMITER)).2 = true
  /\ MsgProcessor.token
       (StringSplit.nexts 5 (StringSplit.make AggregatorRuns.data_xfer_line_empty_user_bad_count
                               MsgProcessor.DELIMITER)).1 2 = []
  /\ MsgProcessor.m_error_lines
       (MsgProcessor.processDataXfer AggregatorRuns.idle_processor 7
          AggregatorRuns.data_xfer_line_empty_user_bad_count)
     = [MsgProcessor.ErrDataXferFormat AggregatorRuns.data_xfer_line_empty_user_bad_count]
  /\ MsgProcessor.processDataXfer AggregatorRuns.idle_processor 7
       AggregatorRuns.data_xfer_line_empty_user_bad_count <> AggregatorRuns.idle_processor.
Proof.
  split; [vm_compute; reflexivity |]. split; [vm_compute; reflexivity |].
  split; [vm_compute; reflexivity |].
  intros Heq. apply (f_equal MsgProcessor.m_error_lines) in Heq. vm_compute in Heq.
  discriminate Heq.
Qed.

Lemma C10_witness :
  MsgProcessor.DELIMITER <> []
  /\ (SplitterStates.accepts 8 MsgProcessor.DELIMITER AggregatorRuns.req_line = true
      <-> SplitterStates.has_fields 8 MsgProcessor.DELIMITER AggregatorRuns.req_line).
Proof.
  split; [discriminate |].
  apply (proj1 C10_splitter_end_and_field_count MsgProcessor.DELIMITER). discriminate.
Defined.

(** C10, as stated, fails for a line that ends with the delimiter: the
    [data_xfer] line below has six fields, the sixth being empty, and the
    parser, which reads five, counts it. *)
Lemma C10_counterexample :
  length (StringSplit.delimited_fields MsgProcessor.DELIMITER
            AggregatorRuns.data_xfer_line_trailing_delimiter) = 6%nat
  /\ SplitterStates.accepts 5 MsgProcessor.DELIMITER
       AggregatorRuns.data_xfer_line_trailing_delimiter = true
  /\ MsgProcessor.m_qos_not_send_count
       (MsgProcessor.processDataXfer AggregatorRuns.idle_processor 7
          AggregatorRuns.data_xfer_line_trailing_delimiter) = 1
  /\ MsgProcessor.m_qos_redis_commands
       (MsgProcessor.processDataXfer AggregatorRuns.idle_processor 7
          AggregatorRuns.data_xfer_line_trailing_delimiter)
     = [(AggregatorRuns.bandwidth_key (sv "u") (sv "up") 7, 4096)].
Proof. split_and!; vm_compute; reflexivity. Qed.

(** ** rate_limit.c: the connection table *)

Section ConnectionTable.
Import RateLimit ConnectionCounts.
Context {float : Type} `{CFloat float}.

Lemma u16_range (x : Z) : 0 <= u16 x < 2 ^ 16.
Proof. unfold u16. apply Z.mod_pos_bound. lia. Qed.

(** The shifted address and the port have no bit in common. *)
Lemma ip_port_from_sockaddr_sum (a : sockaddr_in) :
  ip_port_from_sockaddr (Some a) = u32 (sin_addr a) * 2 ^ 32 + u16 (sin_port a).
Proof.
  unfold ip_port_from_sockaddr.
  pose proof (u32_range (sin_addr a)) as Hip.
  pose proof (u16_range (sin_port a)) as Hport.
  set (ip := u32 (sin_addr a)) in *. set (port := u16 (sin_port a)) in *.
  rewrite Z.shiftl_mul_pow2 by lia.
  rewrite u64_small by lia.
  rewrite <- (Z.add_lor_land (ip * 2 ^ 32) port).
  assert (Hdisjoint : Z.land (ip * 2 ^ 32) port = 0).
  { replace port with (Z.land port (Z.ones 32))
      by (rewrite Z.land_ones by lia; apply Z.mod_small; lia).
    rewrite (Z.land_comm port), Z.land_assoc, Z.land_ones by lia.
    rewrite Z.mod_mul by lia. reflexivity. }
  rewrite Hdisjoint. lia.
Qed.

(** X1.  The 64-bit key under which a connection is stored determines
    the IPv4 address and the port: two socket addresses get the same key
    exactly when their 32-bit addresses and 16-bit ports agree, and the
    key 0 that stands for a null address is also the key of 0.0.0.0:0. *)
Theorem X1_ip_port_key_is_injective (a b : sockaddr_in) :
  (ip_port_from_sockaddr (Some a) = ip_port_from_sockaddr (Some b)
   <-> u32 (sin_addr a) = u32 (sin_addr b) /\ u16 (sin_port a) = u16 (sin_port b))
  /\ (ip_port_from_sockaddr (Some a) = ip_port_from_sockaddr None
      <-> u32 (sin_addr a) = 0 /\ u16 (sin_port a) = 0)
  /\ 0 <= ip_port_from_sockaddr (Some a) < 2 ^ 64.
Proof.
  rewrite !ip_port_from_sockaddr_sum. cbn [ip_port_from_sockaddr].
  pose proof (u32_range (sin_addr a)). pose proof (u16_range (sin_port a)).
  pose proof (u32_range (sin_addr b)). pose proof (u16_range (sin_port b)).
  split_and!.
  - split; [intros Heq | intros [-> ->]; reflexivity]. lia.
  - split; [intros Heq | intros [-> ->]; reflexivity]. lia.
  - lia.
  - lia.
Qed.

Lemma length_zero_iff_empty (s : string) : (String.length s =? 0)%nat = true <-> s = ""%string.
Proof. destruct s; cbn; split; congruence. Qed.

Lemma nonempty_length (s : string) : s <> ""%string -> (String.length s =? 0)%nat = false.
Proof. destruct s; cbn; congruence. Qed.

(** X2.  Registering a connection makes its transfers reportable: after
    [set_ip_port_key] with a non-empty key, [rl_data_transferred] for
    that address writes a line with that key, the direction name and the
    byte count as an unsigned 32-bit number, while the connections
    stored under other keys report as before.  An empty key, or the
    address key 0, changes nothing. *)
Theorem X2_registered_connection_reports_transfers (t : tables float) (a : sockaddr_in)
    (key : string) (dir : DataDirection) (done : Z) :
  key <> ""%string ->
  ip_port_from_sockaddr (Some a) <> 0 ->
  let t' := set_ip_port_key t (ip_port_from_sockaddr (Some a)) key in
  rl_data_transferred t' (Some a) dir done
  = Some {| xfer_addr := a; xfer_key := key;
            xfer_direction := match dir with RL_DOWNLOAD => "dwn" | RL_UPLOAD => "up" end;
            xfer_done := done mod 2 ^ 32 |}
  /\ (forall b : sockaddr_in,
        ip_port_from_sockaddr (Some b) <> ip_port_from_sockaddr (Some a) ->
        rl_data_transferred t' (Some b) dir done = rl_data_transferred t (Some b) dir done)
  /\ set_ip_port_key t (ip_port_from_sockaddr (Some a)) "" = t
  /\ set_ip_port_key t 0 key = t.
Proof.
  intros Hkey Hip t'. subst t'.
  unfold set_ip_port_key. rewrite (nonempty_length key Hkey).
  destruct (Z.eqb_spec (ip_port_from_sockaddr (Some a)) 0) as [E | _]; [contradiction |].
  split_and!.
  - unfold rl_data_transferred, get_key_from_ip_port. cbn [ip_port_key_hashmap].
    rewrite lookup_insert_eq, (nonempty_length key Hkey). reflexivity.
  - intros b Hb. unfold rl_data_transferred, get_key_from_ip_port.
    cbn [ip_port_key_hashmap]. rewrite lookup_insert_ne by congruence. reflexivity.
  - reflexivity.
  - reflexivity.
Qed.

Lemma tables_eta (t : tables float) :
  {| ip_port_key_hashmap := ip_port_key_hashmap t;
     key_ip_port_count_hashmap := key_ip_port_count_hashmap t;
     key_upload_speed_epoch_hashmap := key_upload_speed_epoch_hashmap t;
     key_download_speed_epoch_hashmap := key_download_speed_epoch_hashmap t;
     BASE_JITTER_RANGE_MS := BASE_JITTER_RANGE_MS t |} = t.
Proof. destruct t; reflexivity. Qed.

Lemma decr_incr_num_connections (key : string) (counts : gmap string Z) :
  (forall c, counts !! key = Some c -> 1 <= c < 2 ^ 32 - 1) ->
  decr_num_connections_of_a_key key (incr_num_connections_of_a_key key counts) = counts.
Proof.
  intros Hrange. unfold incr_num_connections_of_a_key, decr_num_connections_of_a_key.
  destruct (counts !! key) as [v |] eqn:Hv.
  - specialize (Hrange v eq_refl).
    rewrite lookup_insert_eq, u32_small by lia.
    destruct (Z.eqb_spec (v + 1) 0); [lia |].
    destruct (Z.eqb_spec (v + 1) 1); [lia |].
    rewrite insert_insert_eq. replace (v + 1 - 1) with v by lia.
    apply insert_id. exact Hv.
  - rewrite lookup_insert_eq. cbn.
    rewrite delete_insert_eq. apply delete_id. exact Hv.
Qed.

(** X3.  A request that starts and ends leaves the tables as they were:
    after [set_ip_port_key] for an address that was not in the table,
    [rl_request_end] for that address removes the mapping and takes the
    connection count of the key back to its previous value, the entry
    being deleted when the count returns to zero.  Afterwards the
    connection reports no transfer and is never throttled. *)
Theorem X3_request_end_undoes_registration (t : tables float) (a : sockaddr_in)
    (key : string) :
  key <> ""%string ->
  ip_port_from_sockaddr (Some a) <> 0 ->
  ip_port_key_hashmap t !! ip_port_from_sockaddr (Some a) = None ->
  count_in_range t key ->
  let t' := rl_request_end (set_ip_port_key t (ip_port_from_sockaddr (Some a)) key) (Some a) in
  t' = t
  /\ (forall dir done, rl_data_transferred t' (Some a) dir done = None)
  /\ (forall dir now random32,
        rl_speed_throttle t' (Some a) dir now random32 = Some (RL_NO_THROTTLE, 0)).
Proof.
  intros Hkey Hip Hfresh Hrange t'.
  assert (Ht' : t' = t).
  { subst t'. unfold rl_request_end, set_ip_port_key, remove_from_ip_port_key_hash.
    rewrite (nonempty_length key Hkey).
    destruct (Z.eqb_spec (ip_port_from_sockaddr (Some a)) 0) as [E | _]; [contradiction |].
    cbn [ip_port_key_hashmap key_ip_port_count_hashmap key_upload_speed_epoch_hashmap
         key_download_speed_epoch_hashmap BASE_JITTER_RANGE_MS].
    rewrite lookup_insert_eq, delete_insert_eq, (delete_id _ _ Hfresh).
    rewrite (decr_incr_num_connections key _ Hrange).
    apply tables_eta. }
  split_and!.
  - exact Ht'.
  - intros dir done. rewrite Ht'. unfold rl_data_transferred, get_key_from_ip_port.
    rewrite Hfresh. reflexivity.
  - intros dir now random32. rewrite Ht'.
    unfold rl_speed_throttle, get_epoch_sec, get_key_from_ip_port.
    rewrite Hfresh. reflexivity.
Qed.

(** X4.  When a connection that is stored under one key is registered
    again under another key (a kept-alive connection that changes user),
    the new key's count is incremented but the old key's count is not
    decremented, and the request end decrements the new key only: the old
    key keeps counting a connection that no address maps to any more. *)
Theorem X4_rekeyed_connection_is_still_counted (t : tables float) (a : sockaddr_in)
    (old key : string) :
  key <> ""%string ->
  old <> key ->
  ip_port_from_sockaddr (Some a) <> 0 ->
  ip_port_key_hashmap t !! ip_port_from_sockaddr (Some a) = Some old ->
  count_in_range t key ->
  let t1 := set_ip_port_key t (ip_port_from_sockaddr (Some a)) key in
  let t2 := rl_request_end t1 (Some a) in
  get_key_from_ip_port t1 (ip_port_from_sockaddr (Some a)) = Some key
  /\ connections_of t1 old = connections_of t old
  /\ get_key_from_ip_port t2 (ip_port_from_sockaddr (Some a)) = None
  /\ connections_of t2 key = connections_of t key
  /\ connections_of t2 old = connections_of t old.
Proof.
  intros Hkey Hold Hip Hmapped Hrange t1 t2.
  assert (Ht1 : t1
    = {| ip_port_key_hashmap :=
           <[ip_port_from_sockaddr (Some a) := key]> (ip_port_key_hashmap t);
         key_ip_port_count_hashmap :=
           incr_num_connections_of_a_key key (key_ip_port_count_hashmap t);
         key_upload_speed_epoch_hashmap := key_upload_speed_epoch_hashmap t;
         key_download_speed_epoch_hashmap := key_download_speed_epoch_hashmap t;
         BASE_JITTER_RANGE_MS := BASE_JITTER_RANGE_MS t |}).
  { subst t1. unfold set_ip_port_key. rewrite (nonempty_length key Hkey).
    destruct (Z.eqb_spec (ip_port_from_sockaddr (Some a)) 0) as [E | _]; [contradiction |].
    reflexivity. }
  assert (Hincr_old :
    incr_num_connections_of_a_key key (key_ip_port_count_hashmap t) !! old
    = key_ip_port_count_hashmap t !! old).
  { unfold incr_num_connections_of_a_key.
    destruct (key_ip_port_count_hashmap t !! key); rewrite lookup_insert_ne by congruence;
      reflexivity. }
  assert (Ht2 : t2
    = {| ip_port_key_hashmap := delete (ip_port_from_sockaddr (Some a)) (ip_port_key_hashmap t);
         key_ip_port_count_hashmap := key_ip_port_count_hashmap t;
         key_upload_speed_epoch_hashmap := key_upload_speed_epoch_hashmap t;
         key_download_speed_epoch_hashmap := key_download_speed_epoch_hashmap t;
         BASE_JITTER_RANGE_MS := BASE_JITTER_RANGE_MS t |}).
  { subst t2. rewrite Ht1. unfold rl_request_end, remove_from_ip_port_key_hash.
    cbn [ip_port_key_hashmap key_ip_port_count_hashmap key_upload_speed_epoch_hashmap
         key_download_speed_epoch_hashmap BASE_JITTER_RANGE_MS].
    rewrite lookup_insert_eq, delete_insert_eq.
    rewrite (decr_incr_num_connections key _ Hrange). reflexivity. }
  unfold connections_of, get_ip_port_count_from_key, get_key_from_ip_port.
  rewrite Ht2, Ht1.
  cbn [ip_port_key_hashmap key_ip_port_count_hashmap].
  rewrite lookup_insert_eq, lookup_delete_eq, Hincr_old.
  split_and!; reflexivity.
Qed.

End ConnectionTable.

(** A table in which user [u] holds one connection. *)
Lemma X3_witness :
  RateLimit.ip_port_from_sockaddr (Some Scenarios.client) <> 0
  /\ RateLimit.rl_request_end
       (RateLimit.set_ip_port_key ConnectionCounts.no_connection
          (RateLimit.ip_port_from_sockaddr (Some Scenarios.client)) "u")
       (Some Scenarios.client)
     = ConnectionCounts.no_connection.
Proof.
  split; [vm_compute; discriminate |].
  refine (proj1 (X3_request_end_undoes_registration
                   ConnectionCounts.no_connection Scenarios.client "u" _ _ _ _)).
  - discriminate.
  - vm_compute. discriminate.
  - reflexivity.
  - intros c Hc. vm_compute in Hc. discriminate.
Defined.

(** ** rate_limit.c: the policies *)

Section Policies.
Import RateLimit.
Context {float : Type} `{CFloat float}.

Lemma get_key_speed_hash_set (t : tables float) (d d' : DataDirection)
    (h : gmap string (speed_hash_value_t float)) :
  get_key_speed_hash (set_key_speed_hash t d h) d'
  = if decide (d = d') then h else get_key_speed_hash t d'.
Proof. destruct d, d'; reflexivity. Qed.

Lemma set_key_speed_hash_others (t : tables float) (d : DataDirection)
    (h : gmap string (speed_hash_value_t float)) :
  ip_port_key_hashmap (set_key_speed_hash t d h) = ip_port_key_hashmap t
  /\ key_ip_port_count_hashmap (set_key_speed_hash t d h) = key_ip_port_count_hashmap t
  /\ BASE_JITTER_RANGE_MS (set_key_speed_hash t d h) = BASE_JITTER_RANGE_MS t.
Proof. destruct d; split_and!; reflexivity. Qed.

(** Two tables that hold the same connections and the same jitter range
    answer alike when the record found for the connection is the same, or
    when neither record asks for throttling. *)
Lemma rl_speed_throttle_same_found (t t' : tables float) (addr_in : option sockaddr_in)
    (dir : DataDirection) (now : timeval) (random32 : Z) :
  BASE_JITTER_RANGE_MS t' = BASE_JITTER_RANGE_MS t ->
  (let found' :=
     (get_epoch_sec t' (ip_port_from_sockaddr addr_in) dir
        (in_seconds (get_current_epoch now))).1 in
   let found :=
     (get_epoch_sec t (ip_port_from_sockaddr addr_in) dir
        (in_seconds (get_current_epoch now))).1 in
   found' = found \/ (throttle found' = 0 /\ throttle found = 0)) ->
  rl_speed_throttle t' addr_in dir now random32 = rl_speed_throttle t addr_in dir now random32.
Proof.
  intros Hjitter Hfound. unfold rl_speed_throttle.
  destruct addr_in as [a |]; [| reflexivity].
  cbv zeta in Hfound. destruct Hfound as [-> | [-> ->]]; [| reflexivity].
  unfold get_jitter_usec. rewrite Hjitter. reflexivity.
Qed.

(** X5.  One sweep of the clean-up thread keeps exactly the policies of
    the swept direction that were received at most 120 seconds before
    the sweep, leaves the other direction and the connection table
    alone, and never changes what [rl_speed_throttle] answers at the
    time of the sweep: a policy that is removed had stopped throttling. *)
Theorem X5_cleanup_keeps_live_policies (t : tables float) (dir : DataDirection)
    (current_epoch : Z) :
  let t' := remove_old_epochs_pass t dir current_epoch in
  (forall key policy,
      get_key_speed_hash t' dir !! key = Some policy
      <-> get_key_speed_hash t dir !! key = Some policy
          /\ current_epoch - received_epoch_sec policy <= 120)
  /\ (forall other, other <> dir -> get_key_speed_hash t' other = get_key_speed_hash t other)
  /\ ip_port_key_hashmap t' = ip_port_key_hashmap t
  /\ key_ip_port_count_hashmap t' = key_ip_port_count_hashmap t
  /\ (0 <= current_epoch < 2 ^ 32 ->
      (forall key policy,
          get_key_speed_hash t dir !! key = Some policy ->
          0 <= received_epoch_sec policy < 2 ^ 32) ->
      forall addr_in d usec random32,
        rl_speed_throttle t' addr_in d {| tv_sec := current_epoch; tv_usec := usec |} random32
        = rl_speed_throttle t addr_in d {| tv_sec := current_epoch; tv_usec := usec |}
            random32).
Proof.
  intros t'.
  assert (Hkept : forall key policy,
             get_key_speed_hash t' dir !! key = Some policy
             <-> get_key_speed_hash t dir !! key = Some policy
                 /\ current_epoch - received_epoch_sec policy <= 120).
  { intros key policy. subst t'. unfold remove_old_epochs_pass.
    rewrite get_key_speed_hash_set. destruct (decide (dir = dir)); [| congruence].
    rewrite map_lookup_filter_Some. cbn [snd].
    unfold SPEED_TABLE_STALE_POLICY_AGE_SEC. split; intros [Hl Hc]; (split; [exact Hl | lia]). }
  destruct (set_key_speed_hash_others t dir
              (filter (fun kv : string * speed_hash_value_t float =>
                         ~ (received_epoch_sec kv.2 < current_epoch
                            /\ SPEED_TABLE_STALE_POLICY_AGE_SEC
                               < current_epoch - received_epoch_sec kv.2))
                      (get_key_speed_hash t dir)))
    as (Hips & Hcounts & Hjitter).
  fold (remove_old_epochs_pass t dir current_epoch) in Hips, Hcounts, Hjitter.
  fold t' in Hips, Hcounts, Hjitter.
  assert (Hother : forall other, other <> dir ->
             get_key_speed_hash t' other = get_key_speed_hash t other).
  { intros other Hne. subst t'. unfold remove_old_epochs_pass.
    rewrite get_key_speed_hash_set. destruct (decide (dir = other)); congruence. }
  split_and!; try assumption.
  intros Hnow Hstored addr_in d usec random32.
  apply rl_speed_throttle_same_found; [exact Hjitter |].
  cbv zeta. cbn [get_current_epoch in_seconds tv_sec].
  rewrite (u32_small current_epoch) by lia.
  unfold get_epoch_sec, get_key_from_ip_port, get_ip_port_count_from_key.
  rewrite Hips, Hcounts.
  destruct (ip_port_key_hashmap t !! ip_port_from_sockaddr addr_in) as [key |];
    [| left; reflexivity].
  destruct (String.length key =? 0)%nat; [left; reflexivity |].
  destruct (decide (d = dir)) as [-> | Hne]; [| rewrite (Hother d Hne); left; reflexivity].
  destruct (get_key_speed_hash t dir !! key) as [policy |] eqn:Hpolicy.
  - destruct (Z_le_gt_dec (current_epoch - received_epoch_sec policy) 120) as [Hlive | Hstale].
    + rewrite (proj2 (Hkept key policy) (conj Hpolicy Hlive)). left; reflexivity.
    + assert (Hgone : get_key_speed_hash t' dir !! key = None).
      { destruct (get_key_speed_hash t' dir !! key) as [q |] eqn:Hq; [| reflexivity].
        apply Hkept in Hq as [Hq1 Hq2]. rewrite Hpolicy in Hq1. inversion Hq1; subst. lia. }
      rewrite Hgone. right. split; [reflexivity |].
      specialize (Hstored key policy Hpolicy).
      assert (Hinvalid : is_valid_violation_policy (set_throttle policy 0) current_epoch = false).
      { unfold is_valid_violation_policy, policy_age_epochs, BACKOFF_WINDOW_EPOCHS.
        cbn [set_throttle received_epoch_sec].
        rewrite u32_small by lia. apply Z.leb_gt. lia. }
      rewrite Hinvalid. reflexivity.
  - assert (Hgone : get_key_speed_hash t' dir !! key = None).
    { destruct (get_key_speed_hash t' dir !! key) as [q |] eqn:Hq; [| reflexivity].
      apply Hkept in Hq as [Hq1 _]. congruence. }
    rewrite Hgone. left; reflexivity.
Qed.

Lemma set_throttle_epoch_us_stored (t : tables float) (key : string) (epoch_us : Z)
    (dir : DataDirection) (ratio : float) (now : timeval) :
  key <> ""%string ->
  let t' := set_throttle_epoch_us t key epoch_us dir ratio now in
  (exists previous,
      get_key_speed_hash t' dir !! key
      = Some {| throttle := u32 (tv_sec now); num_active_connections := 0;
                received_epoch_sec := u32 (tv_sec now); diff_ratio := ratio;
                elapsed_usec_in_the_epoch := u64 epoch_us mod UNIT_USECS_IN_SEC;
                allowed_run_time_usec := 0; previous_diff_ratio := previous |}
      /\ previous = match get_key_speed_hash t dir !! key with
                    | Some found => diff_ratio found
                    | None => fzero
                    end)
  /\ (forall d, d <> dir -> get_key_speed_hash t' d = get_key_speed_hash t d)
  /\ ip_port_key_hashmap t' = ip_port_key_hashmap t
  /\ key_ip_port_count_hashmap t' = key_ip_port_count_hashmap t
  /\ BASE_JITTER_RANGE_MS t' = BASE_JITTER_RANGE_MS t.
Proof.
  intros Hkey t'. subst t'. unfold set_throttle_epoch_us.
  rewrite (nonempty_length key Hkey).
  cbn [get_current_epoch in_seconds throttle num_active_connections received_epoch_sec
       diff_ratio elapsed_usec_in_the_epoch allowed_run_time_usec].
  destruct (get_key_speed_hash t dir !! key) as [found |] eqn:Hfound.
  - split_and!.
    + eexists. rewrite get_key_speed_hash_set. destruct (decide (dir = dir)); [| congruence].
      rewrite lookup_insert_eq. split; reflexivity.
    + intros d Hd. rewrite get_key_speed_hash_set. destruct (decide (dir = d)); congruence.
    + apply set_key_speed_hash_others.
    + apply set_key_speed_hash_others.
    + apply set_key_speed_hash_others.
  - split_and!.
    + eexists. rewrite get_key_speed_hash_set. destruct (decide (dir = dir)); [| congruence].
      rewrite lookup_insert_eq. split; reflexivity.
    + intros d Hd. rewrite get_key_speed_hash_set. destruct (decide (dir = d)); congruence.
    + apply set_key_speed_hash_others.
    + apply set_key_speed_hash_others.
    + apply set_key_speed_hash_others.
Qed.

(** X6.  A policy takes effect in the second in which it is set: after
    [set_throttle_epoch_us] for a user, every call of
    [rl_speed_throttle] in that direction for a connection of the user
    answers RL_THROTTLE during the same second; during the next six
    seconds a call in the first 50 ms of the second returns and is not
    throttled, provided the scaled run time of the policy fits the
    [uint64_t] it is converted to and the jitter range is not 0; once
    more than six seconds have passed no call is throttled.  The other
    direction is not affected. *)
Theorem X6_new_policy_throttles_at_once (t : tables float) (a : sockaddr_in) (key : string)
    (dir : DataDirection) (epoch_us : Z) (ratio : float) (set_at now : timeval)
    (random32 : Z) :
  ip_port_key_hashmap t !! ip_port_from_sockaddr (Some a) = Some key ->
  key <> ""%string ->
  let t' := set_throttle_epoch_us t key epoch_us dir ratio set_at in
  let age := u32 (tv_sec now - tv_sec set_at) in
  (age = 0 -> rl_speed_throttle t' (Some a) dir now random32 = Some (RL_THROTTLE, 0))
  /\ (1 <= age <= 6 -> 0 <= tv_usec now < 50000 ->
      RunTime.scaled_quotient (u64 epoch_us mod UNIT_USECS_IN_SEC) ratio age < 2 ^ 64 ->
      u32 (BASE_JITTER_RANGE_MS t) <> 0 ->
      exists slept,
        rl_speed_throttle t' (Some a) dir now random32 = Some (RL_NO_THROTTLE, slept))
  /\ (6 < age -> rl_speed_throttle t' (Some a) dir now random32 = Some (RL_NO_THROTTLE, 0))
  /\ (forall d addr_in,
        d <> dir ->
        rl_speed_throttle t' addr_in d now random32 = rl_speed_throttle t addr_in d now random32).
Proof.
  intros Hmapped Hkey t' age.
  destruct (set_throttle_epoch_us_stored t key epoch_us dir ratio set_at Hkey)
    as ((previous & Hstored & _) & Hother & Hips & Hcounts & Hjitter).
  fold t' in Hstored, Hother, Hips, Hcounts, Hjitter.
  assert (Hage : forall policy : speed_hash_value_t float,
             received_epoch_sec policy = u32 (tv_sec set_at) ->
             policy_age_epochs policy (u32 (tv_sec now)) = age).
  { intros policy Hrecv. unfold policy_age_epochs, age, u32. rewrite Hrecv. unfold u32.
    rewrite <- Zminus_mod. reflexivity. }
  assert (Hfound :
    (get_epoch_sec t' (ip_port_from_sockaddr (Some a)) dir (u32 (tv_sec now))).1
    = let stored :=
        {| throttle := 0; num_active_connections := 0;
           received_epoch_sec := u32 (tv_sec set_at); diff_ratio := ratio;
           elapsed_usec_in_the_epoch := u64 epoch_us mod UNIT_USECS_IN_SEC;
           allowed_run_time_usec := 0; previous_diff_ratio := previous |} in
      if age <=? BACKOFF_WINDOW_EPOCHS then
        compute_allowed_run_time
          (set_num_active_connections (set_throttle stored 1)
             (get_ip_port_count_from_key t' key))
          (u32 (tv_sec now))
      else stored).
  { unfold get_epoch_sec, get_key_from_ip_port. rewrite Hips, Hmapped.
    rewrite (nonempty_length key Hkey), Hstored.
    unfold is_valid_violation_policy. rewrite Hage by reflexivity.
    cbv zeta. destruct (age <=? BACKOFF_WINDOW_EPOCHS); reflexivity. }
  split_and!.
  - intros Hzero. unfold rl_speed_throttle.
    cbn [get_current_epoch in_seconds now_elapsed_usec_in_the_epoch].
    rewrite Hfound. cbv zeta. rewrite Hzero. cbn [Z.leb Z.compare BACKOFF_WINDOW_EPOCHS].
    rewrite allowed_run_time_age_zero by (rewrite Hage by reflexivity; exact Hzero).
    cbn [compute_allowed_run_time throttle].
    pose proof (u64_range (tv_usec now)).
    destruct (Z.ltb_spec (u64 (tv_usec now)) 0); [lia | reflexivity].
  - intros Hmid Husec Hfits Hrange. unfold rl_speed_throttle.
    cbn [get_current_epoch in_seconds now_elapsed_usec_in_the_epoch].
    rewrite Hfound. cbv zeta.
    destruct (Z.leb_spec age BACKOFF_WINDOW_EPOCHS) as [_ | Hover];
      [| unfold BACKOFF_WINDOW_EPOCHS in Hover; lia].
    cbn [compute_allowed_run_time throttle].
    match goal with
    | |- context [allowed_run_time_usec ?p] => set (policy := p)
    end.
    assert (Hallowed : 50000 <= allowed_run_time_usec policy).
    { subst policy.
      match goal with
      | |- context [compute_allowed_run_time ?q ?c] =>
          pose proof (allowed_run_time_backoff q c) as Hb
      end.
      rewrite Hage in Hb by reflexivity.
      rewrite Hb by (unfold BACKOFF_WINDOW_EPOCHS; lia).
      cbn [elapsed_usec_in_the_epoch diff_ratio set_num_active_connections set_throttle].
      unfold RunTime.scaled_quotient in Hfits. rewrite MAX_is_max in Hfits.
      rewrite scale_by_pow2_defined by exact Hfits.
      unfold MIN_RUN_TIME_USEC, UINT_USECS_IN_MILLISEC, UNIT_USECS_IN_SEC in *.
      set (q := u64 (div_to_u64 _ _)) in *.
      assert (Hq : 0 <= q) by (subst q; apply u64_range).
      pose proof (double_of_u64_lower (Z.max (50 * 1000) q) ltac:(lia)) as Hlow.
      assert (50000 <= Z.min (Z.max (50 * 1000) q) (2 ^ 52)) by lia.
      assert (1 <= 2 ^ (age - 1)) by (apply (Z.pow_le_mono_r 2 0); lia).
      nia. }
    rewrite (u64_small (tv_usec now)) by lia.
    destruct (Z.ltb_spec (tv_usec now) (allowed_run_time_usec policy)); [| lia].
    unfold get_jitter_usec. rewrite Hjitter.
    destruct (Z.eqb_spec (u32 (BASE_JITTER_RANGE_MS t)) 0) as [Hzero | _]; [contradiction |].
    destruct (fleb _ _ || fltb _ _); eexists; reflexivity.
  - intros Hold. unfold rl_speed_throttle.
    cbn [get_current_epoch in_seconds now_elapsed_usec_in_the_epoch].
    rewrite Hfound. cbv zeta.
    destruct (Z.leb_spec age BACKOFF_WINDOW_EPOCHS) as [Hle | _];
      [unfold BACKOFF_WINDOW_EPOCHS in Hle; lia |].
    reflexivity.
  - intros d addr_in Hd.
    apply rl_speed_throttle_same_found; [exact Hjitter |].
    cbv zeta. left. unfold get_epoch_sec, get_key_from_ip_port, get_ip_port_count_from_key.
    rewrite Hips, Hcounts, (Hother d Hd). reflexivity.
Qed.

(** X7.  The pause taken by a call that is let through is a whole number
    of milliseconds below the jitter range, and a call that answers
    RL_THROTTLE takes none: with a jitter range of 1 ms or more the call
    returns, and HAProxy's thread is never held for
    [BASE_JITTER_RANGE_MS] milliseconds or more. *)
Theorem X7_jitter_is_below_the_range (t : tables float) (addr_in : option sockaddr_in)
    (dir : DataDirection) (now : timeval) (random32 : Z) :
  0 < BASE_JITTER_RANGE_MS t <= 4294967 ->
  exists answer,
    rl_speed_throttle t addr_in dir now random32 = Some answer
    /\ 0 <= answer.2 <= (BASE_JITTER_RANGE_MS t - 1) * 1000
    /\ answer.2 mod 1000 = 0
    /\ (answer.1 = RL_THROTTLE -> answer.2 = 0).
Proof.
  intros Hrange. unfold rl_speed_throttle.
  assert (Hjitter : forall policy,
             exists slept,
               get_jitter_usec t policy random32 = Some slept
               /\ 0 <= slept <= (BASE_JITTER_RANGE_MS t - 1) * 1000
               /\ slept mod 1000 = 0).
  { intros policy. unfold get_jitter_usec, UINT_USECS_IN_MILLISEC.
    rewrite (u32_small (BASE_JITTER_RANGE_MS t)) by lia.
    destruct (Z.eqb_spec (BASE_JITTER_RANGE_MS t) 0) as [Hzero | _]; [lia |].
    match goal with |- context [if ?b then _ else _] => destruct b end.
    - eexists. split; [reflexivity |].
      pose proof (Z.mod_pos_bound (u32 random32) (BASE_JITTER_RANGE_MS t) ltac:(lia)).
      rewrite u32_small by lia. rewrite Z.mod_mul by lia. lia.
    - exists 0. split; [reflexivity |]. split; [lia | reflexivity]. }
  destruct addr_in as [a |];
    [| eexists; split; [reflexivity |]; cbn [fst snd];
       split_and!; [lia | lia | reflexivity | discriminate]].
  match goal with |- context [throttle ?f =? 0] => set (found := f) end.
  destruct (throttle found =? 0);
    [eexists; split; [reflexivity |]; cbn [fst snd];
     split_and!; [lia | lia | reflexivity | discriminate] |].
  destruct (_ <? _).
  - destruct (Hjitter found) as (slept & -> & Hb & Hm).
    eexists. split; [reflexivity |]. cbn [fst snd].
    split_and!; [lia | lia | exact Hm | discriminate].
  - eexists. split; [reflexivity |]. cbn [fst snd].
    split_and!; [lia | lia | reflexivity | reflexivity].
Qed.

End Policies.

(** ** stringsplit.cpp: the fields and the input *)

Section SplitJoin.
Import StringSplit SplitterStates EventText.
Local Open Scope nat_scope.

Variable d : string_view.
Hypothesis d_not_empty : d <> [].

Lemma starts_with_app (x y : string_view) :
  starts_with d x = true -> starts_with d (x ++ y) = true.
Proof.
  clear d_not_empty. revert x.
  induction d as [| a d' IH]; intros x Hst; [reflexivity |].
  destruct x as [| b x']; cbn in Hst; [discriminate |].
  apply andb_true_iff in Hst as [Hab Hst]. cbn. rewrite Hab. exact (IH x' Hst).
Qed.

Lemma starts_with_take (l : string_view) :
  starts_with d l = true -> take (length d) l = d.
Proof.
  clear d_not_empty. revert l.
  induction d as [| a d' IH]; intros l Hst; [reflexivity |].
  destruct l as [| b l']; cbn in Hst; [discriminate |].
  apply andb_true_iff in Hst as [Hab Hst]. apply Ascii.eqb_eq in Hab. subst b.
  cbn. f_equal. exact (IH l' Hst).
Qed.

Lemma starts_with_self (rest : string_view) : starts_with d (d ++ rest) = true.
Proof.
  clear d_not_empty. induction d as [| a d' IH]; [reflexivity |].
  cbn. rewrite Ascii.eqb_refl. exact IH.
Qed.

Lemma find_first_occurrence (l : string_view) (k : nat) :
  find_first d l = Some k -> take (length d) (drop k l) = d.
Proof.
  revert k. induction l as [| a l' IH]; intros k Hfind; cbn in Hfind.
  - destruct (starts_with d []) eqn:Hst; [| discriminate].
    inversion Hfind; subst. apply starts_with_take in Hst. exact Hst.
  - destruct (starts_with d (a :: l')) eqn:Hst.
    + inversion Hfind; subst. apply starts_with_take in Hst. exact Hst.
    + destruct (find_first d l') as [k' |] eqn:Hrec; [| discriminate].
      inversion Hfind; subst. cbn. exact (IH k' eq_refl).
Qed.

Lemma find_first_take (l : string_view) (k : nat) :
  find_first d l = Some k -> find_first d (take k l) = None.
Proof.
  revert k. induction l as [| a l' IH]; intros k Hfind.
  - rewrite find_first_nil in Hfind by exact d_not_empty. discriminate.
  - cbn in Hfind. destruct (starts_with d (a :: l')) eqn:Hst.
    + inversion Hfind; subst. cbn [take]. apply find_first_nil. exact d_not_empty.
    + destruct (find_first d l') as [k' |] eqn:Hrec; [| discriminate].
      inversion Hfind; subst. cbn [take]. cbn [find_first].
      destruct (starts_with d (a :: take k' l')) eqn:Hst'.
      * apply (starts_with_app _ (drop k' l')) in Hst'.
        cbn [app] in Hst'. rewrite take_drop in Hst'. congruence.
      * rewrite (IH k' eq_refl). reflexivity.
Qed.

Lemma join_cons (f : string_view) (fs : list string_view) :
  fs <> [] -> join d (f :: fs) = f ++ d ++ join d fs.
Proof. destruct fs; [contradiction | reflexivity]. Qed.

Lemma join_snoc_empty (fs : list string_view) :
  fs <> [] -> join d (fs ++ [[]]) = join d fs ++ d.
Proof.
  clear d_not_empty. induction fs as [| f fs IH]; [contradiction |]. intros _.
  destruct fs as [| g fs].
  - cbn. rewrite app_nil_r. reflexivity.
  - change ((f :: g :: fs) ++ [[]]) with (f :: ((g :: fs) ++ [[]])).
    rewrite join_cons by (destruct fs; done).
    rewrite IH by done. rewrite (join_cons f (g :: fs)) by done.
    rewrite <- !app_assoc. reflexivity.
Qed.

(** The fields of a line, joined by the delimiter, are the line. *)
Lemma join_delimited_fields (l : string_view) : join d (delimited_fields d l) = l.
Proof.
  remember (length l) as n eqn:Hn. revert l Hn.
  induction n as [n IH] using lt_wf_ind. intros l Hn.
  rewrite delimited_fields_unfold by exact d_not_empty.
  destruct (find_first d l) as [k |] eqn:Hfind; [| reflexivity].
  pose proof (find_first_within d l k Hfind) as Hin.
  pose proof (find_first_occurrence l k Hfind) as Hocc.
  assert (0 < length d) by (destruct d; [contradiction | cbn; lia]).
  rewrite join_cons by (apply delimited_fields_not_nil; exact d_not_empty).
  rewrite (IH (length (drop (k + length d) l))) by (rewrite ?length_drop; lia).
  rewrite <- drop_drop. rewrite <- Hocc at 1.
  rewrite take_drop, take_drop. reflexivity.
Qed.

(** No field of a line contains the delimiter. *)
Lemma delimited_fields_free (l : string_view) :
  Forall (delimiter_free d) (delimited_fields d l).
Proof.
  remember (length l) as n eqn:Hn. revert l Hn.
  induction n as [n IH] using lt_wf_ind. intros l Hn.
  rewrite delimited_fields_unfold by exact d_not_empty.
  destruct (find_first d l) as [k |] eqn:Hfind.
  - pose proof (find_first_within d l k Hfind) as Hin.
    assert (0 < length d) by (destruct d; [contradiction | cbn; lia]).
    constructor; [exact (find_first_take l k Hfind) |].
    apply (IH (length (drop (k + length d) l))); [rewrite length_drop; lia | reflexivity].
  - constructor; [exact Hfind | constructor].
Qed.

(** X8.  Whenever the splitter reports success after [n] calls of
    [next], the [n] views it returned contain no delimiter and, joined by
    the delimiter, they are the input itself, or the input without the
    delimiter it ends with: no character of the input is lost or made
    up. *)
Theorem X8_accepted_fields_rebuild_the_input (input : string_view) (n : nat) :
  finishedSuccessfully (nexts n (make input d)).2 = true ->
  length (nexts n (make input d)).1 = n
  /\ (join d (nexts n (make input d)).1 = input
      \/ (0 < n /\ join d (nexts n (make input d)).1 ++ d = input))
  /\ Forall (delimiter_free d) (nexts n (make input d)).1.
Proof.
  intros Hok.
  assert (Hfields : has_fields n d input)
    by (apply (accepts_iff_has_fields d d_not_empty); exact Hok).
  pose proof (join_delimited_fields input) as Hjoin.
  pose proof (delimited_fields_free input) as Hfree.
  destruct Hfields as [Hlen | [Hlen Hlast]].
  - rewrite (nexts_fields d d_not_empty) by lia.
    rewrite take_ge by lia.
    split_and!; [exact Hlen | left; exact Hjoin | exact Hfree].
  - rewrite (nexts_fields d d_not_empty) by lia.
    set (fs := delimited_fields d input) in *.
    assert (Hsplit : fs = take n fs ++ [[]]).
    { destruct (last_Some fs []) as [[fs' Hfs'] _]; [exact Hlast |].
      rewrite Hfs'. rewrite Hfs', length_app in Hlen. cbn in Hlen.
      rewrite take_app_length' by lia. reflexivity. }
    split_and!.
    + rewrite length_take. lia.
    + destruct n as [| n'].
      * left. cbn [take join]. rewrite Hsplit in Hjoin. cbn in Hjoin. exact Hjoin.
      * right. split; [lia |].
        rewrite <- join_snoc_empty; [rewrite <- Hsplit; exact Hjoin |].
        intros Hnil. apply (f_equal length) in Hnil. rewrite length_take in Hnil.
        cbn [length] in Hnil. lia.
    + rewrite Hsplit in Hfree. apply Forall_app in Hfree as [Hfree _]. exact Hfree.
Qed.

End SplitJoin.

(** X9.  A splitter constructed with an empty delimiter is in the error
    state from the start: whatever the input, every call of [next]
    returns an empty view, and the splitter does not report success after
    any number of calls, not even for the empty input. *)
Theorem X9_empty_delimiter_never_succeeds (input : string_view) (n : nat) :
  (StringSplit.nexts n (StringSplit.make input [])).1 = replicate n []
  /\ StringSplit.finishedSuccessfully (StringSplit.nexts n (StringSplit.make input [])).2
     = false
  /\ StringSplit.m_index (StringSplit.nexts n (StringSplit.make input [])).2 = 0%nat.
Proof.
  rewrite nexts_failed by reflexivity. split_and!; reflexivity.
Qed.

(** ** The text of the event lines *)

Section Decimal.
Import MsgProcessor EventText LogLines.

Lemma digits_value_snoc (ds : string_view) (c : ascii) :
  digits_value (ds ++ [c]) = digits_value ds * 10 + (Z.of_nat (nat_of_ascii c) - 48).
Proof. unfold digits_value. rewrite fold_left_app. reflexivity. Qed.

Lemma pretty_N_char_digit (x : N) :
  (x < 10)%N ->
  is_digit (pretty_N_char x) = true
  /\ Z.of_nat (nat_of_ascii (pretty_N_char x)) - 48 = Z.of_N x.
Proof.
  intros Hx.
  assert (x = 0 \/ x = 1 \/ x = 2 \/ x = 3 \/ x = 4 \/ x = 5 \/ x = 6 \/ x = 7
          \/ x = 8 \/ x = 9)%N as Hcases by lia.
  repeat (destruct Hcases as [-> | Hcases]; [split; reflexivity |]).
  subst x. split; reflexivity.
Qed.

(** The digits written by stdpp's [pretty] in front of the accumulator. *)
Lemma pretty_N_go_digits (x : N) :
  forall s : string,
  exists ds,
    sv (pretty_N_go x s) = ds ++ sv s
    /\ forallb is_digit ds = true
    /\ digits_value ds = Z.of_N x
    /\ ((0 < x)%N -> ds <> []).
Proof.
  induction (N.lt_wf_0 x) as [x _ IH]. intros s.
  destruct (N.eq_dec x 0%N) as [-> | Hpos].
  - exists []. rewrite pretty_N_go_0. split_and!; [reflexivity | reflexivity | reflexivity | lia].
  - rewrite pretty_N_go_step by lia.
    destruct (IH (x `div` 10)%N ltac:(apply N.div_lt; lia)
                (String (pretty_N_char (x `mod` 10)) s))
      as (ds & Htext & Hdigits & Hvalue & _).
    destruct (pretty_N_char_digit (x `mod` 10)%N ltac:(apply N.mod_lt; lia)) as [Hc Hv].
    exists (ds ++ [pretty_N_char (x `mod` 10)]). split_and!.
    + rewrite Htext. cbn [sv list_ascii_of_string]. rewrite <- app_assoc. reflexivity.
    + rewrite forallb_app, Hdigits. cbn. rewrite Hc. reflexivity.
    + rewrite digits_value_snoc, Hvalue, Hv.
      pose proof (N.div_mod x 10%N ltac:(lia)). lia.
    + intros _ Hnil. destruct ds; discriminate.
Qed.

(** The text of a number that is not negative: a non-empty run of
    digits whose value is the number. *)
Lemma decimal_digits (n : Z) :
  0 <= n ->
  decimal n <> [] /\ forallb is_digit (decimal n) = true /\ digits_value (decimal n) = n.
Proof.
  intros Hn. unfold decimal, dec. destruct n as [| q | q]; [| | lia].
  - split_and!; [discriminate | reflexivity | reflexivity].
  - unfold pretty, pretty_Z, pretty, pretty_positive, pretty, pretty_N.
    destruct (decide (N.pos q = 0%N)) as [E | _]; [discriminate |].
    destruct (pretty_N_go_digits (N.pos q) "") as (ds & Htext & Hdigits & Hvalue & Hne).
    cbn [sv list_ascii_of_string] in Htext. rewrite app_nil_r in Htext.
    rewrite Htext. split_and!; [apply Hne; lia | exact Hdigits |].
    rewrite Hvalue. reflexivity.
Qed.

(** The text of a negative number: a minus sign and the digits of its
    absolute value. *)
Lemma decimal_negative (n : Z) :
  n < 0 ->
  exists ds,
    decimal n = "-"%char :: ds
    /\ ds <> [] /\ forallb is_digit ds = true /\ digits_value ds = - n.
Proof.
  intros Hn. destruct n as [| q | q]; [lia | lia |].
  destruct (decimal_digits (Z.pos q) ltac:(lia)) as (Hne & Hdigits & Hvalue).
  exists (decimal (Z.pos q)). split_and!; [| exact Hne | exact Hdigits |].
  - unfold decimal, dec, pretty, pretty_Z. unfold sv.
    change ("-" +:+ pretty q)%string with (String "-" (pretty q)). reflexivity.
  - rewrite Hvalue. reflexivity.
Qed.

Lemma digits_prefix_all (ds : string_view) :
  forallb is_digit ds = true -> digits_prefix ds = ds.
Proof.
  induction ds as [| c ds IH]; [reflexivity |]. cbn. intros Hall.
  apply andb_true_iff in Hall as [Hc Hall]. rewrite Hc, (IH Hall). reflexivity.
Qed.

Lemma is_digit_differs (c x : ascii) :
  is_digit c = true -> is_digit x = false -> Ascii.eqb c x = false.
Proof.
  intros Hc Hx. destruct (Ascii.eqb_spec c x) as [-> | _]; [congruence | reflexivity].
Qed.

Lemma digits_free_of (x : ascii) (ds : string_view) :
  is_digit x = false -> forallb is_digit ds = true -> free_of x ds = true.
Proof.
  intros Hx. unfold free_of. induction ds as [| c ds IH]; [reflexivity |]. cbn.
  intros Hall. apply andb_true_iff in Hall as [Hc Hall].
  rewrite (is_digit_differs c x Hc Hx), (IH Hall). reflexivity.
Qed.

(** [std::from_chars] reads back what [%d], [%u] and [{}] write, as long
    as the number fits an [int]. *)
Lemma from_chars_int_decimal (n : Z) :
  from_chars_int (decimal n)
  = if (INT_MIN <=? n) && (n <=? INT_MAX) then Some n else None.
Proof.
  unfold from_chars_int.
  destruct (Z_lt_le_dec n 0) as [Hneg | Hnat].
  - destruct (decimal_negative n Hneg) as (ds & Htext & Hne & Hdigits & Hvalue).
    rewrite Htext. cbn -[digits_value INT_MIN INT_MAX].
    rewrite (digits_prefix_all ds Hdigits).
    destruct ds as [| c ds]; [contradiction |].
    rewrite Hvalue. replace (- - n) with n by lia. reflexivity.
  - destruct (decimal_digits n Hnat) as (Hne & Hdigits & Hvalue).
    destruct (decimal n) as [| c ds] eqn:Htext; [contradiction |].
    assert (Hc : Ascii.eqb c "-" = false).
    { apply is_digit_differs; [| reflexivity].
      cbn in Hdigits. apply andb_true_iff in Hdigits as [Hc _]. exact Hc. }
    rewrite Hc. cbv beta iota zeta.
    rewrite (digits_prefix_all (c :: ds) Hdigits). rewrite Hvalue.
    reflexivity.
Qed.

Lemma free_of_app (c : ascii) (x y : string_view) :
  free_of c (x ++ y) = free_of c x && free_of c y.
Proof. unfold free_of. apply forallb_app. Qed.

(** A number is written with digits and a minus sign only. *)
Lemma decimal_free_of (x : ascii) (n : Z) :
  is_digit x = false -> Ascii.eqb "-" x = false -> free_of x (decimal n) = true.
Proof.
  intros Hx Hminus. destruct (Z_lt_le_dec n 0) as [Hneg | Hnat].
  - destruct (decimal_negative n Hneg) as (ds & Htext & _ & Hdigits & _).
    rewrite Htext. unfold free_of. cbn [forallb]. fold (free_of x ds).
    rewrite Hminus, (digits_free_of x ds Hx Hdigits). reflexivity.
  - destruct (decimal_digits n Hnat) as (_ & Hdigits & _).
    exact (digits_free_of x _ Hx Hdigits).
Qed.

Lemma source_free_of (x : ascii) (a : RateLimit.sockaddr_in) :
  is_digit x = false -> Ascii.eqb "-" x = false -> Ascii.eqb "." x = false ->
  Ascii.eqb ":" x = false -> free_of x (source a) = true.
Proof.
  intros Hx Hminus Hdot Hcolon. unfold source, inet_ntoa.
  rewrite !free_of_app, !(decimal_free_of x _ Hx Hminus).
  change (free_of x (sv ".")) with (negb (Ascii.eqb "." x) && true).
  change (free_of x (sv ":")) with (negb (Ascii.eqb ":" x) && true).
  rewrite Hdot, Hcolon. reflexivity.
Qed.

End Decimal.

Section JoinedFields.
Import StringSplit EventText.
Local Open Scope nat_scope.

Variable c : ascii.
Variable d' : string_view.

Lemma starts_with_free (f rest : string_view) (x : ascii) :
  free_of c (x :: f) = true -> starts_with (c :: d') (x :: rest) = false.
Proof.
  unfold free_of. cbn. intros Hfree. apply andb_true_iff in Hfree as [Hx _].
  rewrite Ascii.eqb_sym. apply negb_true_iff in Hx. rewrite Hx. reflexivity.
Qed.

(** A field without the first character of the delimiter ends at the
    delimiter that follows it. *)
Lemma find_first_after_field (f rest : string_view) :
  free_of c f = true ->
  find_first (c :: d') (f ++ (c :: d') ++ rest) = Some (length f).
Proof.
  induction f as [| x f IH]; intros Hfree.
  - pose proof (starts_with_self (c :: d') rest) as Hself. cbn [app] in Hself.
    cbn [app length find_first]. rewrite Hself. reflexivity.
  - cbn [app length find_first] in IH |- *.
    rewrite (starts_with_free f _ x Hfree).
    rewrite IH; [reflexivity |].
    unfold free_of in *. cbn in Hfree. apply andb_true_iff in Hfree as [_ Hfree]. exact Hfree.
Qed.

Lemma find_first_free (f : string_view) :
  free_of c f = true -> find_first (c :: d') f = None.
Proof.
  induction f as [| x f IH]; intros Hfree; [reflexivity |].
  cbn [find_first]. rewrite (starts_with_free f f x Hfree).
  rewrite IH; [reflexivity |].
  unfold free_of in *. cbn in Hfree. apply andb_true_iff in Hfree as [_ Hfree]. exact Hfree.
Qed.

(** Splitting undoes joining when no field holds the first character of
    the delimiter. *)
Lemma delimited_fields_join (fs : list string_view) :
  fs <> [] ->
  Forall (fun f => free_of c f = true) fs ->
  delimited_fields (c :: d') (join (c :: d') fs) = fs.
Proof.
  induction fs as [| f fs IH]; [contradiction |]. intros _ Hfree.
  apply Forall_cons in Hfree as [Hf Hfs].
  rewrite delimited_fields_unfold by discriminate.
  destruct fs as [| g fs].
  - cbn [join]. rewrite (find_first_free f Hf). reflexivity.
  - rewrite join_cons by done.
    rewrite (find_first_after_field f _ Hf).
    rewrite take_app_length.
    rewrite app_assoc, drop_app_length', IH by (rewrite ?length_app; done).
    reflexivity.
Qed.

End JoinedFields.

(** ** From the filter's log lines to the aggregator's counters *)

Section EventRoundTrips.
Import RateLimit FltWeir FltWeirHooks LogLines MsgProcessor EventText Pipeline.
Context {freq_ctr : Type} `{FreqCtr freq_ctr}.
Context {float : Type} `{CFloat float}.

Lemma tilde_is_no_digit : is_digit "~" = false.
Proof. reflexivity. Qed.

Lemma source_tilde_free (a : sockaddr_in) : free_of "~" (source a) = true.
Proof. apply source_free_of; reflexivity. Qed.

Lemma decimal_tilde_free (n : Z) : free_of "~" (decimal n) = true.
Proof. apply decimal_free_of; reflexivity. Qed.

Lemma method_name_tilde_free (meth : http_meth_t) : free_of "~" (sv (method_name meth)) = true.
Proof. destruct meth; reflexivity. Qed.


(** The fields of a line written with [~|~] between fields that hold no
    [~]. *)
Lemma fields_of_line (fs : list string_view) :
  fs <> [] ->
  Forall (fun f => free_of "~" f = true) fs ->
  StringSplit.delimited_fields DELIMITER (join DELIMITER fs) = fs.
Proof. apply (delimited_fields_join "~" (sv "|~")). Qed.


Lemma req_fields (l : req_line) :
  tilde_free (sv (req_key l)) ->
  tilde_free (sv (req_direction l)) ->
  tilde_free (sv (req_instance l)) ->
  tilde_free (sv (req_class l)) ->
  StringSplit.delimited_fields DELIMITER (req_text l)
  = [sv "req"; source (req_addr l); sv (req_key l); sv (method_name (req_method l));
     sv (req_direction l); sv (req_instance l); decimal (req_active_requests l);
     sv (req_class l)].
Proof.
  intros Hkey Hdir Hinstance Hclass.
  change (req_text l)
    with (join DELIMITER [sv "req"; source (req_addr l); sv (req_key l);
                          sv (method_name (req_method l)); sv (req_direction l);
                          sv (req_instance l); decimal (req_active_requests l);
                          sv (req_class l)]).
  apply fields_of_line; [discriminate |].
  repeat constructor;
    [apply source_tilde_free | exact Hkey | apply method_name_tilde_free | exact Hdir
     | exact Hinstance | apply decimal_tilde_free | exact Hclass].
Qed.



Lemma from_chars_int_fits (n : Z) :
  INT_MIN <= n <= INT_MAX -> from_chars_int (decimal n) = Some n.
Proof.
  intros Hn. rewrite from_chars_int_decimal.
  destruct (Z.leb_spec INT_MIN n); [| lia]. destruct (Z.leb_spec n INT_MAX); [| lia].
  reflexivity.
Qed.



(** X11.  The [req] line that [weir_http_headers] writes carries the
    stream's key, verb and direction, the filter's instance id and the
    user's active-request count, and the aggregator reads it back: it
    counts one request for the verb, one for the request class when
    there is one, and sets the gauge of the user, direction and
    instance to the active-request count. *)
Theorem X11_req_line_is_counted (conf : weir_filter_config freq_ctr) (st : weir_lim_state)
    (limit : option string) (txn : option http_meth_t) (r : headers_result) (l : req_line)
    (p : Processor) (now_class now_verb : Z) :
  weir_http_headers conf st limit true txn = Some r ->
  l ∈ hd_lines r ->
  tilde_free (sv (req_key l)) ->
  isPrintableASCII (sv (req_key l)) = true ->
  tilde_free (sv (req_direction l)) ->
  tilde_free (sv (req_instance l)) ->
  tilde_free (sv (req_class l)) ->
  INT_MIN <= req_active_requests l <= INT_MAX ->
  (limit_key st = Some (req_key l)
   /\ bandwidth_limit_direction st = Some (req_direction l)
   /\ txn = Some (req_method l)
   /\ req_instance l = instance_id conf
   /\ exists entry lim,
       limit = Some entry
       /\ user_limit_state conf !! entry = Some lim
       /\ req_active_requests l
          = active_requests (direction_limit lim (verb_direction (req_method l))))
  /\ consume p now_class now_verb (req_text l)
     = with_request p now_class now_verb (sv (req_key l)) (sv (method_name (req_method l)))
         (sv (req_direction l)) (sv (req_instance l)) (sv (req_class l))
         (req_active_requests l).
Proof.
  intros Hheaders Hin Hkey Hprint Hdir Hinstance Hclass Hfits. split.
  - unfold weir_http_headers in Hheaders.
    destruct txn as [meth |]; [| inversion Hheaders; subst r; cbn in Hin; inversion Hin].
    destruct (remote_addr st) as [addr |];
      [| inversion Hheaders; subst r; cbn in Hin; inversion Hin].
    destruct (enabled st && true);
      [| inversion Hheaders; subst r; cbn in Hin; inversion Hin].
    destruct limit as [entry |]; [| discriminate].
    destruct (user_limit_state conf !! entry) as [lim |] eqn:Hentry; [| discriminate].
    cbn [set_headers_processed limit_key bandwidth_limit_direction request_class] in Hheaders.
    destruct (limit_key st) as [key |]; [| discriminate].
    destruct (bandwidth_limit_direction st) as [direction |]; [| discriminate].
    inversion Hheaders; subst r; cbn [hd_lines] in Hin.
    apply list_elem_of_singleton in Hin. subst l. cbn.
    split_and!; try reflexivity. exists entry, lim. split_and!; [reflexivity | exact Hentry |].
    reflexivity.
  - assert (Hconsume : consume p now_class now_verb (req_text l)
                       = processReq p now_class now_verb (req_text l)) by reflexivity.
    rewrite Hconsume. unfold with_request. apply processReq_event.
    exists (source (req_addr l)), (decimal (req_active_requests l)). split_and!.
    + apply req_fields; assumption.
    + apply from_chars_int_fits. exact Hfits.
    + exact Hprint.
Qed.



End EventRoundTrips.

(** ** flt_weir.c: the request hooks *)

Section RequestHooks.
Import RateLimit FltWeir FltWeirHooks RequestLifeCycle.
Context {freq_ctr : Type} `{FreqCtr freq_ctr}.
Context {float : Type} `{CFloat float}.

Lemma active_requests_add (lim : user_limit freq_ctr) (dir d : DataDirection) (delta : Z) :
  active_requests (direction_limit (add_active_requests lim dir delta) d)
  = active_requests (direction_limit lim d) + (if decide (dir = d) then delta else 0).
Proof.
  unfold add_active_requests, set_active_requests.
  destruct dir, d; case_decide; try congruence; cbn; lia.
Qed.

Lemma add_active_requests_undo (lim : user_limit freq_ctr) (dir : DataDirection) (tick : Z) :
  add_active_requests (set_last_request_end_tick (add_active_requests lim dir 1) tick) dir (-1)
  = set_last_request_end_tick lim tick.
Proof.
  destruct lim as [[] [] ?].
  unfold add_active_requests, set_last_request_end_tick, set_active_requests.
  destruct dir; cbn; repeat f_equal; lia.
Qed.

(** An entry with a request in flight is not freed. *)
Lemma user_expired_active (now_ms : Z) (lim : user_limit freq_ctr) (dir : DataDirection) :
  0 < active_requests (direction_limit lim dir) -> user_expired now_ms lim = false.
Proof.
  unfold user_expired. destruct dir; cbn [direction_limit]; intros Hpos.
  - destruct (Z.leb_spec (active_requests (upload lim)) 0); [lia |].
    rewrite andb_false_r. reflexivity.
  - destruct (Z.leb_spec (active_requests (download lim)) 0); [lia |]. reflexivity.
Qed.

(** The call that registers the stream. *)
Lemma weir_enable_filter_registers (conf : weir_filter_config freq_ctr) (st : weir_lim_state)
    (limit : option string) (from : act_from) (meth : http_meth_t) (now_ms : Z)
    (key : string) (operation_class operation_direction : option string) :
  from <> ACT_F_OTHER ->
  enabled st = false ->
  recognised operation_direction ->
  exists r,
    weir_enable_filter conf st limit from meth now_ms (Some key) operation_class
      operation_direction = Some r
    /\ en_state r
       = store_samples (set_enabled st true) (Some key) operation_class operation_direction
    /\ en_limit r = Some key
    /\ en_registered r = true
    /\ en_warnings r = []
    /\ instance_id (en_conf r) = instance_id conf
    /\ user_limit_state (en_conf r)
       = (if tick_is_expired (next_cleanup_tick conf) now_ms
          then cleanup_user_limits now_ms
          else fun m => m)
           (<[key := add_active_requests (record_of conf key) (verb_direction meth) 1]>
              (user_limit_state conf)).
Proof.
  intros Hfrom Henabled Hdirection.
  assert (Hexpected :
    match operation_direction with
    | Some d => negb (String.eqb d "up") && negb (String.eqb d "dwn")
    | None => false
    end = false).
  { destruct Hdirection as [-> | [-> | ->]]; reflexivity. }
  unfold weir_enable_filter. rewrite Henabled, Hexpected.
  cbn [store_samples limit_key]. unfold record_of.
  destruct from; [| | contradiction];
    (eexists; split; [reflexivity |]; cbn [en_state en_limit en_registered en_warnings en_conf
                                           instance_id user_limit_state];
     split_and!; try reflexivity;
     destruct (tick_is_expired (next_cleanup_tick conf) now_ms); reflexivity).
Qed.

(** X14.  A request from start to end.  When the filter is activated on
    a stream with a user key and the direction [up] or [dwn], the hook
    registers the stream under the user's record and counts one more
    request in the direction of the verb; the [req] line carries that
    incremented count; when the stream is detached the count is taken
    back, the [req_end] line carries the count after the decrement, the
    connection is removed from the tables of rate_limit.c, and the
    user's record is what it was before the request, apart from the
    tick of the last request end. *)
Theorem X14_request_life_cycle (conf : weir_filter_config freq_ctr) (t : tables float)
    (st : weir_lim_state) (limit : option string) (from : act_from) (meth : http_meth_t)
    (now_ms end_ms : Z) (key direction : string) (operation_class : option string)
    (a : sockaddr_in) :
  from <> ACT_F_OTHER ->
  enabled st = false ->
  remote_addr st = Some a ->
  direction = "up"%string \/ direction = "dwn"%string ->
  0 <= in_flight conf key (verb_direction meth) ->
  exists r1 r2 r3 started ended,
    weir_enable_filter conf st limit from meth now_ms (Some key) operation_class
      (Some direction) = Some r1
    /\ in_flight (en_conf r1) key (verb_direction meth)
       = in_flight conf key (verb_direction meth) + 1
    /\ weir_http_headers (en_conf r1) (en_state r1) (en_limit r1) true (Some meth) = Some r2
    /\ hd_lines r2 = [started]
    /\ req_key started = key
    /\ req_direction started = direction
    /\ req_active_requests started = in_flight conf key (verb_direction meth) + 1
    /\ weir_detach (en_conf r1) t (hd_state r2) (en_limit r1) (Some meth) end_ms = Some r3
    /\ dt_lines r3 = [ended]
    /\ end_key ended = key
    /\ end_active_requests ended = in_flight conf key (verb_direction meth)
    /\ dt_tables r3 = rl_request_end t (Some a)
    /\ user_limit_state (dt_conf r3) !! key
       = Some (set_last_request_end_tick (record_of conf key) (u32 end_ms)).
Proof.
  intros Hfrom Henabled Haddr Hdirection Hcount.
  assert (Hrecognised : recognised (Some direction)).
  { destruct Hdirection as [-> | ->]; [right; left | right; right]; reflexivity. }
  destruct (weir_enable_filter_registers conf st limit from meth now_ms key operation_class
              (Some direction) Hfrom Henabled Hrecognised)
    as (r1 & Hr1 & Hstate & Hlimit & _ & _ & Hinstance & Htable).
  set (dir := verb_direction meth) in *.
  set (counted := add_active_requests (record_of conf key) dir 1) in *.
  assert (Hentry : user_limit_state (en_conf r1) !! key = Some counted).
  { rewrite Htable. destruct (tick_is_expired (next_cleanup_tick conf) now_ms).
    - unfold cleanup_user_limits. apply map_lookup_filter_Some. split.
      + apply lookup_insert_eq.
      + cbn [snd]. apply (user_expired_active now_ms counted dir).
        subst counted. rewrite active_requests_add.
        destruct (decide (dir = dir)); [| congruence]. unfold in_flight in Hcount. lia.
    - apply lookup_insert_eq. }
  assert (Hheaders :
    weir_http_headers (en_conf r1) (en_state r1) (en_limit r1) true (Some meth)
    = Some {| hd_state := set_headers_processed (en_state r1) true;
              hd_analyse_exp := TICK_ETERNITY;
              hd_lines :=
                [{| req_addr := a; req_key := key; req_method := meth;
                    req_direction := direction; req_instance := instance_id (en_conf r1);
                    req_active_requests := active_requests (direction_limit counted dir);
                    req_class :=
                      match request_class (en_state r1) with Some c => c | None => "" end |}]
           |}).
  { unfold weir_http_headers. rewrite Hlimit, Hentry, Hstate.
    cbn [store_samples set_enabled set_headers_processed remote_addr enabled limit_key
         bandwidth_limit_direction request_class andb].
    rewrite Haddr. reflexivity. }
  assert (Hdetach :
    weir_detach (en_conf r1) t (set_headers_processed (en_state r1) true) (en_limit r1)
      (Some meth) end_ms
    = Some {| dt_conf :=
                set_user_limit_state (en_conf r1)
                  (<[key := set_last_request_end_tick (record_of conf key) (u32 end_ms)]>
                     (user_limit_state (en_conf r1)));
              dt_tables := rl_request_end t (Some a);
              dt_lines :=
                [{| end_addr := a; end_key := key; end_method := meth;
                    end_direction := direction; end_instance := instance_id (en_conf r1);
                    end_active_requests :=
                      active_requests (direction_limit (record_of conf key) dir) |}] |}).
  { unfold weir_detach. rewrite Hlimit, Hentry, Hstate.
    cbn [store_samples set_enabled set_headers_processed remote_addr enabled limit_key
         bandwidth_limit_direction headers_processed andb].
    rewrite Haddr. fold dir. subst counted.
    rewrite add_active_requests_undo. reflexivity. }
  eexists r1, _, _, _, _. split_and!.
  - exact Hr1.
  - unfold in_flight at 1. unfold record_of at 1. rewrite Hentry. subst counted.
    rewrite active_requests_add. destruct (decide (dir = dir)); [| congruence].
    reflexivity.
  - exact Hheaders.
  - reflexivity.
  - reflexivity.
  - reflexivity.
  - cbn [req_active_requests]. subst counted. rewrite active_requests_add.
    destruct (decide (dir = dir)); [| congruence]. reflexivity.
  - exact Hdetach.
  - reflexivity.
  - reflexivity.
  - reflexivity.
  - reflexivity.
  - cbn [dt_conf set_user_limit_state user_limit_state]. apply lookup_insert_eq.
Qed.

(** X15.  Three ways of configuring [activate-weir] that trip a
    [WEIR_BUG_ON].  An operation-direction other than [up] and [dwn] is
    answered with a warning, but the stream stays enabled without a
    limit record, and [weir_http_headers] then fails its check of
    [st->limit] on the request.  Without an operation-direction the
    stream is registered, and [weir_http_headers] fails its check of
    [st->bandwidth_limit_direction].  Without a user key
    [weir_enable_filter] itself fails its check of [st->limit_key]. *)
Theorem X15_misconfigured_activation_hits_bug_on (conf : weir_filter_config freq_ctr)
    (st : weir_lim_state) (from : act_from) (meth : http_meth_t) (now_ms : Z)
    (key : string) (operation_class : option string) (a : sockaddr_in) :
  from <> ACT_F_OTHER ->
  enabled st = false ->
  remote_addr st = Some a ->
  (forall direction : string,
      direction <> "up"%string -> direction <> "dwn"%string ->
      exists r,
        weir_enable_filter conf st None from meth now_ms (Some key) operation_class
          (Some direction) = Some r
        /\ en_warnings r = [WarnUnexpectedDirection direction]
        /\ enabled (en_state r) = true
        /\ en_registered r = false
        /\ en_conf r = conf
        /\ weir_http_headers (en_conf r) (en_state r) (en_limit r) true (Some meth) = None)
  /\ (bandwidth_limit_direction st = None ->
      exists r,
        weir_enable_filter conf st None from meth now_ms (Some key) operation_class None
        = Some r
        /\ en_registered r = true
        /\ weir_http_headers (en_conf r) (en_state r) (en_limit r) true (Some meth) = None)
  /\ (limit_key st = None ->
      forall direction : option string,
        recognised direction ->
        weir_enable_filter conf st None from meth now_ms None operation_class direction
        = None).
Proof.
  intros Hfrom Henabled Haddr. split_and!.
  - intros direction Hup Hdwn.
    assert (Hunexpected : negb (String.eqb direction "up") && negb (String.eqb direction "dwn")
                          = true).
    { apply String.eqb_neq in Hup, Hdwn. rewrite Hup, Hdwn. reflexivity. }
    unfold weir_enable_filter. rewrite Henabled, Hunexpected.
    destruct from; [| | contradiction];
      (eexists; split; [reflexivity |];
       cbn [en_warnings en_state en_registered en_conf en_limit store_samples set_enabled
            enabled];
       split_and!; try reflexivity;
       unfold weir_http_headers;
       cbn [en_conf en_state en_limit store_samples set_enabled remote_addr enabled andb];
       rewrite Haddr; reflexivity).
  - intros Hnodir.
    destruct (weir_enable_filter_registers conf st None from meth now_ms key operation_class
                None Hfrom Henabled (or_introl eq_refl))
      as (r & Hr & Hstate & Hlimit & Hregistered & _ & _ & Htable).
    exists r. split_and!; [exact Hr | exact Hregistered |].
    unfold weir_http_headers. rewrite Hlimit, Hstate.
    cbn [store_samples set_enabled set_headers_processed remote_addr enabled limit_key
         bandwidth_limit_direction andb].
    rewrite Haddr, Hnodir.
    destruct (user_limit_state (en_conf r) !! key); reflexivity.
  - intros Hnokey direction Hdirection.
    assert (Hexpected :
      match direction with
      | Some d => negb (String.eqb d "up") && negb (String.eqb d "dwn")
      | None => false
      end = false).
    { destruct Hdirection as [-> | [-> | ->]]; reflexivity. }
    unfold weir_enable_filter. rewrite Henabled, Hexpected.
    cbn [store_samples set_enabled limit_key]. rewrite Hnokey.
    destruct from; [reflexivity | reflexivity | contradiction].
Qed.

(** X16.  What [weir_enable_filter] does to the records of the other
    users.  It never changes one: a record found afterwards under
    another key is the record that was there before.  It removes one
    only when the clean-up is due, the user has no request in flight in
    either direction and the tick five seconds after the user's last
    request end has expired; in particular the shares and the counter
    of a user with a request in flight are never lost. *)
Theorem X16_cleanup_spares_active_users (conf : weir_filter_config freq_ctr)
    (st : weir_lim_state) (limit : option string) (from : act_from) (meth : http_meth_t)
    (now_ms : Z) (user_key operation_class operation_direction : option string)
    (r : enable_result freq_ctr) (other : string) :
  weir_enable_filter conf st limit from meth now_ms user_key operation_class
    operation_direction = Some r ->
  not_registered_as r other ->
  (forall lim,
      user_limit_state (en_conf r) !! other = Some lim ->
      user_limit_state conf !! other = Some lim)
  /\ (forall lim,
        user_limit_state conf !! other = Some lim ->
        user_limit_state (en_conf r) !! other = None ->
        tick_is_expired (next_cleanup_tick conf) now_ms = true
        /\ active_requests (download lim) <= 0
        /\ active_requests (upload lim) <= 0
        /\ tick_is_expired
             (tick_add (last_request_end_tick lim) USERMAP_CLEANUP_MIN_MS_SINCE_DISCONNECT)
             now_ms = true).
Proof.
  intros Hcall Hother.
  assert (Hcases :
    en_conf r = conf
    \/ exists key,
        en_registered r = true /\ en_limit r = Some key
        /\ user_limit_state (en_conf r)
           = (if tick_is_expired (next_cleanup_tick conf) now_ms
              then cleanup_user_limits now_ms
              else fun m => m)
               (<[key := add_active_requests (record_of conf key) (verb_direction meth) 1]>
                  (user_limit_state conf))).
  { unfold weir_enable_filter in Hcall.
    destruct from;
      [| | inversion Hcall; left; reflexivity];
      (destruct (enabled st); [inversion Hcall; left; reflexivity |];
       destruct (match operation_direction with
                 | Some d => negb (String.eqb d "up") && negb (String.eqb d "dwn")
                 | None => false
                 end); [inversion Hcall; left; reflexivity |];
       destruct (limit_key (store_samples (set_enabled st true) user_key operation_class
                              operation_direction)) as [key |]; [| discriminate];
       inversion Hcall; right; exists key;
       cbn [en_registered en_limit en_conf user_limit_state]; unfold record_of;
       split_and!; try reflexivity;
       destruct (tick_is_expired (next_cleanup_tick conf) now_ms); reflexivity). }
  destruct Hcases as [-> | (key & Hregistered & Hlimit & Htable)].
  - split; [intros lim Hl; exact Hl | intros lim Hbefore Hafter; congruence].
  - assert (Hne : key <> other).
    { intros ->. exact (Hother Hregistered Hlimit). }
    rewrite Htable. destruct (tick_is_expired (next_cleanup_tick conf) now_ms).
    + unfold cleanup_user_limits. split.
      * intros lim Hl. apply map_lookup_filter_Some in Hl as [Hl _].
        rewrite lookup_insert_ne in Hl by exact Hne. exact Hl.
      * intros lim Hbefore Hafter.
        apply map_lookup_filter_None in Hafter as [Hafter | Hafter].
        -- rewrite lookup_insert_ne in Hafter by exact Hne. congruence.
        -- specialize (Hafter lim). rewrite lookup_insert_ne in Hafter by exact Hne.
           specialize (Hafter Hbefore). cbn [snd] in Hafter.
           apply not_false_is_true in Hafter. unfold user_expired in Hafter.
           apply andb_true_iff in Hafter as [Hcounts Htick].
           apply andb_true_iff in Hcounts as [Hdown Hup].
           apply Z.leb_le in Hdown, Hup. split_and!; [reflexivity | lia | lia | exact Htick].
    + split.
      * intros lim Hl. rewrite lookup_insert_ne in Hl by exact Hne. exact Hl.
      * intros lim Hbefore Hafter. rewrite lookup_insert_ne in Hafter by exact Hne.
        congruence.
Qed.

(** The record of the registered user after the activation. *)
Lemma weir_enable_filter_counts (conf : weir_filter_config freq_ctr) (st : weir_lim_state)
    (limit : option string) (from : act_from) (meth : http_meth_t) (now_ms : Z)
    (key : string) (operation_class operation_direction : option string) :
  from <> ACT_F_OTHER ->
  enabled st = false ->
  recognised operation_direction ->
  0 <= in_flight conf key (verb_direction meth) ->
  exists r,
    weir_enable_filter conf st limit from meth now_ms (Some key) operation_class
      operation_direction = Some r
    /\ en_state r
       = store_samples (set_enabled st true) (Some key) operation_class operation_direction
    /\ en_limit r = Some key
    /\ user_limit_state (en_conf r) !! key
       = Some (add_active_requests (record_of conf key) (verb_direction meth) 1)
    /\ in_flight (en_conf r) key (verb_direction meth)
       = in_flight conf key (verb_direction meth) + 1.
Proof.
  intros Hfrom Henabled Hdirection Hcount.
  destruct (weir_enable_filter_registers conf st limit from meth now_ms key operation_class
              operation_direction Hfrom Henabled Hdirection)
    as (r & Hr & Hstate & Hlimit & _ & _ & _ & Htable).
  set (dir := verb_direction meth) in *.
  assert (Hadded :
    active_requests (direction_limit (add_active_requests (record_of conf key) dir 1) dir)
    = in_flight conf key dir + 1).
  { rewrite active_requests_add. destruct (decide (dir = dir)); [| congruence]. reflexivity. }
  assert (Hentry : user_limit_state (en_conf r) !! key
                   = Some (add_active_requests (record_of conf key) dir 1)).
  { rewrite Htable. destruct (tick_is_expired (next_cleanup_tick conf) now_ms).
    - unfold cleanup_user_limits. apply map_lookup_filter_Some. split.
      + apply lookup_insert_eq.
      + cbn [snd]. apply (user_expired_active now_ms _ dir). lia.
    - apply lookup_insert_eq. }
  exists r. split_and!; [exact Hr | exact Hstate | exact Hlimit | exact Hentry |].
  unfold in_flight at 1. unfold record_of at 1. rewrite Hentry. exact Hadded.
Qed.

(** X22.  A request that is counted when it starts and never uncounted.
    [weir_enable_filter] counts the request whether or not the stream
    has an IPv4 source address.  When the stream has none, when the
    transaction is gone, or when the only headers hook that runs after
    the activation is that of the response (the activation came from a
    response rule), [weir_http_headers] writes no [req] line and does not
    mark the stream, and [weir_detach] then writes no [req_end] line and
    changes neither the filter nor the tables of rate_limit.c: the user
    keeps one more request in flight than before the request.  The same
    holds when no headers hook runs at all between activation and
    detach. *)
Theorem X22_request_counted_but_never_ended (conf : weir_filter_config freq_ctr)
    (t : tables float) (st : weir_lim_state) (limit : option string) (from : act_from)
    (meth : http_meth_t) (now_ms end_ms : Z) (key : string)
    (operation_class operation_direction : option string) (is_request : bool)
    (txn : option http_meth_t) :
  from <> ACT_F_OTHER ->
  enabled st = false ->
  headers_processed st = false ->
  recognised operation_direction ->
  0 <= in_flight conf key (verb_direction meth) ->
  remote_addr st = None \/ txn = None \/ is_request = false ->
  exists r1 r2 r3 r3',
    weir_enable_filter conf st limit from meth now_ms (Some key) operation_class
      operation_direction = Some r1
    /\ in_flight (en_conf r1) key (verb_direction meth)
       = in_flight conf key (verb_direction meth) + 1
    /\ weir_http_headers (en_conf r1) (en_state r1) (en_limit r1) is_request txn = Some r2
    /\ hd_lines r2 = []
    /\ weir_detach (en_conf r1) t (hd_state r2) (en_limit r1) txn end_ms = Some r3
    /\ dt_lines r3 = []
    /\ dt_conf r3 = en_conf r1
    /\ dt_tables r3 = t
    /\ weir_detach (en_conf r1) t (en_state r1) (en_limit r1) txn end_ms = Some r3'
    /\ dt_lines r3' = []
    /\ dt_conf r3' = en_conf r1
    /\ dt_tables r3' = t.
Proof.
  intros Hfrom Henabled Hheaders Hdirection Hcount Hcase.
  destruct (weir_enable_filter_counts conf st limit from meth now_ms key operation_class
              operation_direction Hfrom Henabled Hdirection Hcount)
    as (r1 & Hr1 & Hstate & Hlimit & _ & Hflight).
  assert (Hunmarked : headers_processed (en_state r1) = false).
  { rewrite Hstate. exact Hheaders. }
  assert (Haddress : remote_addr (en_state r1) = remote_addr st).
  { rewrite Hstate. reflexivity. }
  assert (Hrun : enabled (en_state r1) = true).
  { rewrite Hstate. reflexivity. }
  assert (Hhook :
    weir_http_headers (en_conf r1) (en_state r1) (en_limit r1) is_request txn
    = Some {| hd_state := en_state r1; hd_analyse_exp := TICK_ETERNITY; hd_lines := [] |}).
  { unfold weir_http_headers. rewrite Haddress, Hrun.
    destruct Hcase as [-> | [-> | ->]].
    - destruct txn; reflexivity.
    - reflexivity.
    - destruct txn, (remote_addr st); reflexivity. }
  assert (Hdetach :
    weir_detach (en_conf r1) t (en_state r1) (en_limit r1) txn end_ms
    = Some {| dt_conf := en_conf r1; dt_tables := t; dt_lines := [] |}).
  { unfold weir_detach. rewrite Haddress, Hrun, Hunmarked.
    destruct txn, (remote_addr st); reflexivity. }
  eexists r1, _, _, _. split_and!;
    [exact Hr1 | exact Hflight | exact Hhook | reflexivity | exact Hdetach
     | reflexivity | reflexivity | reflexivity | exact Hdetach
     | reflexivity | reflexivity | reflexivity].
Qed.

End RequestHooks.

(** ** syslog_server.cpp: from the datagram to the parser *)

Section Producer.
Import StringSplit SplitterStates MsgProcessor SyslogServer EventText.
Local Open Scope nat_scope.

Lemma find_from_start (input d : string_view) : find input d 0 = find_first d input.
Proof. unfold find. cbn [Nat.leb]. rewrite drop_0. destruct (find_first d input); reflexivity. Qed.

Lemma find_first_starts (d l : string_view) (k : nat) :
  find_first d l = Some k -> starts_with d (drop k l) = true.
Proof.
  revert k. induction l as [| a l' IH]; intros k Hfind; cbn in Hfind.
  - destruct (starts_with d []) eqn:Hst; [| discriminate].
    inversion Hfind; subst. exact Hst.
  - destruct (starts_with d (a :: l')) eqn:Hst.
    + inversion Hfind; subst. exact Hst.
    + destruct (find_first d l') as [k' |] eqn:Hrec; [| discriminate].
      inversion Hfind; subst. cbn. exact (IH k' eq_refl).
Qed.

Lemma find_first_nowhere (d l : string_view) (j : nat) :
  d <> [] -> find_first d l = None -> starts_with d (drop j l) = false.
Proof.
  intros Hd. revert j. induction l as [| a l' IH]; intros j Hfind.
  - rewrite drop_nil. destruct d; [contradiction | reflexivity].
  - cbn in Hfind. destruct (starts_with d (a :: l')) eqn:Hst; [discriminate |].
    destruct (find_first d l') eqn:Hrec; [discriminate |].
    destruct j as [| j]; [exact Hst | exact (IH j eq_refl)].
Qed.

Lemma starts_with_cons (a c : ascii) (m l : string_view) :
  starts_with (a :: m) (c :: l) = true -> a = c /\ starts_with m l = true.
Proof.
  cbn [starts_with]. intros Hst. apply andb_true_iff in Hst as [Hac Hst].
  apply Ascii.eqb_eq in Hac. split; assumption.
Qed.

(** Reads the first character of the text off a marker it starts with. *)
Ltac first_character H :=
  match type of H with
  | starts_with (_ :: _) ?l = true =>
      destruct l as [| ? ?]; [discriminate H |];
      apply starts_with_cons in H as [<- H]
  end.

(** The four markers begin with different letters, but for [req~|~] and
    [req_end~|~], which differ in the fourth. *)
Lemma markers_exclude (data : string_view) :
  (starts_with reqEnd data = true ->
   starts_with reqStart data = false
   /\ starts_with dataXfer data = false /\ starts_with activeReqs data = false)
  /\ (starts_with dataXfer data = true ->
      starts_with reqStart data = false /\ starts_with activeReqs data = false)
  /\ (starts_with activeReqs data = true ->
      starts_with reqStart data = false /\ starts_with dataXfer data = false).
Proof.
  split_and!; intros Hst.
  - unfold reqEnd, sv in Hst. cbn [list_ascii_of_string] in Hst.
    do 4 first_character Hst. split_and!; reflexivity.
  - unfold dataXfer, sv in Hst. cbn [list_ascii_of_string] in Hst.
    first_character Hst. split; reflexivity.
  - unfold activeReqs, sv in Hst. cbn [list_ascii_of_string] in Hst.
    first_character Hst. split; reflexivity.
Qed.

(** X17.  Every message that the producer thread puts on the queue is
    handled by one of the four parsers of the consumer thread: it begins
    with one of the markers [req~|~], [req_end~|~], [data_xfer~|~] and
    [active_reqs~|~], and [consume] hands it to the parser of that
    marker.  A datagram of zero bytes, or one that fills the receive
    buffer, is never enqueued. *)
Theorem X17_enqueued_messages_reach_a_parser (buffer_len : nat) (datagram data : string_view)
    (p : Processor) (now_class now_verb : Z) :
  receive buffer_len datagram = Enqueue data ->
  (0 < length datagram /\ length datagram < buffer_len)%nat
  /\ ((starts_with reqStart data = true
       /\ consume p now_class now_verb data = processReq p now_class now_verb data)
      \/ (starts_with reqEnd data = true
          /\ consume p now_class now_verb data = processReqEnd p data)
      \/ (starts_with dataXfer data = true
          /\ consume p now_class now_verb data = processDataXfer p now_verb data)
      \/ (starts_with activeReqs data = true
          /\ consume p now_class now_verb data = processActiveRequests p data)).
Proof.
  unfold receive. intros Hreceive.
  destruct (Nat.eqb_spec (length (take buffer_len datagram)) 0) as [| Hnonzero];
    [discriminate |].
  destruct (Nat.eqb_spec (length (take buffer_len datagram)) buffer_len) as [| Hsmall];
    [discriminate |].
  rewrite length_take in Hnonzero, Hsmall.
  split; [lia |].
  unfold route in Hreceive.
  set (buf_view := strip_trailing_newlines (take buffer_len datagram)) in *.
  unfold event_position in Hreceive. rewrite !find_from_start in Hreceive.
  unfold consume.
  change (sv "req~|~") with reqStart. change (sv "data_xfer~|~") with dataXfer.
  change (sv "active_reqs~|~") with activeReqs. change (sv "req_end~|~") with reqEnd.
  destruct (find_first reqStart buf_view) as [pos |] eqn:Hreq.
  { inversion Hreceive; subst data. unfold substr.
    pose proof (find_first_starts _ _ _ Hreq) as Hst. left. rewrite Hst. done. }
  destruct (find_first reqEnd buf_view) as [pos |] eqn:Hend.
  { inversion Hreceive; subst data. unfold substr.
    pose proof (find_first_starts _ _ _ Hend) as Hst.
    destruct (proj1 (markers_exclude _) Hst) as (H1 & H2 & H3).
    right. left. rewrite H1, H2, H3, Hst. done. }
  destruct (find_first dataXfer buf_view) as [pos |] eqn:Hxfer.
  { inversion Hreceive; subst data. unfold substr.
    pose proof (find_first_starts _ _ _ Hxfer) as Hst.
    destruct (proj1 (proj2 (markers_exclude _)) Hst) as (H1 & H2).
    right. right. left. rewrite H1, Hst. done. }
  destruct (find_first activeReqs buf_view) as [pos |] eqn:Hactive; [| destruct buf_view as [| c ?];
    [discriminate | destruct (Ascii.eqb c "{"); discriminate]].
  inversion Hreceive; subst data. unfold substr.
  pose proof (find_first_starts _ _ _ Hactive) as Hst.
  destruct (proj2 (proj2 (markers_exclude _)) Hst) as (H1 & H2).
  right. right. right. rewrite H1, H2, Hst. done.
Qed.

Lemma strip_trailing_newlines_kept (x : string_view) :
  last x <> Some newline -> strip_trailing_newlines x = x.
Proof.
  induction x as [| c x IH]; [reflexivity |]. intros Hlast.
  destruct x as [| c' x].
  - cbn. cbn in Hlast. destruct (Ascii.eqb_spec c newline) as [-> | _]; [contradiction | done].
  - change (last (c :: c' :: x)) with (last (c' :: x)) in Hlast.
    cbn [strip_trailing_newlines] in IH |- *. rewrite (IH Hlast). reflexivity.
Qed.

Lemma strip_trailing_newlines_all (k : nat) :
  strip_trailing_newlines (replicate k newline) = [].
Proof. induction k as [| k IH]; [reflexivity |]. cbn. rewrite IH. reflexivity. Qed.

Lemma strip_trailing_newlines_app (x : string_view) (k : nat) :
  x <> [] -> last x <> Some newline ->
  strip_trailing_newlines (x ++ replicate k newline) = x.
Proof.
  induction x as [| c x IH]; [contradiction |]. intros _ Hlast.
  destruct x as [| c' x].
  - cbn [app strip_trailing_newlines]. rewrite strip_trailing_newlines_all.
    cbn in Hlast. destruct (Ascii.eqb_spec c newline) as [-> | _]; [contradiction | done].
  - change (last (c :: c' :: x)) with (last (c' :: x)) in Hlast.
    change ((c :: c' :: x) ++ replicate k newline)
      with (c :: ((c' :: x) ++ replicate k newline)).
    cbn [strip_trailing_newlines]. rewrite (IH ltac:(done) Hlast). reflexivity.
Qed.

(** No occurrence of [req~|~] begins in a text without the letter q. *)
Lemma find_first_reqStart (pre rest : string_view) :
  free_of "q" pre = true ->
  find_first reqStart (pre ++ reqStart ++ rest) = Some (length pre).
Proof.
  induction pre as [| x pre IH]; intros Hfree; [reflexivity |].
  assert (Hpre : free_of "q" pre = true).
  { unfold free_of in *. cbn in Hfree. apply andb_true_iff in Hfree as [_ Hfree]. exact Hfree. }
  cbn [app length find_first].
  assert (Hst : starts_with reqStart (x :: pre ++ reqStart ++ rest) = false).
  { destruct (starts_with reqStart (x :: pre ++ reqStart ++ rest)) eqn:Hst; [| reflexivity].
    exfalso. unfold reqStart at 1, sv in Hst. cbn [list_ascii_of_string] in Hst.
    apply starts_with_cons in Hst as [<- Hst].
    destruct pre as [| y pre]; [cbn [app] in Hst; discriminate Hst |].
    cbn [app] in Hst. apply starts_with_cons in Hst as [<- Hst].
    destruct pre as [| z pre]; [cbn [app] in Hst; discriminate Hst |].
    cbn [app] in Hst. apply starts_with_cons in Hst as [<- Hst].
    cbn in Hfree. discriminate Hfree. }
  rewrite Hst, (IH Hpre). reflexivity.
Qed.

Lemma last_digits (x ds : string_view) :
  ds <> [] -> forallb is_digit ds = true -> last (x ++ ds) <> Some newline.
Proof.
  intros Hne Hdigits.
  destruct (exists_last Hne) as (ds' & c & ->).
  rewrite app_assoc, last_snoc. intros Hc. inversion Hc; subst c.
  rewrite forallb_app in Hdigits. apply andb_true_iff in Hdigits as [_ Hdigits].
  cbn in Hdigits. discriminate.
Qed.

(** X18.  The producer cuts the datagram at the first occurrence of
    [req~|~], wherever it lies: what precedes it is dropped and the rest,
    less the trailing newlines, is enqueued as a request.  So a
    [data_xfer] line whose user key ends in [req] is enqueued from the
    end of the key on; the consumer reads three fields where a request
    has eight, logs an unexpected request format, and counts nothing of
    the transfer. *)
Theorem X18_datagram_is_cut_at_the_first_req_marker :
  (forall (pre rest : string_view) (k : nat),
      free_of "q" pre = true ->
      last (reqStart ++ rest) <> Some newline ->
      route (pre ++ reqStart ++ rest ++ replicate k newline) = Enqueue (reqStart ++ rest))
  /\ (forall (header x : string_view) (l : RateLimit.data_xfer_line) (k : nat)
             (p : Processor) (now_class now_verb : Z),
        free_of "q" header = true ->
        free_of "q" x = true ->
        sv (RateLimit.xfer_key l) = x ++ sv "req" ->
        tilde_free (sv (RateLimit.xfer_direction l)) ->
        (0 <= RateLimit.xfer_done l)%Z ->
        route (header ++ LogLines.data_xfer_text l ++ replicate k newline)
        = Enqueue (reqStart ++ sv (RateLimit.xfer_direction l) ++ DELIMITER
                     ++ LogLines.decimal (RateLimit.xfer_done l))
        /\ consume p now_class now_verb
             (reqStart ++ sv (RateLimit.xfer_direction l) ++ DELIMITER
                ++ LogLines.decimal (RateLimit.xfer_done l))
           = log_error p
               (ErrRequestFormat
                  (reqStart ++ sv (RateLimit.xfer_direction l) ++ DELIMITER
                     ++ LogLines.decimal (RateLimit.xfer_done l)))).
Proof.
  assert (Hroute : forall (pre rest : string_view) (k : nat),
             free_of "q" pre = true ->
             last (reqStart ++ rest) <> Some newline ->
             route (pre ++ reqStart ++ rest ++ replicate k newline)
             = Enqueue (reqStart ++ rest)).
  { intros pre rest k Hpre Hlast. unfold route.
    replace (pre ++ reqStart ++ rest ++ replicate k newline)
      with ((pre ++ reqStart ++ rest) ++ replicate k newline)
      by (rewrite <- !app_assoc; reflexivity).
    rewrite strip_trailing_newlines_app.
    - unfold event_position. rewrite find_from_start, (find_first_reqStart pre rest Hpre).
      unfold substr. rewrite drop_app_length. reflexivity.
    - destruct pre; discriminate.
    - rewrite last_app. destruct (last (reqStart ++ rest)) eqn:E; [exact Hlast |].
      apply last_None in E. discriminate. }
  split; [exact Hroute |].
  intros header x l k p now_class now_verb Hheader Hx Hkey Hdir Hdone.
  set (direction := sv (RateLimit.xfer_direction l)) in *.
  set (count := LogLines.decimal (RateLimit.xfer_done l)).
  set (cut := reqStart ++ direction ++ DELIMITER ++ count).
  destruct (decimal_digits (RateLimit.xfer_done l) Hdone) as (Hne & Hdigits & _).
  fold count in Hne, Hdigits.
  split.
  - set (pre := header ++ sv "data_xfer" ++ DELIMITER
                  ++ LogLines.source (RateLimit.xfer_addr l) ++ DELIMITER ++ x).
    replace (header ++ LogLines.data_xfer_text l ++ replicate k newline)
      with (pre ++ reqStart ++ (direction ++ DELIMITER ++ count) ++ replicate k newline).
    + apply Hroute.
      * subst pre. rewrite !free_of_app, Hheader, Hx.
        rewrite source_free_of by reflexivity. reflexivity.
      * rewrite !app_assoc. apply last_digits; assumption.
    + subst pre. unfold LogLines.data_xfer_text. rewrite Hkey.
      change LogLines.LOG_DELIMITER with DELIMITER.
      change reqStart with (sv "req" ++ DELIMITER).
      fold direction. fold count. rewrite <- !app_assoc. reflexivity.
  - assert (Hfields : delimited_fields DELIMITER cut = [sv "req"; direction; count]).
    { change cut with (join DELIMITER [sv "req"; direction; count]).
      apply fields_of_line; [discriminate |].
      repeat constructor; [exact Hdir | apply decimal_tilde_free]. }
    assert (Hrejected : accepts 8 DELIMITER cut = false).
    { destruct (accepts 8 DELIMITER cut) eqn:Hacc; [| reflexivity].
      apply (accepts_iff_has_fields DELIMITER DELIMITER_not_empty) in Hacc.
      unfold has_fields in Hacc. rewrite Hfields in Hacc. cbn in Hacc.
      destruct Hacc as [Hacc | [Hacc _]]; discriminate. }
    assert (Hconsume : consume p now_class now_verb cut = processReq p now_class now_verb cut)
      by reflexivity.
    rewrite Hconsume. unfold processReq. unfold accepts in Hrejected.
    destruct (nexts 8 (make cut DELIMITER)) as [tokens split].
    cbn [snd] in Hrejected. rewrite Hrejected. reflexivity.
Qed.

End Producer.

(** ** msg_processor.cpp: the redis_server setting *)

Section RedisServerSetting.
Import StringSplit SplitterStates MsgProcessor SyslogServer EventText.
Local Open Scope nat_scope.

Lemma find_first_single (c : ascii) (f : string_view) :
  find_first [c] f = None -> free_of c f = true.
Proof.
  unfold free_of. induction f as [| x f IH]; intros Hfind; [reflexivity |].
  cbn [find_first starts_with] in Hfind. rewrite andb_true_r in Hfind.
  destruct (Ascii.eqb c x) eqn:Hcx; [discriminate |].
  destruct (find_first [c] f); [discriminate |].
  cbn [forallb]. rewrite Ascii.eqb_sym, Hcx. exact (IH eq_refl).
Qed.

Lemma colon_not_empty : sv ":" <> [].
Proof. discriminate. Qed.

(** What [nexts 2] returns for a line of two fields, or of two fields
    and a trailing delimiter. *)
Lemma two_fields (s host port_str : string_view) :
  delimited_fields (sv ":") s = [host; port_str]
  \/ delimited_fields (sv ":") s = [host; port_str; []] ->
  (nexts 2 (make s (sv ":"))).1 = [host; port_str]
  /\ finishedSuccessfully (nexts 2 (make s (sv ":"))).2 = true.
Proof.
  intros Hfields.
  pose proof (nexts_fields (sv ":") colon_not_empty 2 s) as Htokens.
  pose proof (accepts_iff_has_fields (sv ":") colon_not_empty 2 s) as Haccepts.
  unfold accepts, has_fields in Haccepts.
  destruct Hfields as [Hfields | Hfields]; rewrite Hfields in Htokens, Haccepts.
  - split; [apply Htokens; cbn; lia | apply Haccepts; left; reflexivity].
  - split; [apply Htokens; cbn; lia | apply Haccepts; right; split; reflexivity].
Qed.

(** X19.  The [redis_server] setting that the constructor of
    [Processor] accepts: a host without a colon, a colon, and a port
    field without a colon that begins with an [int], optionally
    followed by one more colon.  Every other text (no colon, a second
    field after the port, an empty or non-numeric port) makes the
    constructor throw.  The host and the port returned are those
    fields. *)
Theorem X19_redis_server_setting (s host : string_view) (port : Z) :
  parse_redis_server s = Some (host, port)
  <-> exists port_str,
        (s = host ++ sv ":" ++ port_str \/ s = host ++ sv ":" ++ port_str ++ sv ":")
        /\ free_of ":" host = true
        /\ free_of ":" port_str = true
        /\ from_chars_int port_str = Some port.
Proof.
  unfold parse_redis_server. split.
  - intros Hparse.
    pose proof (nexts_fields (sv ":") colon_not_empty 2 s) as Htokens.
    pose proof (accepts_iff_has_fields (sv ":") colon_not_empty 2 s) as Haccepts.
    pose proof (join_delimited_fields (sv ":") colon_not_empty s) as Hjoin.
    pose proof (delimited_fields_free (sv ":") colon_not_empty s) as Hfree.
    unfold accepts, has_fields in Haccepts.
    destruct (nexts 2 (make s (sv ":"))) as [tokens split]. cbn [fst snd] in *.
    destruct (finishedSuccessfully split); [| discriminate].
    destruct (from_chars_int (token tokens 1)) as [redis_port |] eqn:Hport; [| discriminate].
    inversion Hparse; subst host port. clear Hparse.
    destruct (proj1 Haccepts eq_refl) as [Hlen | [Hlen Hlast]].
    + destruct (delimited_fields (sv ":") s) as [| h [| ps [| extra fs]]];
        try discriminate Hlen.
      rewrite Htokens in * by (cbn; lia). cbn [take token nth] in *.
      exists ps. apply Forall_cons in Hfree as [Hh Hfree].
      apply Forall_cons in Hfree as [Hps _].
      split_and!; [left; symmetry; exact Hjoin | | | exact Hport];
        apply find_first_single; assumption.
    + destruct (delimited_fields (sv ":") s) as [| h [| ps [| extra [| more fs]]]];
        try discriminate Hlen.
      cbn in Hlast. inversion Hlast; subst extra.
      rewrite Htokens in * by (cbn; lia). cbn [take token nth] in *.
      exists ps. apply Forall_cons in Hfree as [Hh Hfree].
      apply Forall_cons in Hfree as [Hps _].
      split_and!; [right | | | exact Hport]; try (apply find_first_single; assumption).
      rewrite <- Hjoin. cbn [join]. rewrite app_nil_r. reflexivity.
  - intros (port_str & Htext & Hhost & Hport_str & Hport).
    assert (Hfields : delimited_fields (sv ":") s = [host; port_str]
                      \/ delimited_fields (sv ":") s = [host; port_str; []]).
    { destruct Htext as [-> | ->]; [left | right].
      - change (host ++ sv ":" ++ port_str) with (join (sv ":") [host; port_str]).
        apply (delimited_fields_join ":" []); [discriminate |].
        repeat constructor; assumption.
      - replace (host ++ sv ":" ++ port_str ++ sv ":")
          with (join (sv ":") [host; port_str; []])
          by (cbn [join]; rewrite app_nil_r; reflexivity).
        apply (delimited_fields_join ":" []); [discriminate |].
        repeat constructor; assumption. }
    destruct (two_fields s host port_str Hfields) as [Htokens Hfinished].
    destruct (nexts 2 (make s (sv ":"))) as [tokens split]. cbn [fst snd] in *.
    subst tokens. cbn [token nth]. rewrite Hfinished, Hport. reflexivity.
Qed.

End RedisServerSetting.

(** ** msg_processor.cpp: the flush to Redis *)

Section ConnectedFlush.
Import MsgProcessor AggregatorRuns FlushCommands.

Lemma after_no_command (c : RedisServerConnection) : after_commands c [] = c.
Proof.
  destruct c. unfold after_commands. cbn. rewrite app_nil_r. f_equal. lia.
Qed.

Lemma after_commands_app (c : RedisServerConnection) (xs ys : list string_view) :
  after_commands (after_commands c xs) ys = after_commands c (xs ++ ys).
Proof.
  unfold after_commands. cbn. rewrite length_app, <- app_assoc. f_equal. lia.
Qed.

Lemma addCommand_after (c : RedisServerConnection) (cmd : string_view) :
  addCommand c cmd = after_commands c [cmd].
Proof. reflexivity. Qed.

Lemma submit_commands_sent (p : Processor) (m : QosRedisCommandMap) :
  forall (keys_found : list string_view) (conn : RedisServerConnection),
  exists cmds,
    submit_commands p m keys_found conn = after_commands conn cmds
    /\ (forall key val,
          (key, val) ∈ m ->
          hincrby_command p key val ∈ cmds
          /\ (expire_command p key ∈ cmds \/ redis_key p key ∈ keys_found))
    /\ (length m <= length cmds <= 2 * length m)%nat.
Proof.
  induction m as [| [key val] m IH]; intros keys_found conn.
  - exists []. cbn [submit_commands]. rewrite after_no_command.
    split_and!; [reflexivity | | cbn; lia | cbn; lia].
    intros key val Hin. inversion Hin.
  - cbn [submit_commands]. fold (redis_key p key).
    fold (hincrby_command p key val). fold (expire_command p key).
    rewrite !addCommand_after.
    destruct (bool_decide (redis_key p key ∈ keys_found)) eqn:Hfound.
    + apply bool_decide_eq_true in Hfound.
      destruct (IH keys_found (after_commands conn [hincrby_command p key val]))
        as (cmds & Hsent & Hall & Hlen).
      exists (hincrby_command p key val :: cmds). rewrite Hsent, after_commands_app.
      split_and!; [reflexivity | | cbn [length]; lia | cbn [length]; lia].
      intros k v Hin. apply elem_of_cons in Hin as [Hin | Hin].
      * inversion Hin; subst k v. split; [left | right; exact Hfound].
      * destruct (Hall k v Hin) as [Hh He].
        split; [right; exact Hh | destruct He as [He | He]; [left; right; exact He |]].
        right. exact He.
    + rewrite after_commands_app. cbn [app].
      destruct (IH (redis_key p key :: keys_found)
                  (after_commands conn [hincrby_command p key val; expire_command p key]))
        as (cmds & Hsent & Hall & Hlen).
      exists (hincrby_command p key val :: expire_command p key :: cmds).
      rewrite Hsent, after_commands_app.
      split_and!; [reflexivity | | cbn [length]; lia | cbn [length]; lia].
      intros k v Hin. apply elem_of_cons in Hin as [Hin | Hin].
      * inversion Hin; subst k v. split; [left | left; right; left].
      * destruct (Hall k v Hin) as [Hh He].
        split; [right; right; exact Hh |].
        destruct He as [He | He]; [left; right; right; exact He |].
        apply elem_of_cons in He as [He | He]; [| right; exact He].
        left. unfold expire_command. rewrite He. right. left.
Qed.

Lemma submit_active_reqs_sent (p : Processor) (reqs : list (string_view * Z)) :
  forall conn : RedisServerConnection,
    submit_active_reqs p reqs conn
    = after_commands conn (map (fun kv => set_command p kv.1 kv.2) reqs).
Proof.
  unfold submit_active_reqs.
  induction reqs as [| kv reqs IH]; intros conn; cbn [fold_left map].
  - rewrite after_no_command. reflexivity.
  - rewrite IH. fold (set_command p kv.1 kv.2). rewrite addCommand_after, after_commands_app.
    reflexivity.
Qed.

(** X20.  A flush on a connected processor hands every buffered counter
    to Redis and empties the buffers: for each entry of the command map
    an [hincrby] with its hash key, category and value and an [expire]
    of that hash key are submitted, for each gauge a [set] with the
    connection time-to-live, at most one [expire] being added per entry;
    the sent count grows by the number of commands, and afterwards the
    command map and the gauges are empty and the pending count is
    zero. *)
Theorem X20_flush_sends_every_counter (p : Processor) (now mono_now cutoff_now : Z)
    (net : net_outcome) :
  flush_due p now ->
  connected (m_qos_redis_conn p) = true ->
  exists cmds,
    sendToRedisQos p now mono_now cutoff_now net
    = Some (update p [] ∅ (after_commands (m_qos_redis_conn p) cmds)
              (m_last_redis_connect_time p) now 0 (m_error_lines p))
    /\ (forall key val,
          (key, val) ∈ m_qos_redis_commands p ->
          hincrby_command p key val ∈ cmds /\ expire_command p key ∈ cmds)
    /\ (forall gauge val,
          m_qos_redis_active_reqs p !! gauge = Some val -> set_command p gauge val ∈ cmds)
    /\ (length (m_qos_redis_commands p) + size (m_qos_redis_active_reqs p) <= length cmds
        <= 2 * length (m_qos_redis_commands p) + size (m_qos_redis_active_reqs p))%nat.
Proof.
  intros Hdue Hconnected. unfold sendToRedisQos.
  rewrite (flush_due_test p now Hdue), Hconnected. cbn [negb].
  destruct (submit_commands_sent p (m_qos_redis_commands p) [] (m_qos_redis_conn p))
    as (cmds & Hsent & Hall & Hlen).
  rewrite Hsent, submit_active_reqs_sent, after_commands_app.
  eexists. split_and!; [reflexivity | | | |].
  - intros key val Hin. destruct (Hall key val Hin) as [Hh [He | He]].
    + split; apply elem_of_app; left; assumption.
    + inversion He.
  - intros gauge val Hgauge. apply elem_of_app. right.
    apply (list_elem_of_fmap_2' _ _ (gauge, val)); [| reflexivity].
    apply elem_of_map_to_list. exact Hgauge.
  - rewrite length_app, length_map, length_map_to_list. lia.
  - rewrite length_app, length_map, length_map_to_list. lia.
Qed.

End ConnectedFlush.

(** ** msg_processor.cpp: what a line can do *)

Section ParserOutcomes.
Import MsgProcessor FlushCommands.

Lemma record_event_counted (p : Processor) (commands : QosRedisCommandMap)
    (active_reqs : gmap string_view Z) :
  outcome p (record_event p commands active_reqs).
Proof. apply Counted; reflexivity. Qed.

Lemma processReq_outcome (p : Processor) (now_class now_verb : Z) (raw : string_view) :
  outcome p (processReq p now_class now_verb raw).
Proof.
  unfold processReq. destruct (StringSplit.nexts 8 _) as [tokens split].
  destruct (negb (StringSplit.finishedSuccessfully split)); [eapply Rejected; reflexivity |].
  destruct (from_chars_int (token tokens 6)); [| eapply Rejected; reflexivity].
  destruct (negb (isPrintableASCII (token tokens 2))); [eapply Rejected; reflexivity |].
  apply record_event_counted.
Qed.

Lemma processDataXfer_outcome (p : Processor) (now : Z) (raw : string_view) :
  outcome p (processDataXfer p now raw).
Proof.
  unfold processDataXfer. destruct (StringSplit.nexts 5 _) as [tokens split].
  destruct (StringSplit.finishedSuccessfully split); [| eapply Rejected; reflexivity].
  destruct (from_chars_int (token tokens 4)); [| eapply Rejected; reflexivity].
  destruct (negb (isPrintableASCII (token tokens 2))); [eapply Rejected; reflexivity |].
  destruct (token tokens 2); [apply Ignored; reflexivity | apply record_event_counted].
Qed.

Lemma processActiveRequests_outcome (p : Processor) (raw : string_view) :
  outcome p (processActiveRequests p raw).
Proof.
  unfold processActiveRequests. destruct (StringSplit.nexts 5 _) as [tokens split].
  destruct (StringSplit.finishedSuccessfully split); [| eapply Rejected; reflexivity].
  destruct (from_chars_int (token tokens 4)); [| eapply Rejected; reflexivity].
  apply record_event_counted.
Qed.

Lemma processReqEnd_outcome (p : Processor) (raw : string_view) :
  outcome p (processReqEnd p raw).
Proof.
  unfold processReqEnd. destruct (StringSplit.nexts 7 _) as [tokens split].
  destruct (StringSplit.finishedSuccessfully split); [| eapply Rejected; reflexivity].
  destruct (from_chars_int (token tokens 6)); [| eapply Rejected; reflexivity].
  apply record_event_counted.
Qed.

(** X21.  Whatever the message, one call of the consumer does one of
    three things: it counts the message (the pending count grows by one
    and no error is logged), it rejects it (one error line is logged and
    the command map, the gauges and the pending count stay as they
    were), or it ignores it (nothing changes).  It never touches the
    connection, the time of the last flush or of the last connect, or
    the endpoint. *)
Theorem X21_a_message_is_counted_rejected_or_ignored (p : Processor)
    (now_class now_verb : Z) (buffer : string_view) :
  outcome p (consume p now_class now_verb buffer)
  /\ m_qos_redis_conn (consume p now_class now_verb buffer) = m_qos_redis_conn p
  /\ m_last_redis_flush_time (consume p now_class now_verb buffer) = m_last_redis_flush_time p
  /\ m_last_redis_connect_time (consume p now_class now_verb buffer)
     = m_last_redis_connect_time p
  /\ m_endpoint (consume p now_class now_verb buffer) = m_endpoint p.
Proof.
  assert (Houtcome : outcome p (consume p now_class now_verb buffer)).
  { unfold consume.
    destruct (StringSplit.starts_with (sv "req~|~") buffer); [apply processReq_outcome |].
    destruct (StringSplit.starts_with (sv "data_xfer~|~") buffer);
      [apply processDataXfer_outcome |].
    destruct (StringSplit.starts_with (sv "active_reqs~|~") buffer);
      [apply processActiveRequests_outcome |].
    destruct (StringSplit.starts_with (sv "req_end~|~") buffer);
      [apply processReqEnd_outcome | apply Ignored; reflexivity]. }
  split; [exact Houtcome |].
  unfold consume, processReq, processDataXfer, processActiveRequests, processReqEnd.
  destruct (StringSplit.starts_with (sv "req~|~") buffer).
  { destruct (StringSplit.nexts 8 _) as [tokens split].
    destruct (negb (StringSplit.finishedSuccessfully split)); [split_and!; reflexivity |].
    destruct (from_chars_int (token tokens 6)); [| split_and!; reflexivity].
    destruct (negb (isPrintableASCII (token tokens 2))); split_and!; reflexivity. }
  destruct (StringSplit.starts_with (sv "data_xfer~|~") buffer).
  { destruct (StringSplit.nexts 5 _) as [tokens split].
    destruct (StringSplit.finishedSuccessfully split); [| split_and!; reflexivity].
    destruct (from_chars_int (token tokens 4)); [| split_and!; reflexivity].
    destruct (negb (isPrintableASCII (token tokens 2))); [split_and!; reflexivity |].
    destruct (token tokens 2); split_and!; reflexivity. }
  destruct (StringSplit.starts_with (sv "active_reqs~|~") buffer).
  { destruct (StringSplit.nexts 5 _) as [tokens split].
    destruct (StringSplit.finishedSuccessfully split); [| split_and!; reflexivity].
    destruct (from_chars_int (token tokens 4)); split_and!; reflexivity. }
  destruct (StringSplit.starts_with (sv "req_end~|~") buffer); [| split_and!; reflexivity].
  destruct (StringSplit.nexts 7 _) as [tokens split].
  destruct (StringSplit.finishedSuccessfully split); [| split_and!; reflexivity].
  destruct (from_chars_int (token tokens 6)); split_and!; reflexivity.
Qed.

End ParserOutcomes.

(** ** From the filter's log lines to the aggregator's counters *)

Section EndToEnd.
Import StringSplit SplitterStates RateLimit FltWeir FltWeirHooks LogLines MsgProcessor
  SyslogServer EventText Pipeline.
Context {freq_ctr : Type} `{FreqCtr freq_ctr}.
Context {float : Type} `{CFloat float}.








End EndToEnd.

(** ** flt_weir.c: a throttled chunk *)

Section ThrottledPayload.
Import RateLimit FltWeir ThrottleLog.
Context {freq_ctr : Type} `{FreqCtr freq_ctr}.
Context {float : Type} `{CFloat float}.

(** A tick set [d] milliseconds ahead has not expired less than [d]
    milliseconds later, also across the wrap of the 32-bit clock. *)
Lemma tick_add_ahead (now now' d : Z) :
  0 < d < 2 ^ 31 - 1 ->
  u32 (now' - now) < d ->
  tick_isset (tick_add now d) = true /\ tick_is_expired (tick_add now d) now' = false.
Proof.
  intros Hd Hnear.
  assert (Hset : tick_isset (tick_add now d) = true).
  { unfold tick_isset, tick_add. cbv zeta.
    destruct (Z.eqb_spec (u32 (now + d)) 0) as [_ | Hne]; [reflexivity |].
    destruct (Z.eqb_spec (u32 (now + d)) 0); [contradiction | reflexivity]. }
  split; [exact Hset |].
  unfold tick_is_expired. rewrite Hset. cbn [negb].
  apply Z.leb_gt. unfold tick_add, s32, u32 in *. cbv zeta.
  change (2 ^ 32) with 4294967296 in *. change (2 ^ 31) with 2147483648 in *.
  destruct (Z.eqb_spec ((now + d) mod 4294967296) 0) as [Hzero | Hne].
  - destruct (Z.ltb_spec ((1 - now') mod 4294967296) 2147483648);
      Z.div_mod_to_equations; lia.
  - destruct (Z.ltb_spec (((now + d) mod 4294967296 - now') mod 4294967296) 2147483648);
      Z.div_mod_to_equations; lia.
Qed.

Lemma direction_limit_logged_at (lim : user_limit freq_ctr) (dir : DataDirection)
    (now_ms : Z) :
  next_throttle_log_tick (direction_limit (logged_at lim dir now_ms) dir)
  = tick_add now_ms (MS_TO_TICKS 1000).
Proof. destruct dir; reflexivity. Qed.

(** X23.  A chunk that the throttle policy holds back.  When the payload
    hook examines a chunk and [rl_speed_throttle] answers [RL_THROTTLE],
    it forwards nothing, writes no [data_xfer] line, and makes the
    stream wait for the tick 1 ms ahead: until the clock moves, the hook
    forwards nothing on that stream and changes nothing.  It writes a
    [weir-throttle] line exactly when the user's log tick for the
    direction is unset or has expired, and then sets that tick 1000 ms
    ahead; during those 1000 ms no call of the hook for that user and
    direction, on any stream, writes another [weir-throttle] line or
    moves the tick.  The calls are taken one after the other, so that
    the compare-and-swap on the tick succeeds. *)
Theorem X23_throttled_chunk_is_held (env : payload_env float) (st : weir_lim_state)
    (lim : user_limit freq_ctr) (is_request : bool) (analyse_exp len : Z)
    (direction : string) :
  examined st (env_now_ms env) len ->
  bandwidth_limit_direction st = Some direction ->
  (exists slept,
      rl_speed_throttle (env_tables env) (remote_addr st) (channel_direction is_request)
        (env_current_time env) (env_random32 env) = Some (RL_THROTTLE, slept)) ->
  exists r lim',
    weir_http_payload env st (Some lim) is_request analyse_exp len = Some r
    /\ res_bytes_to_forward r = 0
    /\ res_limit r = Some lim'
    /\ next_allowed_send_tick (res_state r) = tick_add (env_now_ms env) (MS_TO_TICKS 1)
    /\ (if log_allowed lim (channel_direction is_request) (env_now_ms env)
        then res_lines r
             = [LineThrottle (env_realtime_usec env) (Some direction) (limit_key st)]
             /\ lim' = logged_at lim (channel_direction is_request) (env_now_ms env)
        else res_lines r = [] /\ lim' = lim)
    /\ (forall (env' : payload_env float) (analyse_exp' len' : Z),
          env_now_ms env' = env_now_ms env ->
          exists r',
            weir_http_payload env' (res_state r) (Some lim') is_request analyse_exp' len'
            = Some r'
            /\ res_bytes_to_forward r' = 0
            /\ res_lines r' = []
            /\ res_state r' = res_state r
            /\ res_limit r' = Some lim')
    /\ (res_lines r <> [] ->
        forall (env' : payload_env float) (st' : weir_lim_state) (analyse_exp' len' : Z)
               (r' : payload_result freq_ctr),
          u32 (env_now_ms env' - env_now_ms env) < 1000 ->
          weir_http_payload env' st' (Some lim') is_request analyse_exp' len' = Some r' ->
          Forall (fun l => is_throttle_line l = false) (res_lines r')
          /\ res_limit r' = Some lim').
Proof.
  intros (Henabled & Haddr & Hlen & Htick) Hdirection [slept Hthrottle].
  destruct (remote_addr st) as [a |] eqn:Ha; [clear Haddr | contradiction].
  set (dir := channel_direction is_request) in *.
  set (now := env_now_ms env) in *.
  assert (Hexamined :
    (0 <? len)
    && (negb (tick_isset (next_allowed_send_tick st))
        || tick_is_expired (next_allowed_send_tick st) now) = true).
  { destruct (Z.ltb_spec 0 len); [| lia]. destruct Htick as [-> | ->];
      [reflexivity | apply orb_true_r]. }
  destruct (tick_add_ahead now now 1) as [Hset1 Hahead1];
    [lia | rewrite Z.sub_diag; reflexivity |].
  set (held := set_next_allowed_send_tick (set_next_allowed_send_tick st TICK_ETERNITY)
                 (tick_add now (MS_TO_TICKS 1))).
  assert (Hheld : forall (env' : payload_env float) (limit : user_limit freq_ctr)
                         (analyse_exp' len' : Z),
    env_now_ms env' = now ->
    weir_http_payload env' held (Some limit) is_request analyse_exp' len'
    = Some {| res_state := held; res_limit := Some limit;
              res_analyse_exp :=
                tick_first (if tick_is_expired analyse_exp' now
                            then TICK_ETERNITY else analyse_exp')
                           (next_allowed_send_tick held);
              res_bytes_to_forward := 0; res_lines := [] |}).
  { intros env' limit analyse_exp' len' Hnow. unfold weir_http_payload. rewrite Hnow.
    subst held. cbn [set_next_allowed_send_tick enabled remote_addr next_allowed_send_tick].
    rewrite Henabled, Ha. cbn [negb]. unfold MS_TO_TICKS. rewrite Hset1, Hahead1.
    cbn [negb orb]. rewrite andb_false_r. reflexivity. }
  assert (Hquiet : forall (env' : payload_env float) (st' : weir_lim_state)
                          (analyse_exp' len' : Z) (r' : payload_result freq_ctr),
    u32 (env_now_ms env' - now) < 1000 ->
    weir_http_payload env' st' (Some (logged_at lim dir now)) is_request analyse_exp' len'
    = Some r' ->
    Forall (fun l => is_throttle_line l = false) (res_lines r')
    /\ res_limit r' = Some (logged_at lim dir now)).
  { intros env' st' analyse_exp' len' r' Hnear. unfold weir_http_payload.
    destruct (tick_add_ahead now (env_now_ms env') 1000) as [Hset Hahead]; [lia | exact Hnear |].
    fold (channel_direction is_request). fold dir.
    rewrite (direction_limit_logged_at lim dir now). unfold MS_TO_TICKS. rewrite Hset, Hahead.
    cbn [negb orb set_next_allowed_send_tick bandwidth_limit_direction remote_addr].
    destruct (enabled st'); cbn [negb]; [| discriminate].
    destruct (remote_addr st') as [a' |].
    - destruct ((0 <? len')
                && (negb (tick_isset (next_allowed_send_tick st'))
                    || tick_is_expired (next_allowed_send_tick st') (env_now_ms env'))).
      + destruct (bandwidth_limit_direction st'); [| discriminate].
        destruct (rl_speed_throttle (env_tables env') (Some a') dir (env_current_time env')
                    (env_random32 env')) as [[[] slept'] |]; [| | discriminate].
        * intros [= <-]. split; [constructor | reflexivity].
        * intros [= <-]. cbn [res_lines res_limit]. split; [| reflexivity].
          match goal with
          | |- Forall _ (match ?transferred with _ => _ end) => destruct transferred
          end; repeat constructor.
      + intros [= <-]. split; [constructor | reflexivity].
    - intros [= <-]. split; [constructor | reflexivity]. }
  unfold weir_http_payload. fold (channel_direction is_request). fold dir. fold now.
  rewrite Henabled, Ha, Hexamined. cbn [negb].
  cbn [set_next_allowed_send_tick bandwidth_limit_direction remote_addr limit_key].
  rewrite Hdirection, Ha, Hthrottle. fold (log_allowed lim dir now).
  destruct (log_allowed lim dir now) eqn:Hlog.
  - eexists _, (logged_at lim dir now). split_and!; try reflexivity.
    + intros env' analyse_exp' len' Hnow. eexists. split; [apply Hheld; exact Hnow |].
      split_and!; reflexivity.
    + intros _. exact Hquiet.
  - eexists _, lim. split_and!; try reflexivity.
    + intros env' analyse_exp' len' Hnow. eexists. split; [apply Hheld; exact Hnow |].
      split_and!; reflexivity.
    + intros Hlines. contradiction Hlines. reflexivity.
Qed.

End ThrottledPayload.

(** ** flt_weir.c: the instance id *)

Section InstanceId.
Import FltWeirHooks EventText.

Lemma underscore_replaced (l : string_view) :
  free_of "_" (map (fun c : ascii => if Ascii.eqb c "_" then "-"%char else c) l) = true.
Proof.
  unfold free_of. induction l as [| c l IH]; [reflexivity |].
  cbn [map forallb]. rewrite IH, andb_true_r.
  destruct (Ascii.eqb c "_") eqn:Hc; [reflexivity | rewrite Hc; reflexivity].
Qed.

Lemma underscore_free_kept (l : string_view) :
  free_of "_" l = true ->
  map (fun c : ascii => if Ascii.eqb c "_" then "-"%char else c) l = l.
Proof.
  unfold free_of. induction l as [| c l IH]; [reflexivity |].
  cbn [map forallb]. intros Hfree. apply andb_true_iff in Hfree as [Hc Hfree].
  apply negb_true_iff in Hc. rewrite Hc, (IH Hfree). reflexivity.
Qed.

(** X26.  The instance id that [parse_weir_flt] builds from the peer
    name and the port never contains an underscore, the separator of the
    Redis keys, and it fits the buffer with its terminator.  A peer name
    without underscore that fits is kept as it is, followed by a dash
    and the port in decimal.  Two peer names that differ only in having
    an underscore where the other has a dash get the same id. *)
Theorem X26_instance_id_has_no_underscore (capacity : nat) (localpeer : string_view)
    (port : Z) :
  free_of "_" (make_instance_id capacity localpeer port) = true
  /\ (length (make_instance_id capacity localpeer port) <= capacity - 1)%nat
  /\ (free_of "_" localpeer = true ->
      (length localpeer + 1 + length (MsgProcessor.dec port) < capacity)%nat ->
      make_instance_id capacity localpeer port = localpeer ++ sv "-" ++ MsgProcessor.dec port)
  /\ make_instance_id capacity
       (map (fun c : ascii => if Ascii.eqb c "_" then "-"%char else c) localpeer) port
     = make_instance_id capacity localpeer port.
Proof.
  unfold make_instance_id. split_and!.
  - apply underscore_replaced.
  - rewrite length_map, length_take. lia.
  - intros Hpeer Hfits.
    rewrite take_ge by (rewrite !length_app; cbn [length sv list_ascii_of_string]; lia).
    apply underscore_free_kept. rewrite !free_of_app, Hpeer.
    pose proof (decimal_free_of "_" port eq_refl eq_refl) as Hport.
    unfold LogLines.decimal in Hport. rewrite Hport. reflexivity.
  - rewrite <- !List.firstn_map. f_equal. rewrite !map_app, map_map. f_equal.
    apply map_ext. intros c. destruct (Ascii.eqb c "_") eqn:Hc; [reflexivity |].
    rewrite Hc. reflexivity.
Qed.

End InstanceId.

(** ** redis_utils.cpp: the life of a connection *)

Section Connection.
Import MsgProcessor RedisUtils ConnectionLife.

Lemma connect_keeps (c : connection) (net : net_outcome) (c' : connection) :
  context_matches c -> counters_add_up c ->
  connect c net = Returns c' ->
  context_matches c' /\ counters_add_up c'.
Proof.
  unfold context_matches, counters_add_up, connect, status.
  destruct c as [[s sent requested made failed cmds] ctx flag ip success drops reconnects].
  cbn [members m_connection_status m_async_context m_total_conns_made m_total_conns_requested
       m_total_conns_failed m_total_conns_success m_total_conn_drops].
  intros Hctx Hcount.
  destruct s; cbn [MsgProcessor.connect m_connection_status];
    try (intros [= <-]; cbn; split; [exact Hctx | lia]).
  subst ctx. destruct net; cbn; try discriminate; intros [= <-]; cbn; (split; [reflexivity | lia]).
Qed.

Lemma step_keeps (c c' : connection) :
  step c c' -> context_matches c -> counters_add_up c ->
  context_matches c' /\ counters_add_up c'.
Proof.
  intros Hstep Hctx Hcount. destruct Hstep as
    [c net c' Hrun | c ok ip Hstatus | c ok net c' Hstatus Hrun | c | c l4 l6 | c cmd].
  - exact (connect_keeps c net c' Hctx Hcount Hrun).
  - unfold context_matches, counters_add_up, connectCallback, status in *.
    destruct c as [[s sent requested made failed cmds] ctx flag ip' success drops reconnects].
    cbn in *. subst s. destruct ok; cbn; (split; [assumption || reflexivity | lia]).
  - unfold disconnectCallback in Hrun.
    assert (Hdropped :
      context_matches
        {| members := set_status (members c) DISCONNECTED; m_async_context := false;
           m_needs_reconnect := m_needs_reconnect c; m_redis_ip := m_redis_ip c;
           m_total_conns_success := m_total_conns_success c;
           m_total_conn_drops := m_total_conn_drops c + 1;
           m_total_reconnects := m_total_reconnects c |}
      /\ counters_add_up
           {| members := set_status (members c) DISCONNECTED; m_async_context := false;
              m_needs_reconnect := m_needs_reconnect c; m_redis_ip := m_redis_ip c;
              m_total_conns_success := m_total_conns_success c;
              m_total_conn_drops := m_total_conn_drops c + 1;
              m_total_reconnects := m_total_reconnects c |}).
    { unfold context_matches, counters_add_up, status in *.
      destruct c as [[s sent requested made failed cmds] ctx flag ip' success drops reconnects].
      cbn in *. split; [reflexivity |]. destruct Hstatus as [-> | ->]; lia. }
    destruct Hdropped as [Hctx' Hcount']. cbv zeta in Hrun. destruct ok.
    + exact (connect_keeps _ net c' Hctx' Hcount' Hrun).
    + injection Hrun as <-. split; assumption.
  - unfold context_matches, counters_add_up, reconnectIfNeeded, status in *.
    destruct c as [[s sent requested made failed cmds] ctx flag ip' success drops reconnects].
    cbn in *. destruct flag; [| split; assumption].
    destruct s; cbn; (split; [assumption | lia]).
  - unfold context_matches, counters_add_up, checkIfNeedsReconnect, status in *.
    destruct c as [[s sent requested made failed cmds] ctx flag ip' success drops reconnects].
    cbn in *. destruct s; cbn; try (split; assumption).
    destruct flag; cbn; [split; assumption |].
    destruct l4 as [ips |]; cbn; [split; assumption |].
    destruct l6 as [ips |]; cbn; split; assumption.
  - unfold context_matches, counters_add_up, RedisUtils.addCommand, status in *.
    destruct c as [[s sent requested made failed cmds] ctx flag ip' success drops reconnects].
    cbn in *. split; assumption.
Qed.

(** X24.  What holds of a connection object after any sequence of calls
    of its methods and callbacks, from its construction on, when the
    connect callback is called on a connecting context and the
    disconnect callback on one that has been connected: the context
    pointer is null exactly in state [DISCONNECTED], so that [connect]
    never fails its assertion and never overwrites a live context; and
    the counters add up: attempts made <= attempts requested, successes
    + failures + the pending attempt <= attempts made, and successes =
    drops + the connection that is up. *)
Theorem X24_connection_state_is_consistent (c : connection) :
  reachable c ->
  context_matches c
  /\ counters_add_up c
  /\ (forall net, connect c net <> AssertionFails).
Proof.
  intros Hreach.
  assert (Hkept : context_matches c /\ counters_add_up c).
  { revert c Hreach. unfold reachable.
    apply (rtc_ind_r (fun c => context_matches c /\ counters_add_up c)).
    - split; [reflexivity |]. unfold counters_add_up. cbn. lia.
    - intros c1 c2 _ Hstep [Hctx Hcount]. exact (step_keeps c1 c2 Hstep Hctx Hcount). }
  destruct Hkept as [Hctx Hcount]. split_and!; [exact Hctx | exact Hcount |].
  intros net. unfold connect. unfold context_matches in Hctx.
  destruct (status c).
  - destruct (MsgProcessor.connect (members c) net); discriminate.
  - rewrite Hctx. destruct (MsgProcessor.connect (members c) net); discriminate.
  - destruct (MsgProcessor.connect (members c) net); discriminate.
  - destruct (MsgProcessor.connect (members c) net); discriminate.
Qed.

(** X25.  Reconnecting after the server's address has changed.
    [checkIfNeedsReconnect] asks for a reconnect exactly when the
    connection is established and the address it is connected to is not
    among the addresses the name resolves to (the IPv4 lookup, and the
    IPv6 lookup only when the IPv4 lookup fails); when both lookups
    fail, or the connection is not established, it changes nothing.
    [reconnectIfNeeded] then starts the disconnect and counts one
    reconnect, the disconnect callback with [REDIS_OK] connects again,
    and the connect callback records the new address. *)
Theorem X25_reconnect_follows_address_change (c : connection)
    (lookup4 lookup6 : option (list string_view)) :
  m_needs_reconnect c = false ->
  (m_needs_reconnect (checkIfNeedsReconnect c lookup4 lookup6).1 = true
   <-> status c = CONNECTED
       /\ exists ips,
           (lookup4 = Some ips \/ (lookup4 = None /\ lookup6 = Some ips))
           /\ m_redis_ip c ∉ ips)
  /\ (m_needs_reconnect (checkIfNeedsReconnect c lookup4 lookup6).1 = false ->
      (checkIfNeedsReconnect c lookup4 lookup6).1 = c
      /\ reconnectIfNeeded c = (c, false))
  /\ (m_needs_reconnect (checkIfNeedsReconnect c lookup4 lookup6).1 = true ->
      forall saddr_ip : string_view,
      exists c2 c3,
        reconnectIfNeeded (checkIfNeedsReconnect c lookup4 lookup6).1 = (c2, true)
        /\ status c2 = DISCONNECTING
        /\ m_needs_reconnect c2 = false
        /\ m_total_reconnects c2 = m_total_reconnects c + 1
        /\ disconnectCallback c2 true NetAttached = Returns c3
        /\ status c3 = CONNECTING
        /\ m_total_conn_drops c3 = m_total_conn_drops c + 1
        /\ status (connectCallback c3 true saddr_ip) = CONNECTED
        /\ m_redis_ip (connectCallback c3 true saddr_ip) = saddr_ip
        /\ m_needs_reconnect (connectCallback c3 true saddr_ip) = false
        /\ commands_submitted (members (connectCallback c3 true saddr_ip))
           = commands_submitted (members c)).
Proof.
  intros Hflag.
  destruct c as [[s sent requested made failed cmds] ctx flag ip success drops reconnects].
  cbn in Hflag. subst flag.
  unfold checkIfNeedsReconnect, status.
  cbn [members m_connection_status m_needs_reconnect m_redis_ip].
  split_and!.
  - split.
    + destruct s; cbn; try discriminate.
      destruct lookup4 as [ips |]; cbn.
      * intros Hset. apply negb_true_iff, bool_decide_eq_false in Hset.
        split; [reflexivity |]. exists ips. split; [left; reflexivity | exact Hset].
      * destruct lookup6 as [ips |]; cbn; [| discriminate].
        intros Hset. apply negb_true_iff, bool_decide_eq_false in Hset.
        split; [reflexivity |]. exists ips. split; [right; split; reflexivity | exact Hset].
    + intros (-> & ips & [-> | [-> ->]] & Hnew); cbn;
        apply negb_true_iff, bool_decide_eq_false; exact Hnew.
  - destruct s; cbn; try (intros _; split; reflexivity).
    destruct lookup4 as [ips |]; cbn.
    + intros ->. split; reflexivity.
    + destruct lookup6 as [ips |]; cbn; [intros -> |]; split; reflexivity.
  - destruct s; cbn; try discriminate.
    destruct lookup4 as [ips |]; cbn.
    + intros -> saddr_ip. eexists _, _. split_and!; reflexivity.
    + destruct lookup6 as [ips |]; cbn; [| discriminate].
      intros -> saddr_ip. eexists _, _. split_and!; reflexivity.
Qed.

End Connection.

(** ** Concrete runs of the statements above *)

(** A transfer of the client mapped to user [u]. *)
Lemma X2_witness :
  RateLimit.rl_data_transferred
    (RateLimit.set_ip_port_key ConnectionCounts.no_connection
       (RateLimit.ip_port_from_sockaddr (Some Scenarios.client)) "u")
    (Some Scenarios.client) RateLimit.RL_DOWNLOAD 4096
  = Some {| RateLimit.xfer_addr := Scenarios.client; RateLimit.xfer_key := "u";
            RateLimit.xfer_direction := "dwn"; RateLimit.xfer_done := 4096 |}.
Proof.
  refine (proj1 (X2_registered_connection_reports_transfers
                   ConnectionCounts.no_connection Scenarios.client "u"
                   RateLimit.RL_DOWNLOAD 4096 _ _)).
  - discriminate.
  - vm_compute. discriminate.
Defined.

(** The client of user [u] is registered again under [v] and its request
    ends: [u] still counts one connection. *)
Lemma X4_witness :
  ConnectionCounts.connections_of PayloadRun.mapped_tables "u" = 1
  /\ ConnectionCounts.connections_of
       (RateLimit.rl_request_end
          (RateLimit.set_ip_port_key PayloadRun.mapped_tables
             (RateLimit.ip_port_from_sockaddr (Some Scenarios.client)) "v")
          (Some Scenarios.client)) "u"
     = ConnectionCounts.connections_of PayloadRun.mapped_tables "u".
Proof.
  split; [vm_compute; reflexivity |].
  refine (proj2 (proj2 (proj2 (proj2
            (X4_rekeyed_connection_is_still_counted PayloadRun.mapped_tables
               Scenarios.client "u" "v" _ _ _ _ _))))).
  - discriminate.
  - discriminate.
  - vm_compute. discriminate.
  - vm_compute. reflexivity.
  - intros c Hc. vm_compute in Hc. discriminate.
Defined.

(** The policy of [Scenarios.throttled_tables], looked at in the second
    in which it was installed and at the start of the next one. *)
Lemma X6_witness :
  RateLimit.rl_speed_throttle
    (RateLimit.set_throttle_epoch_us PayloadRun.mapped_tables "u" 750000
       RateLimit.RL_DOWNLOAD (2 # 1)%Q
       {| RateLimit.tv_sec := 100; RateLimit.tv_usec := 0 |})
    (Some Scenarios.client) RateLimit.RL_DOWNLOAD
    {| RateLimit.tv_sec := 100; RateLimit.tv_usec := 250000 |} 7
  = Some (RateLimit.RL_THROTTLE, 0)
  /\ exists slept,
       RateLimit.rl_speed_throttle
         (RateLimit.set_throttle_epoch_us PayloadRun.mapped_tables "u" 750000
            RateLimit.RL_DOWNLOAD (2 # 1)%Q
            {| RateLimit.tv_sec := 100; RateLimit.tv_usec := 0 |})
         (Some Scenarios.client) RateLimit.RL_DOWNLOAD
         {| RateLimit.tv_sec := 101; RateLimit.tv_usec := 10 |} 7
       = Some (RateLimit.RL_NO_THROTTLE, slept).
Proof.
  split.
  - refine (proj1 (X6_new_policy_throttles_at_once PayloadRun.mapped_tables Scenarios.client
                     "u" RateLimit.RL_DOWNLOAD 750000 (2 # 1)%Q
                     {| RateLimit.tv_sec := 100; RateLimit.tv_usec := 0 |}
                     {| RateLimit.tv_sec := 100; RateLimit.tv_usec := 250000 |} 7 _ _) _).
    + vm_compute. reflexivity.
    + discriminate.
    + vm_compute. reflexivity.
  - refine (proj1 (proj2 (X6_new_policy_throttles_at_once PayloadRun.mapped_tables
                            Scenarios.client "u" RateLimit.RL_DOWNLOAD 750000 (2 # 1)%Q
                            {| RateLimit.tv_sec := 100; RateLimit.tv_usec := 0 |}
                            {| RateLimit.tv_sec := 101; RateLimit.tv_usec := 10 |} 7 _ _))
              _ _ _ _).
    + vm_compute. reflexivity.
    + discriminate.
    + vm_compute. split; discriminate.
    + vm_compute. split; [discriminate | reflexivity].
    + vm_compute. reflexivity.
    + vm_compute. discriminate.
Defined.

(** The default jitter range of 2 ms. *)
Lemma X7_witness :
  exists answer,
    RateLimit.rl_speed_throttle Scenarios.throttled_tables (Some Scenarios.client)
      RateLimit.RL_DOWNLOAD {| RateLimit.tv_sec := 101; RateLimit.tv_usec := 10 |} 7
    = Some answer
    /\ 0 <= answer.2 <= 1000.
Proof.
  destruct (X7_jitter_is_below_the_range Scenarios.throttled_tables
              (Some Scenarios.client) RateLimit.RL_DOWNLOAD
              {| RateLimit.tv_sec := 101; RateLimit.tv_usec := 10 |} 7)
    as (answer & Hrun & Hbound & _).
  - vm_compute. split; [reflexivity | discriminate].
  - exists answer. split; [exact Hrun | exact Hbound].
Defined.

(** The five fields of a [data_xfer] line. *)
Lemma X8_witness :
  StringSplit.finishedSuccessfully
    (StringSplit.nexts 5
       (StringSplit.make AggregatorRuns.data_xfer_line MsgProcessor.DELIMITER)).2 = true
  /\ Forall (EventText.delimiter_free MsgProcessor.DELIMITER)
       (StringSplit.nexts 5
          (StringSplit.make AggregatorRuns.data_xfer_line MsgProcessor.DELIMITER)).1.
Proof.
  split; [vm_compute; reflexivity |].
  refine (proj2 (proj2 (X8_accepted_fields_rebuild_the_input MsgProcessor.DELIMITER _
                          AggregatorRuns.data_xfer_line 5 _))).
  - discriminate.
  - vm_compute. reflexivity.
Defined.


(** The [req] line of a download of user [u]. *)
Lemma X11_witness :
  FltWeirHooks.weir_http_headers EventRuns.filter_with_active_user PayloadRun.stream
    (Some "u"%string) true (Some FltWeir.HTTP_METH_GET)
  = Some EventRuns.headers_outcome
  /\ MsgProcessor.consume AggregatorRuns.idle_processor 0 0
       (LogLines.req_text EventRuns.started)
     = Pipeline.with_request AggregatorRuns.idle_processor 0 0 (sv "u") (sv "GET")
         (sv "dwn") (sv "I") (sv "") 2.
Proof.
  assert (Hrun :
    FltWeirHooks.weir_http_headers EventRuns.filter_with_active_user PayloadRun.stream
      (Some "u"%string) true (Some FltWeir.HTTP_METH_GET)
    = Some EventRuns.headers_outcome) by (vm_compute; reflexivity).
  split; [exact Hrun |].
  refine (proj2 (X11_req_line_is_counted EventRuns.filter_with_active_user PayloadRun.stream
                   (Some "u"%string) (Some FltWeir.HTTP_METH_GET) EventRuns.headers_outcome
                   EventRuns.started AggregatorRuns.idle_processor 0 0 Hrun _ _ _ _ _ _ _)).
  - constructor.
  - reflexivity.
  - reflexivity.
  - reflexivity.
  - reflexivity.
  - reflexivity.
  - vm_compute. split; discriminate.
Defined.


(** A third download of user [u] starts: three are in flight. *)
Lemma X14_witness :
  exists r,
    FltWeirHooks.weir_enable_filter EventRuns.filter_with_active_user
      RequestLifeCycle.fresh_stream None FltWeirHooks.ACT_F_HTTP_REQ FltWeir.HTTP_METH_GET
      5000 (Some "u"%string) None (Some "dwn"%string) = Some r
    /\ RequestLifeCycle.in_flight (FltWeirHooks.en_conf r) "u" RateLimit.RL_DOWNLOAD = 3.
Proof.
  destruct (X14_request_life_cycle EventRuns.filter_with_active_user
              (RateLimit.init_speed_epoch_hashmaps (float := Q))
              RequestLifeCycle.fresh_stream None FltWeirHooks.ACT_F_HTTP_REQ
              FltWeir.HTTP_METH_GET 5000 7000 "u" "dwn" None Scenarios.client)
    as (r1 & _ & _ & _ & _ & Hrun & Hcount & _).
  - discriminate.
  - reflexivity.
  - reflexivity.
  - right. reflexivity.
  - vm_compute. discriminate.
  - exists r1. split; [exact Hrun | exact Hcount].
Defined.

(** An activation without a user key. *)
Lemma X15_witness :
  FltWeirHooks.weir_enable_filter EventRuns.filter_with_active_user
    RequestLifeCycle.fresh_stream None FltWeirHooks.ACT_F_HTTP_REQ FltWeir.HTTP_METH_GET
    5000 None None (Some "dwn"%string) = None.
Proof.
  refine (proj2 (proj2 (X15_misconfigured_activation_hits_bug_on
                          EventRuns.filter_with_active_user RequestLifeCycle.fresh_stream
                          FltWeirHooks.ACT_F_HTTP_REQ FltWeir.HTTP_METH_GET 5000 "u" None
                          Scenarios.client _ _ _)) _ (Some "dwn"%string) _).
  - discriminate.
  - reflexivity.
  - reflexivity.
  - reflexivity.
  - right. right. reflexivity.
Defined.

(** The record of the idle user is freed by the activation of [u], and
    the time since its last request is over. *)
Lemma X16_witness :
  exists r,
    EventRuns.activation_after_idle = Some r
    /\ FltWeir.user_limit_state (FltWeirHooks.en_conf r) !! "old"%string = None
    /\ tick_is_expired (tick_add 10 FltWeir.USERMAP_CLEANUP_MIN_MS_SINCE_DISCONNECT) 6000
       = true.
Proof.
  destruct EventRuns.activation_after_idle as [r |] eqn:Hrun; [| vm_compute in Hrun; discriminate].
  assert (Hgone : FltWeir.user_limit_state (FltWeirHooks.en_conf r) !! "old"%string = None).
  { unfold EventRuns.activation_after_idle in Hrun. vm_compute in Hrun.
    injection Hrun as <-. vm_compute. reflexivity. }
  exists r. split; [reflexivity |]. split; [exact Hgone |].
  refine (proj2 (proj2 (proj2
            (proj2 (X16_cleanup_spares_active_users RequestLifeCycle.filter_with_idle_user
                      RequestLifeCycle.fresh_stream None FltWeirHooks.ACT_F_HTTP_REQ
                      FltWeir.HTTP_METH_GET 6000 (Some "u"%string) None (Some "dwn"%string)
                      r "old" Hrun _)
               {| FltWeir.upload := FltWeir.zero_direction_limit;
                  FltWeir.download := FltWeir.zero_direction_limit;
                  FltWeir.last_request_end_tick := 10 |} _ Hgone)))).
  - intros _. unfold EventRuns.activation_after_idle in Hrun. vm_compute in Hrun.
    injection Hrun as <-. discriminate.
  - vm_compute. reflexivity.
Defined.

(** A datagram with a [data_xfer] event. *)
Lemma X17_witness :
  SyslogServer.receive 1024 EventRuns.datagram = SyslogServer.Enqueue AggregatorRuns.data_xfer_line
  /\ (0 < length EventRuns.datagram /\ length EventRuns.datagram < 1024)%nat.
Proof.
  assert (Hrun : SyslogServer.receive 1024 EventRuns.datagram
                 = SyslogServer.Enqueue AggregatorRuns.data_xfer_line)
    by (vm_compute; reflexivity).
  split; [exact Hrun |].
  exact (proj1 (X17_enqueued_messages_reach_a_parser 1024 EventRuns.datagram
                  AggregatorRuns.data_xfer_line AggregatorRuns.idle_processor 0 0 Hrun)).
Defined.

(** A flush of two counters and one gauge over an established
    connection. *)
Lemma X20_witness :
  exists cmds,
    MsgProcessor.sendToRedisQos EventRuns.connected_processor (101 * MsgProcessor.TICKS_PER_SEC)
      0 0 MsgProcessor.NetAttached
    = Some (MsgProcessor.update EventRuns.connected_processor [] ∅
              (FlushCommands.after_commands
                 (MsgProcessor.m_qos_redis_conn EventRuns.connected_processor) cmds)
              (MsgProcessor.m_last_redis_connect_time EventRuns.connected_processor)
              (101 * MsgProcessor.TICKS_PER_SEC) 0
              (MsgProcessor.m_error_lines EventRuns.connected_processor))
    /\ (3 <= length cmds <= 5)%nat.
Proof.
  destruct (X20_flush_sends_every_counter EventRuns.connected_processor
              (101 * MsgProcessor.TICKS_PER_SEC) 0 0 MsgProcessor.NetAttached)
    as (cmds & Hrun & _ & _ & Hcount).
  - left. vm_compute. reflexivity.
  - reflexivity.
  - exists cmds. split; [exact Hrun |]. exact Hcount.
Defined.

(** A download of user [u] activated by a response rule: it is counted
    and the detach does not take it back. *)
Lemma X22_witness :
  exists r1 r3,
    FltWeirHooks.weir_enable_filter EventRuns.filter_with_active_user
      RequestLifeCycle.fresh_stream None FltWeirHooks.ACT_F_HTTP_RES FltWeir.HTTP_METH_GET
      5000 (Some "u"%string) None (Some "dwn"%string) = Some r1
    /\ RequestLifeCycle.in_flight (FltWeirHooks.en_conf r1) "u" RateLimit.RL_DOWNLOAD = 3
    /\ FltWeirHooks.weir_detach (FltWeirHooks.en_conf r1)
         (RateLimit.init_speed_epoch_hashmaps (float := Q)) (FltWeirHooks.en_state r1)
         (FltWeirHooks.en_limit r1) (Some FltWeir.HTTP_METH_GET) 7000 = Some r3
    /\ FltWeirHooks.dt_conf r3 = FltWeirHooks.en_conf r1.
Proof.
  destruct (X22_request_counted_but_never_ended EventRuns.filter_with_active_user
              (RateLimit.init_speed_epoch_hashmaps (float := Q))
              RequestLifeCycle.fresh_stream None FltWeirHooks.ACT_F_HTTP_RES
              FltWeir.HTTP_METH_GET 5000 7000 "u" None (Some "dwn"%string) false
              (Some FltWeir.HTTP_METH_GET))
    as (r1 & _ & _ & r3 & Hrun & Hcount & _ & _ & _ & _ & _ & _ & Hdetach & _ & Hconf & _).
  - discriminate.
  - reflexivity.
  - reflexivity.
  - right. right. reflexivity.
  - vm_compute. discriminate.
  - right. right. reflexivity.
  - exists r1, r3. split_and!; [exact Hrun | exact Hcount | exact Hdetach | exact Hconf].
Defined.

(** A chunk of the download of user [u] while the policy of
    [Scenarios.throttled_tables] throttles it. *)
Lemma X23_witness :
  exists r,
    FltWeir.weir_http_payload ThrottleLog.throttling_env PayloadRun.stream
      (Some PayloadRun.limit_of_u) false 0 PayloadRun.chunk_len = Some r
    /\ FltWeir.res_bytes_to_forward r = 0
    /\ FltWeir.next_allowed_send_tick (FltWeir.res_state r) = 5001.
Proof.
  destruct (X23_throttled_chunk_is_held ThrottleLog.throttling_env PayloadRun.stream
              PayloadRun.limit_of_u false 0 PayloadRun.chunk_len "dwn")
    as (r & lim' & Hrun & Hnone & _ & Htick & _).
  - split_and!; [reflexivity | discriminate | reflexivity | left; reflexivity].
  - reflexivity.
  - exists 0. vm_compute. reflexivity.
  - exists r. split_and!; [exact Hrun | exact Hnone | exact Htick].
Defined.

(** The first connection. *)
Lemma X24_witness :
  ConnectionLife.reachable ConnectionLife.connected_once
  /\ ConnectionLife.context_matches ConnectionLife.connected_once.
Proof.
  assert (Hreach : ConnectionLife.reachable ConnectionLife.connected_once).
  { unfold ConnectionLife.reachable.
    eapply rtc_l;
      [eapply (ConnectionLife.step_connect _ MsgProcessor.NetAttached); reflexivity |].
    eapply rtc_l;
      [apply (ConnectionLife.step_connectCallback _ true (sv "1.1.1.1")); reflexivity |].
    apply rtc_refl. }
  split; [exact Hreach |].
  exact (proj1 (X24_connection_state_is_consistent ConnectionLife.connected_once Hreach)).
Defined.

(** The name of the server now resolves to 2.2.2.2. *)
Lemma X25_witness :
  RedisUtils.m_needs_reconnect
    (RedisUtils.checkIfNeedsReconnect ConnectionLife.connected_once
       (Some [sv "2.2.2.2"]) None).1 = true.
Proof.
  refine (proj2 (proj1 (X25_reconnect_follows_address_change ConnectionLife.connected_once
                          (Some [sv "2.2.2.2"]) None eq_refl)) _).
  split; [reflexivity |]. exists [sv "2.2.2.2"]. split; [left; reflexivity |].
  intros Hin. apply list_elem_of_singleton in Hin. discriminate.
Defined.

(** The policy of [Scenarios.throttled_tables], received at second 100,
    is kept by a pass at second 150. *)
Lemma X5_witness :
  RateLimit.get_key_speed_hash
    (RateLimit.remove_old_epochs_pass Scenarios.throttled_tables RateLimit.RL_DOWNLOAD 150)
    RateLimit.RL_DOWNLOAD !! "u"%string
  = Some Scenarios.installed_policy.
Proof.
  refine (proj2 (proj1 (X5_cleanup_keeps_live_policies Scenarios.throttled_tables
                          RateLimit.RL_DOWNLOAD 150) "u"%string Scenarios.installed_policy) _).
  split; [vm_compute; reflexivity | vm_compute; discriminate].
Defined.


(** The transfer of user [myreq] is enqueued from the [req] of its key
    on. *)
Lemma X18_witness :
  SyslogServer.route
    (sv "<134>haproxy[7]: " ++ LogLines.data_xfer_text EventRuns.transfer_of_myreq
       ++ [SyslogServer.newline])
  = SyslogServer.Enqueue (sv "req~|~up~|~4096").
Proof.
  refine (proj1 (proj2 X18_datagram_is_cut_at_the_first_req_marker
                   (sv "<134>haproxy[7]: ") (sv "my") EventRuns.transfer_of_myreq 1%nat
                   AggregatorRuns.idle_processor 0 0 _ _ _ _ _)).
  - reflexivity.
  - reflexivity.
  - reflexivity.
  - reflexivity.
  - vm_compute. discriminate.
Defined.

(** The setting of the sample configuration. *)
Lemma X19_witness :
  SyslogServer.parse_redis_server (sv "localhost:6379") = Some (sv "localhost", 6379).
Proof.
  refine (proj2 (X19_redis_server_setting (sv "localhost:6379") (sv "localhost") 6379) _).
  exists (sv "6379"). split_and!; [left; reflexivity | reflexivity | reflexivity |].
  vm_compute. reflexivity.
Defined.
